(** * csv2table.js: typed query and comparison engine

    A shallow embedding of the CSV reader, the query lexer, the
    recursive-descent query parser, the AST evaluator, the date coercion
    layer, the sort comparator and the state changes of the constructor and
    of the event listeners of [Csv2Table], together with the properties the
    specification states about them and further properties of the code.  The
    class is taken in its version with inequality terms, date and number
    formats, in which [parseDateString] returns [NaN] for what it cannot
    parse.  Number formatting ([formatNumber]) and the construction of the
    DOM are not embedded.

    JavaScript strings are embedded as [string]: a sequence of code units
    below 256 (the Latin-1 range), which is where every character the
    program inspects lives.  Timestamps are integers (milliseconds since
    the epoch) and [NaN] timestamps are [None]. *)

From Stdlib Require Import ZArith QArith String Ascii List Lia Bool DecimalString
  Sorted.
From stdpp Require Import base gmap list strings.
Import ListNotations.
Local Open Scope string_scope.

(** ** JavaScript strings *)

Module JsString.

Definition code (c : ascii) : N := N_of_ascii c.

(** [\s] of a regular expression and the characters [String.prototype.trim]
    removes (WhiteSpace and LineTerminator), below 256. *)
Definition isWhiteSpace (c : ascii) : bool :=
  let n := code c in
  ((9 <=? n) && (n <=? 13) || (n =? 32) || (n =? 160))%N.

Definition isDigit (c : ascii) : bool :=
  let n := code c in ((48 <=? n) && (n <=? 57))%N.

Definition isAsciiLetter (c : ascii) : bool :=
  let n := code c in
  ((65 <=? n) && (n <=? 90) || (97 <=? n) && (n <=? 122))%N.

(** [\w] *)
Definition isWordChar (c : ascii) : bool :=
  isAsciiLetter c || isDigit c || Ascii.eqb c "_".

Definition toLowerChar (c : ascii) : ascii :=
  let n := code c in
  if ((65 <=? n) && (n <=? 90)
      || (192 <=? n) && (n <=? 222) && negb (n =? 215))%N
  then ascii_of_N (n + 32) else c.

Definition toUpperChar (c : ascii) : ascii :=
  let n := code c in
  if ((97 <=? n) && (n <=? 122)
      || (224 <=? n) && (n <=? 254) && negb (n =? 247))%N
  then ascii_of_N (n - 32) else c.

Fixpoint toLowerCase (s : string) : string :=
  match s with
  | "" => ""
  | String c r => String (toLowerChar c) (toLowerCase r)
  end.

Fixpoint trimStart (s : string) : string :=
  match s with
  | "" => ""
  | String c r => if isWhiteSpace c then trimStart r else s
  end.

Fixpoint trimEnd (s : string) : string :=
  match s with
  | "" => ""
  | String c r =>
      let r' := trimEnd r in
      if isWhiteSpace c && (r' =? "") then "" else String c r'
  end.

Definition trim (s : string) : string := trimEnd (trimStart s).

(** Every character of [s] satisfies [p]. *)
Fixpoint allChars (p : ascii -> bool) (s : string) : bool :=
  match s with
  | "" => true
  | String c r => p c && allChars p r
  end.

Fixpoint allWhiteSpace (s : string) : bool :=
  match s with
  | "" => true
  | String c r => isWhiteSpace c && allWhiteSpace r
  end.

Fixpoint drop (n : nat) (s : string) : string :=
  match n, s with
  | O, _ => s
  | S n', String _ r => drop n' r
  | S _, "" => ""
  end.

(** Truthiness of a string, and of a string that may be [null] or
    [undefined]. *)
Definition nonEmpty (s : string) : bool := negb (s =? "").

Definition truthy (o : option string) : bool :=
  match o with
  | Some s => nonEmpty s
  | None => false
  end.

Fixpoint take (n : nat) (s : string) : string :=
  match n, s with
  | S n', String c r => String c (take n' r)
  | _, _ => ""
  end.

Definition startsWith (p s : string) : bool := String.prefix p s.

Definition endsWith (p s : string) : bool :=
  (String.length p <=? String.length s)%nat
  && (drop (String.length s - String.length p) s =? p).

(** [s.replace(pat, rep)] with a string pattern: the first occurrence only.
    [rep] is inserted as it is; the replacement texts of the program hold no
    [$]. *)
Fixpoint replace (pat rep s : string) : string :=
  if String.prefix pat s then rep +:+ drop (String.length pat) s
  else match s with
       | "" => ""
       | String c r => String c (replace pat rep r)
       end.

(** Longest prefix whose characters satisfy [p], and the rest. *)
Fixpoint span (p : ascii -> bool) (s : string) : string * string :=
  match s with
  | "" => ("", "")
  | String c r =>
      if p c then let '(a, b) := span p r in (String c a, b) else ("", s)
  end.

Fixpoint padStart (n : nat) (c : ascii) (s : string) : string :=
  match n with
  | O => s
  | S n' => if (String.length s <=? n')%nat
            then String c (padStart n' c s) else s
  end.

(** [String(n)] for an integer [n]. *)
Definition ofZ (z : Z) : string := NilZero.string_of_int (Z.to_int z).

Definition digitValue (c : ascii) : Z := Z.of_N (code c) - 48.

Fixpoint digitsValue (acc : Z) (s : string) : Z :=
  match s with
  | "" => acc
  | String c r => digitsValue (10 * acc + digitValue c) r
  end.

(** [parseInt(s, 10)]; [None] is [NaN]. *)
Definition parseInt (s : string) : option Z :=
  let s := trimStart s in
  let '(neg, s) :=
    match s with
    | String "-" r => (true, r)
    | String "+" r => (false, r)
    | _ => (false, s)
    end in
  let '(ds, _) := span isDigit s in
  if ds =? "" then None
  else Some (if neg : bool then - digitsValue 0 ds else digitsValue 0 ds)%Z.

(** Comparisons of a text [v] with [s] that ignore case: [v] is all of
    [s], a prefix of [s], a suffix of [s], a part of [s]. *)
Fixpoint equalIgnoreCase (v s : string) : bool :=
  match v, s with
  | "", "" => true
  | String c v', String d s' =>
      Ascii.eqb (toLowerChar c) (toLowerChar d) && equalIgnoreCase v' s'
  | _, _ => false
  end.

Fixpoint startsWithIgnoreCase (v s : string) : bool :=
  match v, s with
  | "", _ => true
  | String c v', String d s' =>
      Ascii.eqb (toLowerChar c) (toLowerChar d) && startsWithIgnoreCase v' s'
  | String _ _, "" => false
  end.

Fixpoint endsWithIgnoreCase (v s : string) : bool :=
  equalIgnoreCase v s
  || match s with
     | String _ s' => endsWithIgnoreCase v s'
     | "" => false
     end.

Fixpoint includesIgnoreCase (v s : string) : bool :=
  startsWithIgnoreCase v s
  || match s with
     | String _ s' => includesIgnoreCase v s'
     | "" => false
     end.

End JsString.

(** ** JavaScript numbers

    The values the program compares: [NaN], the two infinities and the
    finite numbers.  A decimal literal denotes its exact rational value;
    rounding to the nearest double, which is monotone, and overflow are not
    modelled. *)

Module JsNumber.
Import JsString.

Inductive number : Set :=
| NaN
| NegInfinity
| PosInfinity
| Finite (q : Q).

Definition isNaN (n : number) : bool :=
  match n with NaN => true | _ => false end.

Definition ofZ (z : Z) : number := Finite (inject_Z z).

(** Unary minus. *)
Definition neg (n : number) : number :=
  match n with
  | NaN => NaN
  | NegInfinity => PosInfinity
  | PosInfinity => NegInfinity
  | Finite q => Finite (- q)
  end.

(** [a - b] *)
Definition sub (a b : number) : number :=
  match a, b with
  | NaN, _ | _, NaN => NaN
  | PosInfinity, PosInfinity | NegInfinity, NegInfinity => NaN
  | PosInfinity, _ => PosInfinity
  | NegInfinity, _ => NegInfinity
  | Finite _, PosInfinity => NegInfinity
  | Finite _, NegInfinity => PosInfinity
  | Finite x, Finite y => Finite (x - y)
  end.

(** [a < b]; every comparison with [NaN] is false. *)
Definition lt (a b : number) : bool :=
  match a, b with
  | NaN, _ | _, NaN => false
  | _, NegInfinity | PosInfinity, _ => false
  | NegInfinity, _ | _, PosInfinity => true
  | Finite x, Finite y => negb (Qle_bool y x)
  end.

(** [a <= b] *)
Definition le (a b : number) : bool :=
  match a, b with
  | NaN, _ | _, NaN => false
  | NegInfinity, _ | _, PosInfinity => true
  | _, NegInfinity | PosInfinity, _ => false
  | Finite x, Finite y => Qle_bool x y
  end.

Definition gt (a b : number) : bool := lt b a.
Definition ge (a b : number) : bool := le b a.

Definition isNegative (n : number) : bool := lt n (ofZ 0).
Definition isPositive (n : number) : bool := lt (ofZ 0) n.
Definition isZero (n : number) : bool := le n (ofZ 0) && le (ofZ 0) n.

(** The exponent part of a decimal literal: [e] or [E], an optional sign
    and digits; 0 when there is none. *)
Definition exponent (s : string) : Z :=
  match s with
  | String c r =>
      if Ascii.eqb c "e" || Ascii.eqb c "E" then
        let '(negative, r) :=
          match r with
          | String "-" r' => (true, r')
          | String "+" r' => (false, r')
          | _ => (false, r)
          end in
        let '(ds, _) := span isDigit r in
        if negative : bool then (- digitsValue 0 ds)%Z else digitsValue 0 ds
      else 0%Z
  | "" => 0%Z
  end.

(** [parseFloat(s)]: leading white space, then the longest prefix that is a
    decimal literal. *)
Definition parseFloat (s : string) : number :=
  let s := trimStart s in
  let '(negative, s) :=
    match s with
    | String "-" r => (true, r)
    | String "+" r => (false, r)
    | _ => (false, s)
    end in
  if String.prefix "Infinity" s
  then (if negative : bool then NegInfinity else PosInfinity)
  else
    let '(ip, r1) := span isDigit s in
    let '(fp, r2) :=
      match r1 with
      | String "." r => span isDigit r
      | _ => ("", r1)
      end in
    if negb (nonEmpty ip) && negb (nonEmpty fp) then NaN
    else
      let m := digitsValue 0 (ip +:+ fp) in
      let e := (exponent r2 - Z.of_nat (String.length fp))%Z in
      let q := (inject_Z m * Qpower (inject_Z 10) e)%Q in
      Finite (if negative : bool then (- q)%Q else q).

(** The class [[\d.-]] *)
Definition isNumericChar (c : ascii) : bool :=
  isDigit c || Ascii.eqb c "." || Ascii.eqb c "-".

(** [s.replace(/[^\d.-]/g, '')] *)
Fixpoint stripNonNumeric (s : string) : string :=
  match s with
  | "" => ""
  | String c r =>
      if isNumericChar c then String c (stripNonNumeric r)
      else stripNonNumeric r
  end.

End JsNumber.

(** ** Regular expressions

    [new RegExp(pattern, flags)] and matching, for the pattern language the
    program can build: pattern characters, [.], escapes, character classes,
    anchors, alternation, groups (capturing, named, non-capturing) and
    quantifiers, read as a browser reads a pattern without the [u] flag.
    Look-arounds, back-references, [\b], and numeric, control, hexadecimal
    and Unicode escapes are outside the fragment ([Unsupported]); the program
    escapes every metacharacter of user text, so it never builds one. *)

Module RegExp.
Import JsString.

Inductive classAtom : Set :=
| CChar (c : ascii)
| CRange (lo hi : ascii)
| CDigit (negated : bool)
| CSpace (negated : bool)
| CWord (negated : bool).

Inductive regex : Set :=
| Empty
| Char (c : ascii)
| AnyChar
| Class (negated : bool) (atoms : list classAtom)
| LineStart
| LineEnd
| Seq (r1 r2 : regex)
| Alt (r1 r2 : regex)
| Group (name : option string) (r : regex)
| Repeat (min : nat) (max : option nat) (greedy : bool) (r : regex).

(** The outcome of reading a pattern: [SyntaxError] is the exception
    [new RegExp] throws. *)
Inductive result (A : Type) : Type :=
| Ok (a : A)
| SyntaxError
| Unsupported
| OutOfFuel.
Arguments Ok {A} a.
Arguments SyntaxError {A}.
Arguments Unsupported {A}.
Arguments OutOfFuel {A}.

Definition bind {A B} (x : result A) (f : A -> result B) : result B :=
  match x with
  | Ok a => f a
  | SyntaxError => SyntaxError
  | Unsupported => Unsupported
  | OutOfFuel => OutOfFuel
  end.

(** *** Reading a pattern *)

(** The character after a backslash. *)
Definition parseEscape (inClass : bool) (e : ascii) : result classAtom :=
  if Ascii.eqb e "d" then Ok (CDigit false)
  else if Ascii.eqb e "D" then Ok (CDigit true)
  else if Ascii.eqb e "s" then Ok (CSpace false)
  else if Ascii.eqb e "S" then Ok (CSpace true)
  else if Ascii.eqb e "w" then Ok (CWord false)
  else if Ascii.eqb e "W" then Ok (CWord true)
  else if Ascii.eqb e "t" then Ok (CChar (ascii_of_N 9))
  else if Ascii.eqb e "n" then Ok (CChar (ascii_of_N 10))
  else if Ascii.eqb e "v" then Ok (CChar (ascii_of_N 11))
  else if Ascii.eqb e "f" then Ok (CChar (ascii_of_N 12))
  else if Ascii.eqb e "r" then Ok (CChar (ascii_of_N 13))
  else if isAsciiLetter e || isDigit e then Unsupported
  else Ok (CChar e).

Definition atomRegex (a : classAtom) : regex :=
  match a with
  | CChar c => Char c
  | _ => Class false [a]
  end.

Definition parseClassAtom (s : string) : result (classAtom * string) :=
  match s with
  | "" => SyntaxError
  | String "\" "" => SyntaxError
  | String "\" (String e r) => bind (parseEscape true e) (fun a => Ok (a, r))
  | String c r => Ok (CChar c, r)
  end.

(** The atoms of a class up to its closing bracket. *)
Fixpoint parseClass (fuel : nat) (s : string) (acc : list classAtom)
  : result (list classAtom * string) :=
  match fuel with
  | O => OutOfFuel
  | S fuel' =>
      match s with
      | "" => SyntaxError
      | String "]" r => Ok (rev acc, r)
      | _ =>
          bind (parseClassAtom s) (fun '(a, r) =>
            match r with
            | String "-" (String c2 _ as r2) =>
                if Ascii.eqb c2 "]" then parseClass fuel' r (a :: acc)
                else
                  bind (parseClassAtom r2) (fun '(b, r3) =>
                    match a, b with
                    | CChar lo, CChar hi =>
                        if (code lo <=? code hi)%N
                        then parseClass fuel' r3 (CRange lo hi :: acc)
                        else SyntaxError
                    | _, _ => parseClass fuel' r3 (b :: CChar "-" :: a :: acc)
                    end)
            | _ => parseClass fuel' r (a :: acc)
            end)
      end
  end.

(** [{n}], [{n,}] or [{n,m}] at the start of [s]. *)
Definition parseBraces (s : string) : option (nat * option nat * string) :=
  match s with
  | String "{" r =>
      let '(ds1, r1) := span isDigit r in
      if nonEmpty ds1 then
        let n := Z.to_nat (digitsValue 0 ds1) in
        match r1 with
        | String "}" r2 => Some (n, Some n, r2)
        | String "," (String "}" r2) => Some (n, None, r2)
        | String "," r2 =>
            let '(ds2, r3) := span isDigit r2 in
            match nonEmpty ds2, r3 with
            | true, String "}" r4 =>
                Some (n, Some (Z.to_nat (digitsValue 0 ds2)), r4)
            | _, _ => None
            end
        | _ => None
        end
      else None
  | _ => None
  end.

(** A quantifier at the start of [s], with its bounds. *)
Definition parseQuantifierPrefix (s : string)
  : result (option (nat * option nat * string)) :=
  match s with
  | String "*" r => Ok (Some (0, None, r))
  | String "+" r => Ok (Some (1, None, r))
  | String "?" r => Ok (Some (0, Some 1, r))
  | _ =>
      match parseBraces s with
      | Some (n, Some m, r) =>
          if (m <? n)%nat then SyntaxError else Ok (Some (n, Some m, r))
      | Some (n, None, r) => Ok (Some (n, None, r))
      | None => Ok None
      end
  end.

(** The quantifier that may follow the atom [a]. *)
Definition quantified (a : regex) (s : string) : result (regex * string) :=
  bind (parseQuantifierPrefix s) (fun q =>
    match q with
    | None => Ok (a, s)
    | Some (n, m, String "?" r) => Ok (Repeat n m false a, r)
    | Some (n, m, r) => Ok (Repeat n m true a, r)
    end).

(** An assertion takes no quantifier. *)
Definition unquantified (a : regex) (s : string) : result (regex * string) :=
  bind (parseQuantifierPrefix s) (fun q =>
    match q with
    | None => Ok (a, s)
    | Some _ => SyntaxError
    end).

Definition isIdentifierStart (c : ascii) : bool :=
  isAsciiLetter c || Ascii.eqb c "$" || Ascii.eqb c "_"
  || (let n := code c in
      ((192 <=? n) && negb (n =? 215) && negb (n =? 247)
       || (n =? 170) || (n =? 181) || (n =? 186))%N).

Definition isIdentifierPart (c : ascii) : bool :=
  isIdentifierStart c || isDigit c || (code c =? 183)%N.

(** The name of [(?<name>]: an identifier closed by [>]. *)
Definition parseGroupName (s : string) : result (string * string) :=
  let '(name, r) := span isIdentifierPart s in
  match name, r with
  | String c _, String ">" r' =>
      if isIdentifierStart c then Ok (name, r') else SyntaxError
  | _, String "\" _ => Unsupported
  | _, _ => SyntaxError
  end.

(** What follows an opening parenthesis: [Some name] for a capturing
    group. *)
Definition parseGroupSpecifier (s : string)
  : result (option (option string) * string) :=
  match s with
  | String "?" (String ":" r) => Ok (None, r)
  | String "?" (String "<" (String "=" _)) => Unsupported
  | String "?" (String "<" (String "!" _)) => Unsupported
  | String "?" (String "<" r) =>
      bind (parseGroupName r) (fun '(name, r') => Ok (Some (Some name), r'))
  | String "?" (String "=" _) => Unsupported
  | String "?" (String "!" _) => Unsupported
  | String "?" _ => SyntaxError
  | _ => Ok (Some None, s)
  end.

Fixpoint parseDisjunction (fuel : nat) (s : string) : result (regex * string) :=
  match fuel with
  | O => OutOfFuel
  | S fuel' =>
      bind (parseAlternative fuel' s Empty) (fun '(r1, rest) =>
        match rest with
        | String "|" rest' =>
            bind (parseDisjunction fuel' rest') (fun '(r2, rest'') =>
              Ok (Alt r1 r2, rest''))
        | _ => Ok (r1, rest)
        end)
  end
with parseAlternative (fuel : nat) (s : string) (acc : regex)
  : result (regex * string) :=
  match fuel with
  | O => OutOfFuel
  | S fuel' =>
      match s with
      | "" => Ok (acc, s)
      | String "|" _ => Ok (acc, s)
      | String ")" _ => Ok (acc, s)
      | _ =>
          bind (parseTerm fuel' s) (fun '(t, rest) =>
            parseAlternative fuel' rest (Seq acc t))
      end
  end
with parseTerm (fuel : nat) (s : string) : result (regex * string) :=
  match fuel with
  | O => OutOfFuel
  | S fuel' =>
      match s with
      | "" => SyntaxError
      | String "^" r => unquantified LineStart r
      | String "$" r => unquantified LineEnd r
      | String "(" r =>
          bind (parseGroupSpecifier r) (fun '(spec, body) =>
            bind (parseDisjunction fuel' body) (fun '(d, rest) =>
              match rest with
              | String ")" rest' =>
                  quantified (match spec with
                              | Some name => Group name d
                              | None => d
                              end) rest'
              | _ => SyntaxError
              end))
      | String "*" _ => SyntaxError
      | String "+" _ => SyntaxError
      | String "?" _ => SyntaxError
      | String "{" r =>
          match parseBraces s with
          | Some _ => SyntaxError
          | None => quantified (Char "{") r
          end
      | String "[" (String "^" r) =>
          bind (parseClass fuel' r []) (fun '(atoms, rest) =>
            quantified (Class true atoms) rest)
      | String "[" r =>
          bind (parseClass fuel' r []) (fun '(atoms, rest) =>
            quantified (Class false atoms) rest)
      | String "." r => quantified AnyChar r
      | String "\" "" => SyntaxError
      | String "\" (String e r) =>
          bind (parseEscape false e) (fun a => quantified (atomRegex a) r)
      | String c r => quantified (Char c) r
      end
  end.

(** The names of the named groups, in source order. *)
Fixpoint groupNames (r : regex) : list string :=
  match r with
  | Seq r1 r2 | Alt r1 r2 => app (groupNames r1) (groupNames r2)
  | Group (Some n) r1 => n :: groupNames r1
  | Group None r1 => groupNames r1
  | Repeat _ _ _ r1 => groupNames r1
  | _ => []
  end.

Fixpoint hasDuplicate (l : list string) : bool :=
  match l with
  | [] => false
  | x :: l' => existsb (String.eqb x) l' || hasDuplicate l'
  end.

(** The whole pattern. *)
Definition parsePattern (pattern : string) : result regex :=
  bind (parseDisjunction (4 * String.length pattern + 4) pattern)
    (fun '(r, rest) =>
       match rest with
       | "" => if hasDuplicate (groupNames r) then Unsupported else Ok r
       | _ => SyntaxError
       end).

(** *** Matching

    A backtracking matcher in continuation-passing style, as the language
    definition gives it: [pos] is the index of the next character, [s] the
    input from there on, [caps] the named captures so far.  A quantifier
    iterates at most [max] times; without a maximum, at most [min] times plus
    once for every character left, since an iteration past the minimum that
    consumes nothing is rejected. *)

Definition captures := list (string * string).

Definition lookup (name : string) (caps : captures) : option string :=
  match find (fun p => String.eqb (fst p) name) caps with
  | Some p => Some (snd p)
  | None => None
  end.

Definition remove (names : list string) (caps : captures) : captures :=
  List.filter (fun p => negb (existsb (String.eqb (fst p)) names)) caps.

Definition capture (name : option string) (text : string) (caps : captures)
  : captures :=
  match name with
  | Some n => (n, text) :: remove [n] caps
  | None => caps
  end.

(** Two characters are the same when case is ignored. *)
Definition sameChar (ignoreCase : bool) (a b : ascii) : bool :=
  if ignoreCase then Ascii.eqb (toLowerChar a) (toLowerChar b)
  else Ascii.eqb a b.

Definition inAtom (a : classAtom) (c : ascii) : bool :=
  match a with
  | CChar x => Ascii.eqb x c
  | CRange lo hi => ((code lo <=? code c) && (code c <=? code hi))%N
  | CDigit negated => xorb negated (isDigit c)
  | CSpace negated => xorb negated (isWhiteSpace c)
  | CWord negated => xorb negated (isWordChar c)
  end.

Definition inClass (ignoreCase negated : bool) (atoms : list classAtom)
  (c : ascii) : bool :=
  xorb negated
    (existsb (fun a => inAtom a c
                       || ignoreCase
                          && (inAtom a (toLowerChar c) || inAtom a (toUpperChar c)))
       atoms).

Definition isLineTerminator (c : ascii) : bool :=
  (code c =? 10)%N || (code c =? 13)%N.

Definition continuation := nat -> string -> captures -> option captures.

Fixpoint run (ignoreCase : bool) (r : regex) (pos : nat) (s : string)
  (caps : captures) (k : continuation) {struct r} : option captures :=
  match r with
  | Empty => k pos s caps
  | Char c =>
      match s with
      | String d s' => if sameChar ignoreCase c d then k (S pos) s' caps else None
      | "" => None
      end
  | AnyChar =>
      match s with
      | String d s' => if isLineTerminator d then None else k (S pos) s' caps
      | "" => None
      end
  | Class negated atoms =>
      match s with
      | String d s' =>
          if inClass ignoreCase negated atoms d then k (S pos) s' caps else None
      | "" => None
      end
  | LineStart => if (pos =? 0)%nat then k pos s caps else None
  | LineEnd => match s with "" => k pos s caps | _ => None end
  | Seq r1 r2 =>
      run ignoreCase r1 pos s caps
        (fun pos' s' caps' => run ignoreCase r2 pos' s' caps' k)
  | Alt r1 r2 =>
      match run ignoreCase r1 pos s caps k with
      | Some c => Some c
      | None => run ignoreCase r2 pos s caps k
      end
  | Group name r1 =>
      run ignoreCase r1 pos s caps
        (fun pos' s' caps' => k pos' s' (capture name (take (pos' - pos) s) caps'))
  | Repeat min max greedy r1 =>
      (fix loop (n count pos : nat) (s : string) (caps : captures) {struct n}
         : option captures :=
         match n with
         | O => if (min <=? count)%nat then k pos s caps else None
         | S n' =>
             if greedy then
               match run ignoreCase r1 pos s (remove (groupNames r1) caps)
                       (fun pos' s' caps' =>
                          if (min <=? count)%nat && (pos' =? pos)%nat then None
                          else loop n' (S count) pos' s' caps') with
               | Some c => Some c
               | None => if (min <=? count)%nat then k pos s caps else None
               end
             else
               match (if (min <=? count)%nat then k pos s caps else None) with
               | Some c => Some c
               | None =>
                   run ignoreCase r1 pos s (remove (groupNames r1) caps)
                     (fun pos' s' caps' =>
                        if (min <=? count)%nat && (pos' =? pos)%nat then None
                        else loop n' (S count) pos' s' caps')
               end
         end)
        (match max with
         | Some m => m
         | None => min + String.length s
         end) 0 pos s caps
  end.

(** The leftmost match, tried at every index from [pos] on. *)
Fixpoint search (ignoreCase : bool) (r : regex) (pos : nat) (s : string)
  : option captures :=
  match run ignoreCase r pos s [] (fun _ _ caps => Some caps) with
  | Some caps => Some caps
  | None =>
      match s with
      | String _ s' => search ignoreCase r (S pos) s'
      | "" => None
      end
  end.

(** *** RegExp objects *)

Record t : Set := { source : regex; ignoreCase : bool }.

(** [new RegExp(pattern, flags)]; [None] when it throws.  Of the flags only
    [i] is used. *)
Definition new (pattern : string) (ignoreCase : bool) : option t :=
  match parsePattern pattern with
  | Ok r => Some {| source := r; ignoreCase := ignoreCase |}
  | _ => None
  end.

(** [re.exec(s)], as [s.match(re)] calls it: the captures of the leftmost
    match, or [None] for [null]. *)
Definition exec (re : t) (s : string) : option captures :=
  search (ignoreCase re) (source re) 0 s.

(** [re.test(s)] *)
Definition test (re : t) (s : string) : bool :=
  match exec re s with Some _ => true | None => false end.

(** [match.groups] is an object only when the pattern has named groups. *)
Definition hasGroups (re : t) : bool :=
  match groupNames (source re) with [] => false | _ => true end.

(** The pattern that is [acc] followed by the characters of [v], as
    [parseAlternative] builds it, and what [run] does on the characters of
    [v] before it goes on with [k]. *)
Fixpoint literal (acc : regex) (v : string) : regex :=
  match v with
  | "" => acc
  | String c v' => literal (Seq acc (Char c)) v'
  end.

Fixpoint matchLiteral (ignoreCase : bool) (v : string) (pos : nat)
  (s : string) (caps : captures) (k : continuation) : option captures :=
  match v with
  | "" => k pos s caps
  | String c v' =>
      match s with
      | String d s' =>
          if sameChar ignoreCase c d
          then matchLiteral ignoreCase v' (S pos) s' caps k
          else None
      | "" => None
      end
  end.

End RegExp.

(** ** The host

    What the language leaves to the engine and its environment: the local
    time zone, the fallback of [Date.parse] for strings that are not in the
    date-time string format, the locale's names and collation.  Everything
    below is stated for an arbitrary host.  The locale tags of the column
    configuration are taken to be well-formed, so that the [Intl]
    constructors return. *)

Record Host : Type := {
  (** [LocalTime(t)]: a UTC time value as local time. *)
  LocalTime : Z -> Z;
  (** [UTC(t)]: a local time value as UTC. *)
  UTC : Z -> Z;
  (** The implementation-defined heuristics of [Date.parse]; [None] is
      [NaN]. *)
  legacyDateParse : string -> option Z;
  (** [new Intl.DateTimeFormat(locale, {weekday: 'short'}).format(d)] *)
  shortWeekday : option string -> Z -> string;
  (** [new Intl.DateTimeFormat(locale, {month: 'short'}).format(d)] *)
  shortMonth : option string -> Z -> string;
  (** [a.localeCompare(b)] *)
  localeCompare : string -> string -> Z
}.

(** ** Dates *)

Module JsDate.
Import JsString.
Local Open Scope Z_scope.

Definition msPerDay : Z := 86400000.
Definition msPerHour : Z := 3600000.
Definition msPerMinute : Z := 60000.
Definition msPerSecond : Z := 1000.

(** Day number of a date of the proleptic Gregorian calendar, month from 1
    to 12, and back. *)
Definition daysFromCivil (y m d : Z) : Z :=
  let y := if m <=? 2 then y - 1 else y in
  let era := y / 400 in
  let yoe := y - era * 400 in
  let doy := (153 * (if 2 <? m then m - 3 else m + 9) + 2) / 5 + d - 1 in
  let doe := yoe * 365 + yoe / 4 - yoe / 100 + doy in
  era * 146097 + doe - 719468.

Definition civilFromDays (z : Z) : Z * Z * Z :=
  let z := z + 719468 in
  let era := z / 146097 in
  let doe := z - era * 146097 in
  let yoe := (doe - doe / 1460 + doe / 36524 - doe / 146096) / 365 in
  let doy := doe - (365 * yoe + yoe / 4 - yoe / 100) in
  let mp := (5 * doy + 2) / 153 in
  let d := doy - (153 * mp + 2) / 5 + 1 in
  let m := if mp <? 10 then mp + 3 else mp - 9 in
  (if m <=? 2 then yoe + era * 400 + 1 else yoe + era * 400, m, d).

Definition Day (t : Z) : Z := t / msPerDay.
Definition TimeWithinDay (t : Z) : Z := t mod msPerDay.

(** [MakeDay(year, month, date)], month from 0. *)
Definition MakeDay (year month date : Z) : Z :=
  daysFromCivil (year + month / 12) (month mod 12 + 1) 1 + date - 1.

Definition MakeTime (hour min sec ms : Z) : Z :=
  hour * msPerHour + min * msPerMinute + sec * msPerSecond + ms.

Definition MakeDate (day time : Z) : Z := day * msPerDay + time.

(** [TimeClip(t)]; [None] is [NaN]. *)
Definition TimeClip (t : Z) : option Z :=
  if Z.abs t <=? 8640000000000000 then Some t else None.

Definition YearFromTime (t : Z) : Z := fst (fst (civilFromDays (Day t))).
Definition MonthFromTime (t : Z) : Z := snd (fst (civilFromDays (Day t))) - 1.
Definition DateFromTime (t : Z) : Z := snd (civilFromDays (Day t)).
Definition HourFromTime (t : Z) : Z := (t / msPerHour) mod 24.
Definition MinFromTime (t : Z) : Z := (t / msPerMinute) mod 60.
Definition SecFromTime (t : Z) : Z := (t / msPerSecond) mod 60.

Definition isLeapYear (y : Z) : bool :=
  (y mod 4 =? 0) && (negb (y mod 100 =? 0) || (y mod 400 =? 0)).

Definition daysInMonth (y m : Z) : Z :=
  if m =? 2 then (if isLeapYear y then 29 else 28)
  else if (m =? 4) || (m =? 6) || (m =? 9) || (m =? 11) then 30 else 31.

(** *** The date-time string format

    The two shapes the program meets: a date alone ([YYYY-MM-DD], a UTC
    date) and a date and time with an offset ([YYYY-MM-DDTHH:mm:ss] followed
    by [Z] or [+HH:mm] or [-HH:mm]), with every field in range.  Any other
    string is left to the host. *)

Definition digits (n : nat) (s : string) : option (Z * string) :=
  let d := take n s in
  if (String.length d =? n)%nat && forallb isDigit (list_ascii_of_string d)
  then Some (digitsValue 0 d, drop n s) else None.

Definition expect (c : ascii) (s : string) : option string :=
  match s with
  | String d r => if Ascii.eqb c d then Some r else None
  | "" => None
  end.

Definition parseOffset (s : string) : option Z :=
  match s with
  | "Z" => Some 0
  | String sign r =>
      if Ascii.eqb sign "+" || Ascii.eqb sign "-" then
        '(hh, r) ← digits 2 r;
        r ← expect ":" r;
        '(mm, r) ← digits 2 r;
        if (r =? "")%string && (hh <=? 23) && (mm <=? 59)
        then Some ((if Ascii.eqb sign "-" then -1 else 1)
                   * (hh * msPerHour + mm * msPerMinute))
        else None
      else None
  | "" => None
  end.

Definition parseISO (s : string) : option Z :=
  '(y, r) ← digits 4 s;
  r ← expect "-" r;
  '(m, r) ← digits 2 r;
  r ← expect "-" r;
  '(d, r) ← digits 2 r;
  if (1 <=? m) && (m <=? 12) && (1 <=? d) && (d <=? daysInMonth y m) then
    match r with
    | "" => Some (MakeDate (MakeDay y (m - 1) d) 0)
    | String "T" r =>
        '(hh, r) ← digits 2 r;
        r ← expect ":" r;
        '(mi, r) ← digits 2 r;
        r ← expect ":" r;
        '(ss, r) ← digits 2 r;
        offset ← parseOffset r;
        if (hh <=? 23) && (mi <=? 59) && (ss <=? 59)
        then Some (MakeDate (MakeDay y (m - 1) d) (MakeTime hh mi ss 0) - offset)
        else None
    | _ => None
    end
  else None.

Section WithHost.
Context (host : Host).

(** [Date.parse(s)], which is also [new Date(s).getTime()]. *)
Definition parse (s : string) : option Z :=
  match parseISO s with
  | Some t => Some t
  | None => legacyDateParse host s
  end.

(** [new Date(year, month, date, hours, minutes, seconds).getTime()];
    a field that is [NaN] ([None]) makes the date invalid. *)
Definition fromFields (year month date hours minutes seconds : option Z)
  : option Z :=
  y ← year; m ← month; d ← date;
  hh ← hours; mi ← minutes; ss ← seconds;
  let yr := if (0 <=? y) && (y <=? 99) then 1900 + y else y in
  TimeClip (UTC host (MakeDate (MakeDay yr m d) (MakeTime hh mi ss 0))).

Definition getFullYear (t : Z) : Z := YearFromTime (LocalTime host t).
Definition getMonth (t : Z) : Z := MonthFromTime (LocalTime host t).
Definition getDate (t : Z) : Z := DateFromTime (LocalTime host t).
Definition getHours (t : Z) : Z := HourFromTime (LocalTime host t).
Definition getMinutes (t : Z) : Z := MinFromTime (LocalTime host t).
Definition getSeconds (t : Z) : Z := SecFromTime (LocalTime host t).
Definition getTimezoneOffset (t : Z) : Z := (t - LocalTime host t) / msPerMinute.

End WithHost.

End JsDate.

(** ** The class [Csv2Table] *)

Module Csv2Table.
Import JsString.

(** *** Tokens and AST nodes

    The lexer's token objects [{type, column, operator, value}]; the
    parser returns the [TERM] and [INEQUALITY] tokens themselves as the
    leaves of the AST. *)

Inductive operator : Set := OpGe | OpLe | OpGt | OpLt.

Inductive token : Set :=
| LPAREN
| RPAREN
| AND
| OR
| TERM (column : option string) (value : string)
| INEQUALITY (column : option string) (op : operator) (value : string).

Inductive ast : Set :=
| AstAnd (lhs rhs : ast)
| AstOr (lhs rhs : ast)
| AstTerm (column : option string) (value : string)
| AstInequality (column : option string) (op : operator) (value : string).

(** *** parseSearchQuery: the lexer *)

(** Case-insensitive match of the keyword [kw] (given in lower case) at the
    start of [s]; returns the rest. *)
Fixpoint matchIgnoreCase (kw s : string) : option string :=
  match kw, s with
  | "", _ => Some s
  | String k kw', String c s' =>
      if Ascii.eqb (toLowerChar c) k then matchIgnoreCase kw' s' else None
  | String _ _, "" => None
  end.

(** [\b] after a word character: the end of input or a non-word character. *)
Definition atWordBoundary (s : string) : bool :=
  match s with
  | "" => true
  | String c _ => negb (isWordChar c)
  end.

(** [query.slice(i).match(/^(AND\b|OR\b)/i)] *)
Definition matchKeyword (s : string) : option (token * string) :=
  match matchIgnoreCase "and" s with
  | Some r => if atWordBoundary r then Some (AND, r) else None
  | None =>
      match matchIgnoreCase "or" s with
      | Some r => if atWordBoundary r then Some (OR, r) else None
      | None => None
      end
  end.

(** The class [[^:()<>=!\s]] *)
Definition isColumnChar (c : ascii) : bool :=
  negb (Ascii.eqb c ":" || Ascii.eqb c "(" || Ascii.eqb c ")"
        || Ascii.eqb c "<" || Ascii.eqb c ">" || Ascii.eqb c "="
        || Ascii.eqb c "!" || isWhiteSpace c).

(** [query.slice(i).match(/^([^:()<>=!\s]+):/)] *)
Definition matchColumn (s : string) : option (string * string) :=
  match span isColumnChar s with
  | (String c col, String ":" r) => Some (String c col, r)
  | _ => None
  end.

(** [query.slice(i).match(/^(>=|<=|>|<)/)] *)
Definition matchOperator (s : string) : option (operator * string) :=
  match s with
  | String ">" (String "=" r) => Some (OpGe, r)
  | String "<" (String "=" r) => Some (OpLe, r)
  | String ">" r => Some (OpGt, r)
  | String "<" r => Some (OpLt, r)
  | _ => None
  end.

(** [/\s|\(|\)/.test(c)] negated *)
Definition isValueChar (c : ascii) : bool :=
  negb (isWhiteSpace c || Ascii.eqb c "(" || Ascii.eqb c ")").

(** The double quote. *)
Definition quote : ascii := ascii_of_N 34.

Definition isNotQuote (c : ascii) : bool := negb (Ascii.eqb c quote).

(** The value of a fragment: quoted (verbatim up to the next quote, the
    closing quote skipped when there is one) or a run of value characters. *)
Definition scanValue (s : string) : string * string :=
  match s with
  | String c r =>
      if Ascii.eqb c quote then
        let '(value, r') := span isNotQuote r in
        (value, match r' with String _ r'' => r'' | "" => "" end)
      else span isValueChar s
  | "" => span isValueChar s
  end.

(** One fragment, from the column qualifier on: the token pushed, if any,
    and the rest of the input. *)
Definition scanFragment (s : string) : option token * string :=
  let '(column, s1) :=
    match matchColumn s with
    | Some (col, r) => (Some col, r)
    | None => (None, s)
    end in
  let '(operator, s2) :=
    match matchOperator s1 with
    | Some (op, r) => (Some op, r)
    | None => (None, s1)
    end in
  let '(value, s3) := scanValue s2 in
  let tok :=
    if nonEmpty value || truthy column
    then Some match operator with
              | Some op => INEQUALITY column op (toLowerCase value)
              | None => TERM column (toLowerCase value)
              end
    else None in
  (tok, s3).

Definition push (tokens : list token) (t : option token) : list token :=
  match t with
  | Some t => app tokens [t]
  | None => tokens
  end.

(** The [while (i < query.length)] loop over [query.slice(i)]; [None] when
    the fuel runs out. *)
Fixpoint lexLoop (fuel : nat) (s : string) (tokens : list token)
  : option (list token) :=
  match s with
  | "" => Some tokens
  | String c r =>
      match fuel with
      | O => None
      | S fuel' =>
          if isWhiteSpace c then lexLoop fuel' r tokens
          else if Ascii.eqb c "(" then lexLoop fuel' r (push tokens (Some LPAREN))
          else if Ascii.eqb c ")" then lexLoop fuel' r (push tokens (Some RPAREN))
          else match matchKeyword s with
               | Some (kw, r') => lexLoop fuel' r' (push tokens (Some kw))
               | None =>
                   let '(tok, r') := scanFragment s in
                   lexLoop fuel' r' (push tokens tok)
               end
      end
  end.

(** Every iteration consumes a character, so the length of the query is
    fuel enough (see [lexLoop_total]). *)
Definition tokenize (query : string) : option (list token) :=
  lexLoop (String.length query) query [].

(** A word that the lexer takes whole as the value of a column-less [TERM]:
    characters other than white space, parentheses, the colon and the quote,
    the first of them not a comparison sign, and not the keyword [AND] or
    [OR] at its start. *)
Definition isPlainChar (c : ascii) : bool :=
  isValueChar c && negb (Ascii.eqb c ":") && isNotQuote c.

Definition isPlainWord (w : string) : bool :=
  match w with
  | "" => false
  | String c _ =>
      negb (Ascii.eqb c "<") && negb (Ascii.eqb c ">")
      && allChars isPlainChar w
      && negb (bool_decide (is_Some (matchKeyword w)))
  end.

(** What follows a word: the end of the query or white space. *)
Definition endsWord (rest : string) : Prop :=
  match rest with
  | "" => True
  | String c _ => isWhiteSpace c = true
  end.

(** A token that is a fragment has a value or a column. *)
Definition hasValueOrColumn (t : token) : Prop :=
  match t with
  | TERM column value | INEQUALITY column _ value =>
      value <> "" \/ column <> None
  | _ => True
  end.

(** *** parseSearchQuery: the recursive-descent parser

    [parseTerm], [parseAnd] and [parseOr] share the cursor [pos]; here each
    returns its node together with [tokens.slice(pos)].  The two [while]
    loops are [parseAndLoop] and [parseOrLoop].  All five decrease one
    fuel; [None] when it runs out. *)

(** [if (node && right) node = {type, left: node, right};
     else if (right) node = right;] *)
Definition join (mk : ast -> ast -> ast) (node rhs : option ast)
  : option ast :=
  match node, rhs with
  | Some n, Some r => Some (mk n r)
  | None, Some r => Some r
  | _, None => node
  end.

Fixpoint parseTerm (fuel : nat) (tokens : list token)
  : option (option ast * list token) :=
  match fuel with
  | O => None
  | S fuel' =>
      match tokens with
      | [] => Some (None, [])
      | LPAREN :: rest =>
          match parseOr fuel' rest with
          | Some (node, RPAREN :: rest') => Some (node, rest')
          | r => r
          end
      | TERM c v :: rest => Some (Some (AstTerm c v), rest)
      | INEQUALITY c o v :: rest => Some (Some (AstInequality c o v), rest)
      | _ :: rest => Some (None, rest)
      end
  end
with parseAndLoop (fuel : nat) (node : option ast) (tokens : list token)
  : option (option ast * list token) :=
  match fuel with
  | O => None
  | S fuel' =>
      match tokens with
      | AND :: rest =>
          match parseTerm fuel' rest with
          | Some (rhs, rest') => parseAndLoop fuel' (join AstAnd node rhs) rest'
          | None => None
          end
      | TERM _ _ :: _ | INEQUALITY _ _ _ :: _ | LPAREN :: _ =>
          match parseTerm fuel' tokens with
          | Some (rhs, rest') => parseAndLoop fuel' (join AstAnd node rhs) rest'
          | None => None
          end
      | _ => Some (node, tokens)
      end
  end
with parseAnd (fuel : nat) (tokens : list token)
  : option (option ast * list token) :=
  match fuel with
  | O => None
  | S fuel' =>
      match parseTerm fuel' tokens with
      | Some (node, rest) => parseAndLoop fuel' node rest
      | None => None
      end
  end
with parseOrLoop (fuel : nat) (node : option ast) (tokens : list token)
  : option (option ast * list token) :=
  match fuel with
  | O => None
  | S fuel' =>
      match tokens with
      | OR :: rest =>
          match parseAnd fuel' rest with
          | Some (rhs, rest') => parseOrLoop fuel' (join AstOr node rhs) rest'
          | None => None
          end
      | _ => Some (node, tokens)
      end
  end
with parseOr (fuel : nat) (tokens : list token)
  : option (option ast * list token) :=
  match fuel with
  | O => None
  | S fuel' =>
      match parseAnd fuel' tokens with
      | Some (node, rest) => parseOrLoop fuel' node rest
      | None => None
      end
  end.

(** The node that a [TERM] or [INEQUALITY] token is. *)
Definition leaf (t : token) : option ast :=
  match t with
  | TERM c v => Some (AstTerm c v)
  | INEQUALITY c o v => Some (AstInequality c o v)
  | _ => None
  end.

(** A token list without parentheses that is empty or ends in a term or a
    comparison. *)
Definition isParenthesis (t : token) : bool :=
  match t with LPAREN | RPAREN => true | _ => false end.

Definition isOperand (t : token) : bool :=
  match t with TERM _ _ | INEQUALITY _ _ _ => true | _ => false end.

Fixpoint flat (tokens : list token) : bool :=
  match tokens with
  | [] => true
  | t :: rest =>
      negb (isParenthesis t)
      && match rest with
         | [] => isOperand t
         | _ :: _ => flat rest
         end
  end.

(** The text of a query of several words, one space between them. *)
Fixpoint joinWords (words : list string) : string :=
  match words with
  | [] => ""
  | w :: rest =>
      match rest with
      | [] => w
      | _ :: _ => w +:+ String " " (joinWords rest)
      end
  end.

(** The text of a query of several groups of words, [ OR ] between the
    groups. *)
Fixpoint joinGroups (groups : list (list string)) : string :=
  match groups with
  | [] => ""
  | g :: rest =>
      match rest with
      | [] => joinWords g
      | _ :: _ => joinWords g +:+ " OR " +:+ joinGroups rest
      end
  end.

(** A tree without column qualifiers. *)
Fixpoint unqualified (node : ast) : bool :=
  match node with
  | AstAnd l r | AstOr l r => unqualified l && unqualified r
  | AstTerm column _ | AstInequality column _ _ => negb (truthy column)
  end.

(** A token whose value is in lower case and whose column qualifier, when
    there is one, is not empty. *)
Definition normalized (t : token) : Prop :=
  match t with
  | TERM column value | INEQUALITY column _ value =>
      toLowerCase value = value /\ column <> Some ""
  | _ => True
  end.

(** Fuel that [parseOr] never exhausts on [tokens] (see [parseOr_total]). *)
Definition parseFuel (tokens : list token) : nat := 4 * length tokens + 4.

(** What the totality of the parser states of a result: it is there, and
    the cursor has not moved back (has moved on, for [parseTerm] on a
    token). *)
Definition parsed (toks : list token)
  (r : option (option ast * list token)) : Prop :=
  exists node rest, r = Some (node, rest) /\ (length rest <= length toks)%nat.

Definition parsedOne (toks : list token)
  (r : option (option ast * list token)) : Prop :=
  exists node rest, r = Some (node, rest)
    /\ (length rest <= length toks)%nat
    /\ (toks <> [] -> (length rest < length toks)%nat).

(** [return parseOr()] on the token list. *)
Definition parseTokens (tokens : list token) : option ast :=
  match parseOr (parseFuel tokens) tokens with
  | Some (node, _) => node
  | None => None
  end.

(** [parseSearchQuery(query)]; [None] is [null]. *)
Definition parseSearchQuery (query : string) : option ast :=
  if negb (nonEmpty query) || negb (nonEmpty (trim query)) then None
  else match tokenize query with
       | Some tokens => parseTokens tokens
       | None => None
       end.

(** *** Column configuration and the instance *)

(** One entry of [options.columns]; an absent property is [None]. *)
Record columnConfig : Set := {
  type : option string;
  format : option string;
  toString : option string;
  unit : option string;
  locale : option string
}.

(** [{}] *)
Definition noConfig : columnConfig :=
  {| type := None; format := None; toString := None; unit := None;
     locale := None |}.

(** A row of [this.data]: the array of its cells, and the property
    [_originalIndex] that [renderTable] sets on it. *)
Record Row : Set := {
  cells : list string;
  _originalIndex : option nat
}.

(** The fields of [this] that the engine reads and writes. *)
Record Table : Type := {
  headers : list string;
  columns : list columnConfig;
  data : list Row;
  sortColumn : option nat;
  sortAsc : bool;
  searchQuery : string;
  searchAST : option ast;
  visibleColumns : gset nat
}.

(** [this.columns[i] || {}] *)
Definition columnAt (this : Table) (i : nat) : columnConfig :=
  default noConfig (columns this !! i).

(** [colConfig.type || 'string'] *)
Definition typeOf (colConfig : columnConfig) : string :=
  match type colConfig with
  | Some t => if nonEmpty t then t else "string"
  | None => "string"
  end.

(** [String(row[i] || '')] *)
Definition cellAt (row : Row) (i : nat) : string :=
  default "" (cells row !! i).

(** [array.some((x, i) => f(x, i))] and [array.findIndex(p)] *)
Fixpoint someFrom {A} (f : A -> nat -> bool) (i : nat) (l : list A) : bool :=
  match l with
  | [] => false
  | x :: l' => f x i || someFrom f (S i) l'
  end.

Fixpoint findIndexFrom {A} (p : A -> bool) (i : nat) (l : list A) : option nat :=
  match l with
  | [] => None
  | x :: l' => if p x then Some i else findIndexFrom p (S i) l'
  end.

(** *** parseCsvLine and parseCsv *)

(** [value += char] *)
Definition addChar (value : string) (c : ascii) : string :=
  value +:+ String c "".

(** The [for] loop of [parseCsvLine] over [text.slice(i)], with its state
    [inQuote], [value] and [ret]; the [i++] on a doubled quote passes the
    second quote. *)
Fixpoint csvLoop (text : string) (inQuote : bool) (value : string)
  (ret : list string) : list string :=
  match text with
  | "" => app ret [value]
  | String c r =>
      if inQuote then
        if Ascii.eqb c quote then
          match r with
          | String d r' =>
              if Ascii.eqb d quote then csvLoop r' true (addChar value quote) ret
              else csvLoop r false value ret
          | "" => csvLoop r false value ret
          end
        else csvLoop r true (addChar value c) ret
      else if Ascii.eqb c quote then csvLoop r true value ret
      else if Ascii.eqb c "," then csvLoop r false "" (app ret [value])
      else csvLoop r false (addChar value c) ret
  end.

Definition parseCsvLine (text : string) : list string :=
  csvLoop text false "" [].

Definition newline : ascii := ascii_of_N 10.

Definition carriageReturn : ascii := ascii_of_N 13.

(** [text.replace(/\r/g, '')] *)
Fixpoint removeCarriageReturns (s : string) : string :=
  match s with
  | "" => ""
  | String c r =>
      if Ascii.eqb c carriageReturn then removeCarriageReturns r
      else String c (removeCarriageReturns r)
  end.

(** [s.split(sep)] for a separator of one character. *)
Fixpoint split (sep : ascii) (s : string) : list string :=
  match s with
  | "" => [""]
  | String c r =>
      if Ascii.eqb c sep then "" :: split sep r
      else match split sep r with
           | x :: l => String c x :: l
           | [] => [String c ""]
           end
  end.

(** A row as [parseCsv] makes it: an array without [_originalIndex]. *)
Definition newRow (fields : list string) : Row :=
  {| cells := fields; _originalIndex := None |}.

(** [parseCsv(text)]: sets [this.headers] and [this.data]. *)
Definition parseCsv (this : Table) (text : string) : Table :=
  match split newline (trim (removeCarriageReturns text)) with
  | [] => this
  | first :: rest =>
      {| headers := parseCsvLine first;
         columns := columns this;
         data := map (fun line => newRow (parseCsvLine line)) rest;
         sortColumn := sortColumn this;
         sortAsc := sortAsc this;
         searchQuery := searchQuery this;
         searchAST := searchAST this;
         visibleColumns := visibleColumns this |}
  end.

(** [fields.join(',')] *)
Fixpoint joinFields (fields : list string) : string :=
  match fields with
  | [] => ""
  | [x] => x
  | x :: l => x +:+ String "," (joinFields l)
  end.

(** A field between quotes, its own quotes doubled. *)
Fixpoint doubleQuotes (field : string) : string :=
  match field with
  | "" => ""
  | String c r =>
      if Ascii.eqb c quote then String quote (String quote (doubleQuotes r))
      else String c (doubleQuotes r)
  end.

Definition quoteField (field : string) : string :=
  String quote (doubleQuotes field +:+ String quote "").

(** The number of characters of [s] that are [c]. *)
Fixpoint countChar (c : ascii) (s : string) : nat :=
  match s with
  | "" => O
  | String d r => (if Ascii.eqb d c then 1 else 0) + countChar c r
  end.

(** *** The options of the constructor *)

(** [options], with the defaults of the constructor filled in: [columns]
    is [options.columns || []], [initialSearch] is
    [options.initialSearch || ''] and [hiddenColumns] is
    [options.hiddenColumns || []], whose elements are column indexes and
    header texts (an element that is neither is equal to no index and to no
    header, and is left out).  The constructor copies them to the instance,
    where nothing writes them again. *)
Module Options.

Record t : Type := {
  csvUrl : option string;
  csvData : option string;
  columns : list columnConfig;
  initialSearch : string;
  hiddenColumns : list (nat + string)
}.

End Options.

(** [hiddenColumns.includes(i)] for an index and [hiddenColumns.includes(h)]
    for a header text. *)
Definition includesIndex (hiddenColumns : list (nat + string)) (i : nat)
  : bool :=
  existsb (fun x => match x with inl j => Nat.eqb j i | inr _ => false end)
    hiddenColumns.

Definition includesName (hiddenColumns : list (nat + string)) (h : string)
  : bool :=
  existsb (fun x => match x with inr n => String.eqb n h | inl _ => false end)
    hiddenColumns.

(** The loop [this.headers.forEach((h, i) => ...)] of [init], from the
    index [i] on. *)
Fixpoint showColumns (hiddenColumns : list (nat + string)) (i : nat)
  (headers : list string) (visibleColumns : gset nat) : gset nat :=
  match headers with
  | [] => visibleColumns
  | h :: rest =>
      let isHidden := includesIndex hiddenColumns i
                      || includesName hiddenColumns h in
      showColumns hiddenColumns (S i) rest
        (if isHidden then visibleColumns else {[ i ]} ∪ visibleColumns)
  end.

(** The instance as the constructor leaves it before it calls [init]. *)
Definition construct (options : Options.t) : Table :=
  {| headers := [];
     columns := Options.columns options;
     data := [];
     sortColumn := None;
     sortAsc := true;
     searchQuery := "";
     searchAST := None;
     visibleColumns := ∅ |}.

(** *** Building patterns *)

(** The class [[.*+?^${}()|[\]\\]] *)
Definition isMetaChar (c : ascii) : bool :=
  existsb (Ascii.eqb c)
    (list_ascii_of_string ".*+?^${}()|[]\").

(** [s.replace(/[.*+?^${}()|[\]\\]/g, '\\$&')] *)
Fixpoint escapeRegExp (s : string) : string :=
  match s with
  | "" => ""
  | String c r =>
      if isMetaChar c then String "\" (String c (escapeRegExp r))
      else String c (escapeRegExp r)
  end.

(** The chain of [.replace(token, group)] calls of [parseDateString], in its
    order. *)
Definition dateGroups : list (string * string) :=
  [ ("YYYY", "(?<YYYY>\d{4})");
    ("YY", "(?<YY>\d{2})");
    ("Mmm", "(?<Mmm>[^\d\s\/\-.,]+)");
    ("MM", "(?<MM>\d{2})");
    ("M", "(?<M>\d{1,2})");
    ("DD", "(?<DD>\d{2})");
    ("D", "(?<D>\d{1,2})");
    ("HH", "(?<HH>\d{2})");
    ("H", "(?<H>\d{1,2})");
    ("mm", "(?<mm>\d{2})");
    ("m", "(?<m>\d{1,2})");
    ("ss", "(?<ss>\d{2})");
    ("s", "(?<s>\d{1,2})");
    ("Www", "(?<Www>[^\d\s\/\-.,]+)");
    ("Z", "(?<Z>Z|[+-]\d{2}:?\d{2}|[+-]\d{4})") ].

(** [patternStr] *)
Definition datePattern (format : string) : string :=
  fold_left (fun acc p => replace (fst p) (snd p) acc) dateGroups
    (escapeRegExp format).

(** [g.NAME] when it is truthy. *)
Definition group (g : RegExp.captures) (name : string) : option string :=
  match RegExp.lookup name g with
  | Some v => if nonEmpty v then Some v else None
  | None => None
  end.

Definition months : list string :=
  ["jan"; "feb"; "mar"; "apr"; "may"; "jun";
   "jul"; "aug"; "sep"; "oct"; "nov"; "dec"].

(** [String(n)] of a number that may be [NaN]. *)
Definition numberToString (n : option Z) : string :=
  match n with
  | Some z => JsString.ofZ z
  | None => "NaN"
  end.

(** [n => String(n).padStart(2, '0')] *)
Definition pad (n : option Z) : string := padStart 2 "0" (numberToString n).

Definition plus (n : option Z) (k : Z) : option Z := (fun z => (z + k)%Z) <$> n.

(** The patterns that [escapeRegExp] and a closing [$] span: escaped
    metacharacters and characters that are not metacharacters. *)
Inductive plainPattern : string -> Prop :=
| plain_empty : plainPattern ""
| plain_lineEnd : plainPattern "$"
| plain_escaped c r :
    isMetaChar c = true -> plainPattern r ->
    plainPattern (String "\" (String c r))
| plain_char c r :
    isMetaChar c = false -> plainPattern r -> plainPattern (String c r).

Section WithHost.
Context (host : Host).

(** *** parseDateString *)

(** The body of [if (match && match.groups)]: the fields from the groups,
    then the timestamp. *)
Definition dateFromGroups (g : RegExp.captures) : option Z :=
  let year :=
    match group g "YYYY" with
    | Some v => parseInt v
    | None =>
        match group g "YY" with
        | Some v => (fun y => if (70 <=? y)%Z then 1900 + y else 2000 + y)%Z
                    <$> parseInt v
        | None => Some 1970%Z
        end
    end in
  let month :=
    match group g "MM" with
    | Some v => plus (parseInt v) (-1)
    | None =>
        match group g "M" with
        | Some v => plus (parseInt v) (-1)
        | None =>
            match group g "Mmm" with
            | Some v =>
                let mName := toLowerCase v in
                match findIndexFrom (fun m => startsWith m mName) 0 months with
                | Some mIdx => Some (Z.of_nat mIdx)
                | None => Some 0%Z
                end
            | None => Some 0%Z
            end
        end
    end in
  let field (long short : string) (initial : Z) :=
    match group g long with
    | Some v => parseInt v
    | None =>
        match group g short with
        | Some v => parseInt v
        | None => Some initial
        end
    end in
  let day := field "DD" "D" 1%Z in
  let hours := field "HH" "H" 0%Z in
  let minutes := field "mm" "m" 0%Z in
  let seconds := field "ss" "s" 0%Z in
  let local := JsDate.fromFields host year month day hours minutes seconds in
  match group g "Z" with
  | Some z =>
      let yyyy := padStart 4 "0" (numberToString year) in
      let z := if (z =? "Z") || (z =? "z") then "Z"
               else if (String.length z =? 5)%nat
                    then take 3 z +:+ ":" +:+ drop 3 z
                    else z in
      let iso := yyyy +:+ "-" +:+ pad (plus month 1) +:+ "-" +:+ pad day
                 +:+ "T" +:+ pad hours +:+ ":" +:+ pad minutes
                 +:+ ":" +:+ pad seconds +:+ z in
      match JsDate.parse host iso with
      | Some timestamp => Some timestamp
      | None => local
      end
  | None => local
  end.

(** [parseDateString(dateStr, format)]; [None] is [NaN].  An exception of
    the [try] block ([new RegExp] throwing) leads to the fallback after
    it, as does a failed match. *)
Definition parseDateString (dateStr : string) (format : option string)
  : option Z :=
  if negb (nonEmpty dateStr) || (trim dateStr =? "-") || (trim dateStr =? "")
  then None
  else if negb (truthy format) then JsDate.parse host dateStr
  else
    let patternStr := datePattern (default "" format) in
    match RegExp.new ("^" +:+ patternStr +:+ "$") false with
    | Some regex =>
        match RegExp.exec regex (trim dateStr) with
        | Some g =>
            if RegExp.hasGroups regex then dateFromGroups g
            else JsDate.parse host dateStr
        | None => JsDate.parse host dateStr
        end
    | None => JsDate.parse host dateStr
    end.

(** *** formatDate *)

(** [map[token]] for the date [d = new Date(timestamp)]. *)
Definition dateToken (timestamp : Z) (locale : option string)
  (token : string) : string :=
  let two (n : Z) := padStart 2 "0" (JsString.ofZ n) in
  if token =? "YYYY" then JsString.ofZ (JsDate.getFullYear host timestamp)
  else if token =? "YY" then
    let y := JsString.ofZ (JsDate.getFullYear host timestamp) in
    drop (String.length y - 2) y
  else if token =? "MM" then two (JsDate.getMonth host timestamp + 1)%Z
  else if token =? "M" then JsString.ofZ (JsDate.getMonth host timestamp + 1)%Z
  else if token =? "DD" then two (JsDate.getDate host timestamp)
  else if token =? "D" then JsString.ofZ (JsDate.getDate host timestamp)
  else if token =? "HH" then two (JsDate.getHours host timestamp)
  else if token =? "H" then JsString.ofZ (JsDate.getHours host timestamp)
  else if token =? "mm" then two (JsDate.getMinutes host timestamp)
  else if token =? "m" then JsString.ofZ (JsDate.getMinutes host timestamp)
  else if token =? "ss" then two (JsDate.getSeconds host timestamp)
  else if token =? "s" then JsString.ofZ (JsDate.getSeconds host timestamp)
  else if token =? "Www" then shortWeekday host locale timestamp
  else if token =? "Mmm" then shortMonth host locale timestamp
  else
    let offset := (- JsDate.getTimezoneOffset host timestamp)%Z in
    (if (0 <=? offset)%Z then "+" else "-")
    +:+ two (Z.abs offset / 60)%Z +:+ ":" +:+ two (Z.abs offset mod 60)%Z.

(** The alternatives of [/YYYY|YY|Mmm|MM|M|DD|D|HH|H|mm|m|ss|s|Www|Z/g], in
    their order. *)
Definition dateTokens : list string :=
  ["YYYY"; "YY"; "Mmm"; "MM"; "M"; "DD"; "D"; "HH"; "H"; "mm"; "m"; "ss";
   "s"; "Www"; "Z"].

(** [outputFormatStr.replace(/.../g, match => map[match])]: at every index
    the first alternative that matches is replaced and the scan goes on
    after it; [skip] counts the characters of a match still to pass. *)
Fixpoint replaceTokens (render : string -> string) (skip : nat) (s : string)
  : string :=
  match s with
  | "" => ""
  | String c r =>
      match skip with
      | S skip' => replaceTokens render skip' r
      | O =>
          match find (fun token => String.prefix token s) dateTokens with
          | Some token =>
              render token +:+ replaceTokens render (String.length token - 1) r
          | None => String c (replaceTokens render 0 r)
          end
      end
  end.

(** [formatDate] from [const d = new Date(timestamp)] on. *)
Definition formatTimestamp (timestamp : Z) (outputFormatStr : string)
  (locale : option string) : string :=
  replaceTokens (dateToken timestamp locale) 0 outputFormatStr.

(** [formatDate(valueStr, inputFormatStr, outputFormatStr, locale)] *)
Definition formatDate (valueStr : string)
  (inputFormatStr outputFormatStr locale : option string) : string :=
  if negb (nonEmpty valueStr) then ""
  else
    match parseDateString valueStr inputFormatStr with
    | None => valueStr
    | Some timestamp =>
        match outputFormatStr with
        | None => valueStr
        | Some f => formatTimestamp timestamp f locale
        end
    end.

(** *** evaluateSearchAST *)

(** [this.headers.findIndex(h => h.toLowerCase() === column.toLowerCase())]
    under [if (ast.column)]; [None] is [-1]. *)
Definition targetColIndex (this : Table) (column : option string)
  : option nat :=
  if truthy column then
    findIndexFrom
      (fun h => toLowerCase h =? toLowerCase (default "" column))
      0 (headers this)
  else None.

(** [finalRegexStr] of a [TERM]: the anchors taken off the value, what is
    left escaped, the anchors put back. *)
Definition termPattern (value : string) : string :=
  let isStartsWith := startsWith "^" value in
  let searchVal := if isStartsWith then drop 1 value else value in
  let isEndsWith := endsWith "$" searchVal in
  let searchVal := if isEndsWith
                   then take (String.length searchVal - 1) searchVal
                   else searchVal in
  let escapedVal := escapeRegExp searchVal in
  (if isStartsWith then "^" else "") +:+ escapedVal
  +:+ (if isEndsWith then "$" else "").

(** The pattern of a [TERM] as a tree: [^] when the value starts with it,
    the characters of the value between the anchors, [$] when the value
    ends with it. *)
Definition termRegex (value : string) : RegExp.regex :=
  let isStartsWith := startsWith "^" value in
  let searchVal := if isStartsWith then drop 1 value else value in
  let isEndsWith := endsWith "$" searchVal in
  let searchVal := if isEndsWith
                   then take (String.length searchVal - 1) searchVal
                   else searchVal in
  let body :=
    RegExp.literal
      (if isStartsWith then RegExp.Seq RegExp.Empty RegExp.LineStart
       else RegExp.Empty)
      searchVal in
  if isEndsWith then RegExp.Seq body RegExp.LineEnd else body.

(** What a [TERM] asks of a text, said without a pattern: the value
    between its anchors is the text, starts it, ends it or is part of it,
    with case ignored. *)
Definition termMatches (value text : string) : bool :=
  let isStartsWith := startsWith "^" value in
  let searchVal := if isStartsWith then drop 1 value else value in
  let isEndsWith := endsWith "$" searchVal in
  let searchVal := if isEndsWith
                   then take (String.length searchVal - 1) searchVal
                   else searchVal in
  match isStartsWith, isEndsWith with
  | true, true => equalIgnoreCase searchVal text
  | true, false => startsWithIgnoreCase searchVal text
  | false, true => endsWithIgnoreCase searchVal text
  | false, false => includesIgnoreCase searchVal text
  end.

(** The text of a cell that a [TERM] is tested against: the displayed
    date when the column is a date with an output format, in lower case. *)
Definition searchText (this : Table) (i : nat) (cell : string) : string :=
  let colConfig := columnAt this i in
  toLowerCase
    (if (default "" (type colConfig) =? "date")
        && bool_decide (is_Some (toString colConfig))
     then formatDate cell (format colConfig) (toString colConfig)
            (locale colConfig)
     else cell).

Definition evaluateTerm (this : Table) (column : option string)
  (value : string) (row : Row) : bool :=
  match RegExp.new (termPattern value) true with
  | Some regex =>
      match targetColIndex this column with
      | Some i => RegExp.test regex (searchText this i (cellAt row i))
      | None =>
          someFrom
            (fun cell i =>
               bool_decide (i ∈ visibleColumns this)
               && RegExp.test regex (searchText this i cell))
            0 (cells row)
      end
  | None => false (* never: [termPattern_valid] *)
  end.

(** [searchValDate] *)
Definition searchValDate (value : string) : option Z :=
  if (String.length value =? 4)%nat
     && forallb isDigit (list_ascii_of_string value)
  then JsDate.fromFields host (parseInt value) (Some 0%Z) (Some 1%Z)
         (Some 0%Z) (Some 0%Z) (Some 0%Z)
  else JsDate.parse host value.

Definition applyOperator (op : operator) (cVal sVal : JsNumber.number)
  : bool :=
  match op with
  | OpGe => JsNumber.ge cVal sVal
  | OpLe => JsNumber.le cVal sVal
  | OpGt => JsNumber.gt cVal sVal
  | OpLt => JsNumber.lt cVal sVal
  end.

Definition ofTimestamp (t : option Z) : JsNumber.number :=
  match t with
  | Some z => JsNumber.ofZ z
  | None => JsNumber.NaN
  end.

(** The closure [evaluateCell] of an [INEQUALITY] with operator [op] and
    value [value]. *)
Definition evaluateCell (this : Table) (op : operator) (value : string)
  (cellValStr : string) (colIndex : nat) : bool :=
  let searchValNum := JsNumber.parseFloat value in
  let searchValDate := searchValDate value in
  let colConfig := columnAt this colIndex in
  if typeOf colConfig =? "date" then
    match parseDateString cellValStr (format colConfig), searchValDate with
    | Some cellDate, Some sDate =>
        applyOperator op (JsNumber.ofZ cellDate) (JsNumber.ofZ sDate)
    | _, _ => false
    end
  else
    let cellNum := JsNumber.parseFloat (JsNumber.stripNonNumeric cellValStr) in
    let cellDate := JsDate.parse host cellValStr in
    if negb (JsNumber.isNaN cellNum) && negb (JsNumber.isNaN searchValNum)
    then applyOperator op cellNum searchValNum
    else
      match cellDate, searchValDate with
      | Some cDate, Some sDate =>
          applyOperator op (JsNumber.ofZ cDate) (JsNumber.ofZ sDate)
      | _, _ => false
      end.

Definition evaluateInequality (this : Table) (column : option string)
  (op : operator) (value : string) (row : Row) : bool :=
  match targetColIndex this column with
  | Some i => evaluateCell this op value (cellAt row i) i
  | None =>
      someFrom
        (fun cell i =>
           bool_decide (i ∈ visibleColumns this)
           && evaluateCell this op value cell i)
        0 (cells row)
  end.

(** [evaluateSearchAST(ast, row)] of a node; [||] and [&&] are the lazy
    [orb] and [andb]. *)
Fixpoint evaluateNode (this : Table) (node : ast) (row : Row) : bool :=
  match node with
  | AstOr l r => evaluateNode this l row || evaluateNode this r row
  | AstAnd l r => evaluateNode this l row && evaluateNode this r row
  | AstInequality column op value => evaluateInequality this column op value row
  | AstTerm column value => evaluateTerm this column value row
  end.

(** [evaluateSearchAST(ast, row)], [ast] possibly [null]. *)
Definition evaluateSearchAST (this : Table) (ast : option ast) (row : Row)
  : bool :=
  match ast with
  | None => true
  | Some node => evaluateNode this node row
  end.

(** *** renderTable: filtering and sorting *)

(** The function given to [filteredData.sort] for the sort column
    [column]. *)
Definition compareRows (this : Table) (column : nat) (a b : Row)
  : JsNumber.number :=
  let colConfig := columnAt this column in
  let valA := cellAt a column in
  let valB := cellAt b column in
  let direction (comp : JsNumber.number) :=
    if sortAsc this then comp else JsNumber.neg comp in
  if typeOf colConfig =? "number" then
    let numA := JsNumber.parseFloat (JsNumber.stripNonNumeric valA) in
    let numB := JsNumber.parseFloat (JsNumber.stripNonNumeric valB) in
    let numA := if JsNumber.isNaN numA then JsNumber.NegInfinity else numA in
    let numB := if JsNumber.isNaN numB then JsNumber.NegInfinity else numB in
    direction (JsNumber.sub numA numB)
  else if typeOf colConfig =? "date" then
    match parseDateString valA (format colConfig),
          parseDateString valB (format colConfig) with
    | None, None => direction (JsNumber.ofZ 0)
    | None, Some _ => JsNumber.ofZ 1
    | Some _, None => JsNumber.ofZ (-1)
    | Some tA, Some tB => direction (JsNumber.ofZ (tA - tB))
    end
  else direction (JsNumber.ofZ (localeCompare host valA valB)).

(** [Array.prototype.sort(comparefn)]: a comparison that is [NaN] counts as
    zero, and the sort is stable, which fixes the result for a consistent
    [comparefn]; here by insertion, each element going after the elements
    that are not greater. *)
Definition sortCompare {A} (comparefn : A -> A -> JsNumber.number) (x y : A)
  : JsNumber.number :=
  let v := comparefn x y in
  if JsNumber.isNaN v then JsNumber.ofZ 0 else v.

Fixpoint insertSorted {A} (comparefn : A -> A -> JsNumber.number) (x : A)
  (l : list A) : list A :=
  match l with
  | [] => [x]
  | y :: l' =>
      if JsNumber.isPositive (sortCompare comparefn y x) then x :: l
      else y :: insertSorted comparefn x l'
  end.

Definition sort {A} (comparefn : A -> A -> JsNumber.number) (l : list A)
  : list A :=
  fold_left (fun acc x => insertSorted comparefn x acc) l [].

(** [x] goes after [y] in the sorted array: [comparefn(x, y)] is
    positive. *)
Definition comesAfter {A} (comparefn : A -> A -> JsNumber.number) (x y : A)
  : bool :=
  JsNumber.isPositive (sortCompare comparefn x y).

(** [x] may stand before [y]: it does not go after it, and when neither
    goes after the other, [x] has the smaller index. *)
Definition inOrder {A} (comparefn : A -> A -> JsNumber.number)
  (index : A -> nat) (x y : A) : Prop :=
  comesAfter comparefn x y = false
  /\ (comesAfter comparefn y x = false -> (index x < index y)%nat).

(** [row._originalIndex = originalIndex] *)
Definition setOriginalIndex (originalIndex : nat) (row : Row) : Row :=
  {| cells := cells row; _originalIndex := Some originalIndex |}.

(** The callback of [this.data.filter], after the assignment. *)
Definition keepRow (this : Table) (row : Row) : bool :=
  if negb (nonEmpty (searchQuery this))
     || negb (nonEmpty (trim (searchQuery this)))
     || negb (bool_decide (is_Some (searchAST this)))
  then true
  else evaluateSearchAST this (searchAST this) row.

(** The part of [renderTable] that computes the rows to show:
    [this.data] after the pass, whose row objects [filteredData] shares,
    and [filteredData] filtered and sorted. *)
Definition filterAndSort (this : Table) : list Row * list Row :=
  let data' := imap setOriginalIndex (data this) in
  let filteredData := List.filter (keepRow this) data' in
  (data',
   match sortColumn this with
   | Some column => sort (compareRows this column) filteredData
   | None => filteredData
   end).

(** *** init and the event handlers

    What they do to the instance.  [renderTable] writes the index of every
    row of [this.data]; the rows it shows are [snd (filterAndSort this)]. *)

Definition renderTable (this : Table) : Table :=
  {| headers := headers this;
     columns := columns this;
     data := fst (filterAndSort this);
     sortColumn := sortColumn this;
     sortAsc := sortAsc this;
     searchQuery := searchQuery this;
     searchAST := searchAST this;
     visibleColumns := visibleColumns this |}.

(** [this.searchQuery = query; this.searchAST = ast;] *)
Definition setSearch (this : Table) (query : string) (ast : option ast)
  : Table :=
  {| headers := headers this;
     columns := columns this;
     data := data this;
     sortColumn := sortColumn this;
     sortAsc := sortAsc this;
     searchQuery := query;
     searchAST := ast;
     visibleColumns := visibleColumns this |}.

Definition setVisibleColumns (this : Table) (visible : gset nat) : Table :=
  {| headers := headers this;
     columns := columns this;
     data := data this;
     sortColumn := sortColumn this;
     sortAsc := sortAsc this;
     searchQuery := searchQuery this;
     searchAST := searchAST this;
     visibleColumns := visible |}.

Definition setSort (this : Table) (column : option nat) (asc : bool) : Table :=
  {| headers := headers this;
     columns := columns this;
     data := data this;
     sortColumn := column;
     sortAsc := asc;
     searchQuery := searchQuery this;
     searchAST := searchAST this;
     visibleColumns := visibleColumns this |}.

(** [init()] on the instance [this]: [load] is its first statement, [None]
    when it makes [init] return.  [fetch url] is the text of the response,
    [None] when the request fails or the response is not ok; [container]
    tells whether the document has the container element: without it
    [renderShell] returns before it creates [this.tableWrapper], and
    [renderTable] returns at once. *)
Definition load (fetch : string -> option string) (options : Options.t)
  (this : Table) : option Table :=
  if truthy (Options.csvUrl options) then
    match fetch (default "" (Options.csvUrl options)) with
    | Some text => Some (parseCsv this text)
    | None => None
    end
  else if truthy (Options.csvData options) then
    Some (parseCsv this (default "" (Options.csvData options)))
  else Some this.

Definition init (fetch : string -> option string) (container : bool)
  (options : Options.t) (this : Table) : Table :=
  match load fetch options this with
  | None => this
  | Some this =>
      let this := setSearch this (Options.initialSearch options)
                    (parseSearchQuery (Options.initialSearch options)) in
      let this := setVisibleColumns this
                    (showColumns (Options.hiddenColumns options) 0
                       (headers this) (visibleColumns this)) in
      if container then renderTable this else this
  end.

(** [new Csv2Table(options)] *)
Definition create (fetch : string -> option string) (container : bool)
  (options : Options.t) : Table :=
  init fetch container options (construct options).

(** The events that the instance listens to: [input] on the search box with
    the text of the box, [change] on the check box of column [i] with its
    state, [click] on the header cell of column [i]. *)
Inductive event : Type :=
| InputSearch (value : string)
| ChangeColumn (i : nat) (checked : bool)
| ClickHeader (i : nat).

(** The elements that carry a listener: the search box; a check box for
    every header ([renderShell]); the header cell of every visible column
    whose type is not [image] (the last [renderTable]). *)
Definition hasListener (this : Table) (e : event) : bool :=
  match e with
  | InputSearch _ => true
  | ChangeColumn i _ => (i <? length (headers this))%nat
  | ClickHeader i =>
      (i <? length (headers this))%nat
      && bool_decide (i ∈ visibleColumns this)
      && negb (typeOf (columnAt this i) =? "image")
  end.

(** The three listeners. *)
Definition handle (this : Table) (e : event) : Table :=
  match e with
  | InputSearch value =>
      renderTable (setSearch this value (parseSearchQuery value))
  | ChangeColumn i checked =>
      renderTable
        (setVisibleColumns this
           (if checked then {[ i ]} ∪ visibleColumns this
            else visibleColumns this ∖ {[ i ]}))
  | ClickHeader i =>
      renderTable
        (if bool_decide (sortColumn this = Some i)
         then setSort this (sortColumn this) (negb (sortAsc this))
         else setSort this (Some i) true)
  end.

Definition dispatch (this : Table) (e : event) : Table :=
  if hasListener this e then handle this e else this.

(** What holds of the instance between two events: the tree is the parse of
    the query text, the visible columns are columns of the header row, and
    the sort column is one of them whose type is not [image]. *)
Definition consistent (this : Table) : Prop :=
  searchAST this = parseSearchQuery (searchQuery this)
  /\ (forall i, i ∈ visibleColumns this -> (i < length (headers this))%nat)
  /\ (forall i, sortColumn this = Some i ->
                (i < length (headers this))%nat
                /\ typeOf (columnAt this i) <> "image").

(** The listeners are attached by [renderShell], which [init] reaches when
    the text has been loaded, and which goes on when the document has the
    container. *)
Definition responds (fetch : string -> option string) (options : Options.t)
  : bool :=
  if truthy (Options.csvUrl options)
  then bool_decide (is_Some (fetch (default "" (Options.csvUrl options))))
  else true.

(** The instance after [new Csv2Table(options)] and the events [events],
    in this order. *)
Definition run (fetch : string -> option string) (container : bool)
  (options : Options.t) (events : list event) : Table :=
  let this := create fetch container options in
  if container && responds fetch options then fold_left dispatch events this
  else this.

End WithHost.

End Csv2Table.

(** ** Sample hosts and tables

    Concrete instances on which the statements below are run. *)

Module Sample.
Import JsString JsDate Csv2Table.
Local Open Scope Z_scope.

Definition isSign (c : ascii) : bool := Ascii.eqb c "+" || Ascii.eqb c "-".

(** Two legacy forms as V8 reads them, in the UTC time zone: [YYYY/MM/DD] is
    that local date, and a lone number from 1 to 12, after any signs, is the
    first day of that month of 2001. *)
Definition legacyParse (s : string) : option Z :=
  match ('(y, r) ← digits 4 s; r ← expect "/" r;
         '(m, r) ← digits 2 r; r ← expect "/" r;
         '(d, r) ← digits 2 r;
         if (r =? "")%string && (1 <=? m) && (m <=? 12)
            && (1 <=? d) && (d <=? daysInMonth y m)
         then Some (MakeDate (MakeDay y (m - 1) d) 0) else None) with
  | Some t => Some t
  | None =>
      let '(ds, r) := span isDigit (snd (span isSign s)) in
      let n := digitsValue 0 ds in
      if nonEmpty ds && (r =? "")%string && (1 <=? n) && (n <=? 12)
      then Some (MakeDate (MakeDay 2001 (n - 1) 1) 0) else None
  end.

Definition weekdays : list string :=
  ["Sun"; "Mon"; "Tue"; "Wed"; "Thu"; "Fri"; "Sat"].

Definition monthNames : list string :=
  ["Jan"; "Feb"; "Mar"; "Apr"; "May"; "Jun";
   "Jul"; "Aug"; "Sep"; "Oct"; "Nov"; "Dec"].

(** Code-unit order, as a stand-in for the locale's collation. *)
Fixpoint compareStrings (a b : string) : Z :=
  match a, b with
  | "", "" => 0
  | "", _ => -1
  | _, "" => 1
  | String x a', String y b' =>
      if (code x <? code y)%N then -1
      else if (code y <? code x)%N then 1
      else compareStrings a' b'
  end%string.

(** A host in the UTC time zone with English names. *)
Definition host : Host :=
  {| LocalTime := fun t => t;
     UTC := fun t => t;
     legacyDateParse := legacyParse;
     shortWeekday := fun _ t =>
       default ""%string (weekdays !! Z.to_nat ((Day t + 4) mod 7));
     shortMonth := fun _ t =>
       default ""%string (monthNames !! Z.to_nat (MonthFromTime t));
     localeCompare := compareStrings |}.

Definition row (cell : string) : Row :=
  {| cells := [cell]; _originalIndex := None |}.

(** A table of one column of the given type, with no query. *)
Definition table (columnType : string) (rows : list Row)
  (sortColumn : option nat) (sortAsc : bool) : Table :=
  {| headers := ["value"%string];
     columns := [ {| type := Some columnType; format := None;
                     toString := None; unit := None; locale := None |} ];
     data := rows;
     sortColumn := sortColumn;
     sortAsc := sortAsc;
     searchQuery := ""%string;
     searchAST := None;
     visibleColumns := {[ 0%nat ]} |}.

(** A table of the columns [name] and [age], the second typed [number], with
    both columns visible. *)
Definition people (rows : list Row) : Table :=
  {| headers := ["name"; "age"]%string;
     columns := [ noConfig;
                  {| type := Some "number"%string; format := None;
                     toString := None; unit := None; locale := None |} ];
     data := rows;
     sortColumn := None;
     sortAsc := true;
     searchQuery := ""%string;
     searchAST := None;
     visibleColumns := {[ 0%nat; 1%nat ]} |}.

(** A table of two columns with the given header row and query text, the
    cached tree being the parse of the text, both columns visible, no column
    configuration and no sort column. *)
Definition queried (headers : list string) (query : string)
  (rows : list Row) : Table :=
  {| headers := headers;
     columns := [];
     data := rows;
     sortColumn := None;
     sortAsc := true;
     searchQuery := query;
     searchAST := parseSearchQuery query;
     visibleColumns := {[ 0%nat; 1%nat ]} |}.

Definition person (name age : string) : Row :=
  {| cells := [name; age]; _originalIndex := None |}.

(** Options that give the text itself, with no column configuration and no
    initial query, and a [fetch] that always fails. *)
Definition options (csvData : string) (hiddenColumns : list (nat + string))
  : Options.t :=
  {| Options.csvUrl := None;
     Options.csvData := Some csvData;
     Options.columns := [];
     Options.initialSearch := ""%string;
     Options.hiddenColumns := hiddenColumns |}.

Definition offline (url : string) : option string := None.

(** The text of two lines [name,age] and [Ann,31]. *)
Definition twoLines : string :=
  ("name,age" +:+ String newline "Ann,31")%string.

(** [new RegExp(pattern, flags).exec(s)]; the outer [None] is the
    exception. *)
Definition execPattern (pattern : string) (ignoreCase : bool) (s : string)
  : option (option RegExp.captures) :=
  match RegExp.new pattern ignoreCase with
  | Some re => Some (RegExp.exec re s)
  | None => None
  end.

End Sample.

(** * Properties *)

(** ** Strings *)

Section JsStringFacts.
Import JsString.

Lemma span_length p s :
  (String.length (fst (span p s)) + String.length (snd (span p s))
   = String.length s)%nat.
Proof.
  induction s as [|c r IH]; simpl; [reflexivity|].
  destruct (p c); simpl; [|reflexivity].
  destruct (span p r) as [a b]; simpl in *. lia.
Qed.

Lemma drop_length n s : (String.length (drop n s) <= String.length s)%nat.
Proof.
  revert s; induction n as [|n IH]; intros [|c r]; simpl; try lia.
  specialize (IH r). lia.
Qed.

Lemma toLowerCase_empty s : toLowerCase s = "" -> s = "".
Proof. destruct s; simpl; [reflexivity | discriminate]. Qed.

Lemma trimStart_allWhiteSpace s : allWhiteSpace s = true -> trimStart s = "".
Proof.
  induction s as [|c r IH]; simpl; [reflexivity|].
  destruct (isWhiteSpace c); simpl; [exact IH | discriminate].
Qed.

Lemma trim_allWhiteSpace s : allWhiteSpace s = true -> trim s = "".
Proof. intros H. unfold trim. rewrite trimStart_allWhiteSpace; auto. Qed.

End JsStringFacts.

(** ** Checks on concrete inputs *)

Example JsString_examples :
  JsString.trim "  a b  " = "a b"
  /\ JsString.replace "YY" "<yy>" "YYYY/YY" = "<yy>YY/YY"
  /\ JsString.ofZ 2023 = "2023" /\ JsString.ofZ 0 = "0" /\ JsString.ofZ (-7) = "-7"
  /\ JsString.padStart 2 "0" "5" = "05" /\ JsString.padStart 2 "0" "123" = "123"
  /\ JsString.parseInt "05" = Some 5%Z /\ JsString.parseInt "x" = None
  /\ JsString.endsWith "$" "ab$" = true /\ JsString.endsWith "$" "" = false
  /\ JsString.toLowerCase "AbC" = "abc".
Proof. vm_compute. repeat split; reflexivity. Qed.

Example parseSearchQuery_examples :
  Csv2Table.tokenize
    ("name:^Al age:>=30 (a OR "
     +:+ String Csv2Table.quote ("b c" +:+ String Csv2Table.quote ")"))
  = Some [Csv2Table.TERM (Some "name") "^al";
          Csv2Table.INEQUALITY (Some "age") Csv2Table.OpGe "30";
          Csv2Table.LPAREN; Csv2Table.TERM None "a"; Csv2Table.OR;
          Csv2Table.TERM None "b c"; Csv2Table.RPAREN]
  /\ Csv2Table.tokenize "android ORB and:x" =
     Some [Csv2Table.TERM None "android"; Csv2Table.TERM None "orb";
           Csv2Table.AND; Csv2Table.TERM None ":x"]
  /\ Csv2Table.parseSearchQuery "a and (b or c) )d" =
     Some (Csv2Table.AstAnd (Csv2Table.AstTerm None "a")
             (Csv2Table.AstOr (Csv2Table.AstTerm None "b") (Csv2Table.AstTerm None "c")))
  /\ Csv2Table.parseSearchQuery "( ) OR" = None.
Proof. vm_compute. repeat split; reflexivity. Qed.

Example parseFloat_examples :
  JsNumber.parseFloat (JsNumber.stripNonNumeric "$1,234.50") = JsNumber.Finite (123450 * (1 # 100))
  /\ JsNumber.parseFloat (JsNumber.stripNonNumeric "n/a") = JsNumber.NaN
  /\ JsNumber.parseFloat "--1" = JsNumber.NaN
  /\ JsNumber.parseFloat "." = JsNumber.NaN
  /\ JsNumber.parseFloat ".-5" = JsNumber.NaN
  /\ JsNumber.parseFloat "30" = JsNumber.Finite (30 * 1)
  /\ JsNumber.ge (JsNumber.parseFloat "35") (JsNumber.parseFloat "30") = true
  /\ JsNumber.sub JsNumber.NegInfinity JsNumber.NegInfinity = JsNumber.NaN.
Proof. vm_compute. repeat split; reflexivity. Qed.

Example parsePattern_examples :
  RegExp.parsePattern "^(?<YY>\d{2})/(?<M>\d{1,2})$"
  = RegExp.Ok (RegExp.Seq (RegExp.Seq (RegExp.Seq (RegExp.Seq (RegExp.Seq RegExp.Empty RegExp.LineStart)
       (RegExp.Group (Some "YY") (RegExp.Seq RegExp.Empty (RegExp.Repeat 2 (Some 2) true (RegExp.Class false [RegExp.CDigit false])))))
       (RegExp.Char "/"))
       (RegExp.Group (Some "M") (RegExp.Seq RegExp.Empty (RegExp.Repeat 1 (Some 2) true (RegExp.Class false [RegExp.CDigit false])))))
       RegExp.LineEnd)
  /\ RegExp.parsePattern "^(?<(?<YY>\d{2})YY>\d{4})$" = RegExp.SyntaxError
  /\ RegExp.parsePattern "a)" = RegExp.SyntaxError
  /\ RegExp.parsePattern "(a" = RegExp.SyntaxError
  /\ RegExp.parsePattern "a**" = RegExp.SyntaxError
  /\ RegExp.parsePattern "[+-]\d{2}:?\d{2}|Z" =
     RegExp.Ok (RegExp.Alt
       (RegExp.Seq (RegExp.Seq (RegExp.Seq (RegExp.Seq RegExp.Empty
          (RegExp.Class false [RegExp.CChar "+"; RegExp.CChar "-"]))
          (RegExp.Repeat 2 (Some 2) true (RegExp.Class false [RegExp.CDigit false])))
          (RegExp.Repeat 0 (Some 1) true (RegExp.Char ":")))
          (RegExp.Repeat 2 (Some 2) true (RegExp.Class false [RegExp.CDigit false])))
       (RegExp.Seq RegExp.Empty (RegExp.Char "Z"))).
Proof. vm_compute. repeat split; reflexivity. Qed.

Example exec_examples :
  Sample.execPattern "^(?<YY>\d{2})/(?<M>\d{1,2})/(?<D>\d{1,2})$" false "23/1/15"
  = Some (Some [("D", "15"); ("M", "1"); ("YY", "23")])
  /\ Sample.execPattern "^(?<YY>\d{2})(?<M>\d{1,2})(?<D>\d{1,2})$" false "23115"
     = Some (Some [("D", "5"); ("M", "11"); ("YY", "23")])
  /\ Sample.execPattern "^(?<Z>Z|[+-]\d{2}:?\d{2}|[+-]\d{4})$" false "+0900"
     = Some (Some [("Z", "+0900")])
  /\ Sample.execPattern "^(?<Www>[^\d\s\/\-.,]+), (?<D>\d{1,2})$" false "Mon, 5"
     = Some (Some [("D", "5"); ("Www", "Mon")])
  /\ Sample.execPattern "^al" true "Alice" = Some (Some [])
  /\ Sample.execPattern "^al" true "Ball" = Some None
  /\ Sample.execPattern "a\.b$" true "xA.B" = Some (Some [])
  /\ Sample.execPattern "a\.b$" true "xAxB" = Some None
  /\ Sample.execPattern "^" true "" = Some (Some [])
  /\ Sample.execPattern "(a*)*b" false "aaaab" = Some (Some [])
  /\ Sample.execPattern "(a|ab)(c|bcd)(d*)" false "abcd" = Some (Some []).
Proof. vm_compute. repeat split; reflexivity. Qed.

Example JsDate_examples :
  JsDate.parseISO "2020-01-01" = Some 1577836800000%Z
  /\ JsDate.parseISO "2019-06-01" = Some 1559347200000%Z
  /\ JsDate.parseISO "2023-01-05T00:00:00+09:00" = Some 1672844400000%Z
  /\ JsDate.parseISO "2023-02-29" = None
  /\ JsDate.parseISO "not-a-date" = None
  /\ JsDate.parseISO "2023/01/05" = None
  /\ JsDate.civilFromDays (JsDate.Day 1672876800000) = (2023, 1, 5)%Z
  /\ JsDate.civilFromDays (-1) = (1969, 12, 31)%Z
  /\ JsDate.MakeDay 2023 0 5 = 19362%Z
  /\ JsDate.MakeDay 1970 0 1 = 0%Z.
Proof. vm_compute. repeat split; reflexivity. Qed.

Example date_examples :
  Csv2Table.datePattern "YYYY/MM/DD" = "(?<(?<YY>\d{2})YY>\d{4})/(?<(?<M>\d{1,2})M>\d{2})/(?<(?<D>\d{1,2})D>\d{2})"
  /\ Csv2Table.datePattern "YY/M/D" = "(?<YY>\d{2})/(?<M>\d{1,2})/(?<D>\d{1,2})"
  /\ Csv2Table.parseDateString Sample.host "23/1/5" (Some "YY/M/D") = Some 1672876800000%Z
  /\ Csv2Table.parseDateString Sample.host "23/1/5 Z" (Some "YY/M/D Z") = Some 1672876800000%Z
  /\ Csv2Table.parseDateString Sample.host "23/1/5 +0900" (Some "YY/M/D Z") = Some 1672844400000%Z
  /\ Csv2Table.parseDateString Sample.host "2023/01/05" (Some "YYYY/MM/DD") = Some 1672876800000%Z
  /\ Csv2Table.parseDateString Sample.host "25/01/2023" (Some "DD/MM/YYYY") = None
  /\ Csv2Table.formatTimestamp Sample.host 1672876800000 "YYYY/MM/DD HH:mm:ss (D.M.YY) Z" None = "2023/01/05 00:00:00 (5.1.23) +00:00"
  /\ Csv2Table.formatDate Sample.host "2023-01-05" None (Some "DD.MM.YYYY") None = "05.01.2023".
Proof. vm_compute. repeat split; reflexivity. Qed.

Example query_examples :
  map (Csv2Table.evaluateSearchAST Sample.host (Sample.people [])
         (Csv2Table.parseSearchQuery "name:^Al"))
    [Sample.person "Alice" "25"; Sample.person "Albert" "30";
     Sample.person "Ball" "35"]
  = [true; true; false]
  /\ map (Csv2Table.evaluateSearchAST Sample.host (Sample.people [])
            (Csv2Table.parseSearchQuery "age:>=30"))
       [Sample.person "Alice" "25"; Sample.person "Albert" "30";
        Sample.person "Ball" "35"]
     = [false; true; true]
  /\ map (Csv2Table.evaluateSearchAST Sample.host (Sample.people [])
            (Csv2Table.parseSearchQuery "l$ OR (al <30)"))
       [Sample.person "Alice" "25"; Sample.person "Albert" "30";
        Sample.person "Ball" "35"]
     = [true; false; true].
Proof. vm_compute. repeat split; reflexivity. Qed.

(** ** The lexer *)

Section LexerFacts.
Import JsString Csv2Table.

Lemma span_snd_length p s :
  (String.length (snd (span p s)) <= String.length s)%nat.
Proof. pose proof (span_length p s). lia. Qed.

Lemma span_head p c r :
  p c = true ->
  (String.length (snd (span p (String c r))) < String.length (String c r))%nat.
Proof.
  intros Hp. simpl. rewrite Hp.
  pose proof (span_snd_length p r) as H.
  destruct (span p r) as [a b]; simpl in *. lia.
Qed.

Lemma matchIgnoreCase_length kw s r :
  matchIgnoreCase kw s = Some r ->
  (String.length r + String.length kw = String.length s)%nat.
Proof.
  revert s; induction kw as [|k kw IH]; intros s H; simpl in H.
  - inversion H; subst; simpl; lia.
  - destruct s as [|c s']; [discriminate|].
    destruct (Ascii.eqb (toLowerChar c) k); [|discriminate].
    apply IH in H. simpl. lia.
Qed.

Lemma matchKeyword_shorter s kw r :
  matchKeyword s = Some (kw, r) -> (String.length r < String.length s)%nat.
Proof.
  unfold matchKeyword. intros H.
  destruct (matchIgnoreCase "and" s) as [r1|] eqn:E1.
  - destruct (atWordBoundary r1); [|discriminate].
    inversion H; subst. apply matchIgnoreCase_length in E1. simpl in E1. lia.
  - destruct (matchIgnoreCase "or" s) as [r2|] eqn:E2; [|discriminate].
    destruct (atWordBoundary r2); [|discriminate].
    inversion H; subst. apply matchIgnoreCase_length in E2. simpl in E2. lia.
Qed.

Lemma matchColumn_shorter s col r :
  matchColumn s = Some (col, r) ->
  (String.length r < String.length s)%nat /\ col <> "".
Proof.
  unfold matchColumn. intros H.
  pose proof (span_length isColumnChar s) as L.
  destruct (span isColumnChar s) as [a b]; simpl in L.
  destruct a as [|c a]; [discriminate|].
  destruct b as [|d b]; [discriminate|].
  destruct (Ascii.eqb_spec d ":") as [->|Hd].
  - inversion H; subst. simpl in L. split; [lia | discriminate].
  - exfalso. revert H.
    destruct d as [[] [] [] [] [] [] [] []]; try discriminate; congruence.
Qed.

Lemma matchOperator_shorter s op r :
  matchOperator s = Some (op, r) -> (String.length r < String.length s)%nat.
Proof.
  unfold matchOperator. intros H.
  destruct s as [|c s]; [discriminate|].
  assert (Hc : c = ">"%char \/ c = "<"%char).
  { revert H. destruct c as [[] [] [] [] [] [] [] []]; try discriminate; auto. }
  destruct Hc as [-> | ->]; destruct s as [|d s].
  1,3: inversion H; subst; simpl; lia.
  all: destruct (Ascii.eqb_spec d "=") as [->|Hd];
    [inversion H; subst; simpl; lia|].
  all: assert (r = String d s)
    by (revert H Hd; destruct d as [[] [] [] [] [] [] [] []];
        intros H Hd; try congruence; inversion H; reflexivity).
  all: subst; simpl; lia.
Qed.

Lemma scanValue_length s :
  (String.length (snd (scanValue s)) <= String.length s)%nat.
Proof.
  unfold scanValue.
  destruct s as [|c s]; [simpl; lia|].
  destruct (Ascii.eqb c quote).
  - pose proof (span_length isNotQuote s) as L.
    destruct (span isNotQuote s) as [a b]; simpl in *.
    destruct b; simpl in *; lia.
  - apply span_snd_length.
Qed.

Lemma scanValue_shorter c s :
  isValueChar c = true ->
  (String.length (snd (scanValue (String c s))) < String.length (String c s))%nat.
Proof.
  intros Hv. unfold scanValue.
  destruct (Ascii.eqb c quote).
  - pose proof (span_length isNotQuote s) as L.
    destruct (span isNotQuote s) as [a b]; simpl in *.
    destruct b; simpl in *; lia.
  - apply span_head; exact Hv.
Qed.

(** A fragment that starts on a character other than white space and
    parentheses consumes at least that character. *)
Lemma scanFragment_shorter c r :
  isValueChar c = true ->
  (String.length (snd (scanFragment (String c r))) < String.length (String c r))%nat.
Proof.
  intros Hv. unfold scanFragment.
  set (s := String c r).
  destruct (matchColumn s) as [[col s1]|] eqn:EC.
  - apply matchColumn_shorter in EC as [L1 _].
    destruct (matchOperator s1) as [[op s2]|] eqn:EO.
    + apply matchOperator_shorter in EO.
      pose proof (scanValue_length s2) as L3.
      destruct (scanValue s2) as [v s3]; simpl in *. lia.
    + pose proof (scanValue_length s1) as L3.
      destruct (scanValue s1) as [v s3]; simpl in *. lia.
  - destruct (matchOperator s) as [[op s2]|] eqn:EO.
    + apply matchOperator_shorter in EO.
      pose proof (scanValue_length s2) as L3.
      destruct (scanValue s2) as [v s3]; simpl in *. lia.
    + pose proof (scanValue_shorter c r Hv) as L3. fold s in L3.
      destruct (scanValue s) as [v s3]; simpl in *. lia.
Qed.

Lemma scanFragment_token s t r :
  scanFragment s = (Some t, r) -> hasValueOrColumn t.
Proof.
  unfold scanFragment.
  destruct (match matchColumn s with
            | Some (col, r0) => (Some col, r0)
            | None => (None, s)
            end) as [column s1].
  destruct (match matchOperator s1 with
            | Some (op, r0) => (Some op, r0)
            | None => (None, s1)
            end) as [operator s2].
  destruct (scanValue s2) as [value s3].
  destruct (nonEmpty value || truthy column) eqn:E; [|discriminate].
  intros H. inversion H; subst; clear H.
  assert (G : toLowerCase value <> "" \/ column <> None).
  { apply orb_true_iff in E as [E|E].
    - left. intros F. apply toLowerCase_empty in F. subst. discriminate.
    - right. intros ->. discriminate. }
  destruct operator; exact G.
Qed.

Lemma lexLoop_total fuel : forall s tokens,
  (String.length s <= fuel)%nat -> exists ts, lexLoop fuel s tokens = Some ts.
Proof.
  induction fuel as [|fuel IH]; intros s tokens L.
  - destruct s; [eexists; reflexivity | simpl in L; lia].
  - destruct s as [|c r]; [eexists; reflexivity|].
    simpl in L. cbn [lexLoop].
    destruct (isWhiteSpace c) eqn:W; [apply IH; lia|].
    destruct (Ascii.eqb c "(") eqn:P1; [apply IH; lia|].
    destruct (Ascii.eqb c ")") eqn:P2; [apply IH; lia|].
    destruct (matchKeyword (String c r)) as [[kw r']|] eqn:K.
    + apply matchKeyword_shorter in K. simpl in K. apply IH. lia.
    + assert (Hv : isValueChar c = true)
        by (unfold isValueChar; rewrite W, P1, P2; reflexivity).
      pose proof (scanFragment_shorter c r Hv) as F.
      destruct (scanFragment (String c r)) as [tok r']. simpl in F.
      apply IH. lia.
Qed.

Lemma push_invariant tokens t :
  Forall hasValueOrColumn tokens ->
  match t with Some t' => hasValueOrColumn t' | None => True end ->
  Forall hasValueOrColumn (push tokens t).
Proof.
  intros H Ht. destruct t as [t'|]; simpl; [|exact H].
  apply Forall_app; split; [exact H | constructor; [exact Ht | constructor]].
Qed.

Lemma lexLoop_invariant fuel : forall s tokens ts,
  Forall hasValueOrColumn tokens ->
  lexLoop fuel s tokens = Some ts -> Forall hasValueOrColumn ts.
Proof.
  induction fuel as [|fuel IH]; intros s tokens ts Hacc H.
  - destruct s; simpl in H; [inversion H; subst; exact Hacc | discriminate].
  - destruct s as [|c r]; [simpl in H; inversion H; subst; exact Hacc|].
    cbn [lexLoop] in H.
    destruct (isWhiteSpace c); [eapply IH; eauto|].
    destruct (Ascii.eqb c "(");
      [eapply IH; [|exact H]; apply push_invariant; simpl; auto|].
    destruct (Ascii.eqb c ")");
      [eapply IH; [|exact H]; apply push_invariant; simpl; auto|].
    destruct (matchKeyword (String c r)) as [[kw r']|] eqn:K.
    + eapply IH; [|exact H]. apply push_invariant; [exact Hacc|].
      unfold matchKeyword in K.
      destruct (matchIgnoreCase "and" (String c r)) as [r1|].
      * destruct (atWordBoundary r1); inversion K; subst; exact I.
      * destruct (matchIgnoreCase "or" (String c r)) as [r2|]; [|discriminate].
        destruct (atWordBoundary r2); inversion K; subst; exact I.
    + destruct (scanFragment (String c r)) as [tok r'] eqn:F.
      eapply IH; [|exact H]. apply push_invariant; [exact Hacc|].
      destruct tok as [t|]; [|exact I].
      eapply scanFragment_token; exact F.
Qed.

(** C9.  For every query string the lexer returns a token list, and every
    [TERM] or [INEQUALITY] token in it has a non-empty value or a column:
    a fragment with an empty value and no column qualifier is not
    emitted. *)
Theorem C9_tokens_have_value_or_column (query : string) :
  exists tokens,
    tokenize query = Some tokens /\ Forall hasValueOrColumn tokens.
Proof.
  destruct (lexLoop_total (String.length query) query [] (Nat.le_refl _))
    as [ts Hts].
  exists ts. split; [exact Hts|].
  eapply lexLoop_invariant; [|exact Hts]. constructor.
Qed.

End LexerFacts.

(** ** Plain words *)

Section WordFacts.
Import JsString Csv2Table.

Lemma span_word p w rest :
  (forall c, isWhiteSpace c = true -> p c = false) ->
  allChars p w = true ->
  endsWord rest -> span p (w +:+ rest) = (w, rest).
Proof.
  intros Hp Hw Hr. induction w as [|c w IH].
  - change ("" +:+ rest) with rest. destruct rest as [|d r]; [reflexivity|].
    simpl in *. rewrite (Hp d Hr). reflexivity.
  - change (String c w +:+ rest) with (String c (w +:+ rest)).
    apply andb_true_iff in Hw as [Hc Hw]. simpl. rewrite Hc, (IH Hw).
    reflexivity.
Qed.

Lemma allPlain_value w :
  allChars isPlainChar w = true -> allChars isValueChar w = true.
Proof.
  induction w as [|c w IH]; [reflexivity|]. simpl. intros H.
  apply andb_true_iff in H as [Hc Hw]. unfold isPlainChar in Hc.
  apply andb_true_iff in Hc as [Hc _]. apply andb_true_iff in Hc as [Hc _].
  rewrite Hc, (IH Hw). reflexivity.
Qed.

Lemma whiteSpace_not_value c : isWhiteSpace c = true -> isValueChar c = false.
Proof. intros H. unfold isValueChar. rewrite H. reflexivity. Qed.

Lemma scanValue_word c w rest :
  allChars isPlainChar (String c w) = true -> endsWord rest ->
  scanValue (String c w +:+ rest) = (String c w, rest).
Proof.
  intros Hw Hr.
  change (String c w +:+ rest) with (String c (w +:+ rest)).
  unfold scanValue.
  assert (Hq : Ascii.eqb c quote = false).
  { simpl in Hw. apply andb_true_iff in Hw as [Hc _]. unfold isPlainChar in Hc.
    apply andb_true_iff in Hc as [_ Hc]. unfold isNotQuote in Hc.
    apply negb_true_iff in Hc. exact Hc. }
  rewrite Hq.
  change (String c (w +:+ rest)) with (String c w +:+ rest).
  apply span_word; [exact whiteSpace_not_value | | exact Hr].
  apply allPlain_value. exact Hw.
Qed.

Lemma span_column_head w rest :
  allChars isPlainChar w = true -> endsWord rest ->
  match snd (span isColumnChar (w +:+ rest)) with
  | "" => True
  | String d _ => Ascii.eqb d ":" = false
  end.
Proof.
  intros Hw Hr. induction w as [|c w IH].
  - change ("" +:+ rest) with rest. destruct rest as [|d r]; [exact I|].
    simpl in Hr. simpl. unfold isColumnChar at 1. rewrite Hr.
    rewrite !orb_true_r. simpl.
    destruct (Ascii.eqb_spec d ":") as [->|]; [discriminate Hr | reflexivity].
  - change (String c w +:+ rest) with (String c (w +:+ rest)).
    simpl in Hw. apply andb_true_iff in Hw as [Hc Hw]. simpl.
    destruct (isColumnChar c).
    + specialize (IH Hw). destruct (span isColumnChar (w +:+ rest)) as [a b].
      exact IH.
    + simpl. unfold isPlainChar in Hc.
      apply andb_true_iff in Hc as [Hc _]. apply andb_true_iff in Hc as [_ Hc].
      apply negb_true_iff in Hc. exact Hc.
Qed.

Lemma matchColumn_word w rest :
  allChars isPlainChar w = true -> endsWord rest -> matchColumn (w +:+ rest) = None.
Proof.
  intros Hw Hr. pose proof (span_column_head w rest Hw Hr) as H.
  unfold matchColumn. destruct (span isColumnChar (w +:+ rest)) as [a b].
  simpl in H. destruct a as [|x a]; [reflexivity|].
  destruct b as [|d b]; [reflexivity|].
  destruct d as [[] [] [] [] [] [] [] []]; try reflexivity; discriminate H.
Qed.

Lemma matchOperator_word c w rest :
  Ascii.eqb c "<" = false -> Ascii.eqb c ">" = false ->
  matchOperator (String c w +:+ rest) = None.
Proof.
  intros H1 H2. change (String c w +:+ rest) with (String c (w +:+ rest)).
  destruct c as [[] [] [] [] [] [] [] []]; try reflexivity;
    try discriminate H1; discriminate H2.
Qed.

Lemma matchIgnoreCase_word kw : forall w rest,
  (forall k c, In k (list_ascii_of_string kw) -> isWhiteSpace c = true ->
               Ascii.eqb (toLowerChar c) k = false) ->
  endsWord rest ->
  matchIgnoreCase kw (w +:+ rest)
  = match matchIgnoreCase kw w with
    | Some r => Some (r +:+ rest)
    | None => None
    end.
Proof.
  induction kw as [|k kw IH]; intros w rest Hk Hr; [reflexivity|].
  destruct w as [|c w].
  - change ("" +:+ rest) with rest. simpl.
    destruct rest as [|d r]; [reflexivity|]. simpl in Hr.
    rewrite (Hk k d); [reflexivity | left; reflexivity | exact Hr].
  - change (String c w +:+ rest) with (String c (w +:+ rest)). simpl.
    destruct (Ascii.eqb (toLowerChar c) k); [|reflexivity].
    apply IH; [|exact Hr]. intros k' c' Hin. apply Hk. right. exact Hin.
Qed.

Lemma whiteSpace_not_letter k c :
  isAsciiLetter k = true -> isWhiteSpace c = true ->
  Ascii.eqb (toLowerChar c) k = false.
Proof.
  intros Hk Hc.
  destruct c as [[] [] [] [] [] [] [] []]; try discriminate Hc;
    destruct k as [[] [] [] [] [] [] [] []]; try discriminate Hk; reflexivity.
Qed.

Lemma atWordBoundary_app r rest :
  atWordBoundary r = false -> atWordBoundary (r +:+ rest) = false.
Proof.
  destruct r as [|c r]; [discriminate|]. intros H. exact H.
Qed.

Lemma matchKeyword_word w rest :
  matchKeyword w = None -> endsWord rest -> w <> "" ->
  matchKeyword (w +:+ rest) = None.
Proof.
  intros Hw Hr Hne. unfold matchKeyword in *.
  rewrite (matchIgnoreCase_word "and" w rest), (matchIgnoreCase_word "or" w rest);
    try exact Hr.
  - destruct (matchIgnoreCase "and" w) as [r1|].
    + destruct (atWordBoundary r1) eqn:B; [discriminate|].
      rewrite (atWordBoundary_app _ _ B). reflexivity.
    + destruct (matchIgnoreCase "or" w) as [r2|]; [|reflexivity].
      destruct (atWordBoundary r2) eqn:B; [discriminate|].
      rewrite (atWordBoundary_app _ _ B). reflexivity.
  - intros k c Hin. apply whiteSpace_not_letter.
    simpl in Hin. destruct Hin as [<-|[<-|[]]]; reflexivity.
  - intros k c Hin. apply whiteSpace_not_letter.
    simpl in Hin. destruct Hin as [<-|[<-|[<-|[]]]]; reflexivity.
Qed.

(** The lexer takes a plain word that ends at white space or at the end of
    the query as one column-less [TERM]. *)
Lemma lexLoop_word fuel w rest tokens :
  isPlainWord w = true -> endsWord rest ->
  lexLoop (S fuel) (w +:+ rest) tokens
  = lexLoop fuel rest (app tokens [TERM None (toLowerCase w)]).
Proof.
  intros Hw Hr. destruct w as [|c w]; [discriminate|].
  unfold isPlainWord in Hw.
  apply andb_true_iff in Hw as [Hw Hk]. apply andb_true_iff in Hw as [Hw Hp].
  apply andb_true_iff in Hw as [H1 H2].
  apply negb_true_iff in H1, H2, Hk.
  assert (K : matchKeyword (String c w) = None).
  { destruct (matchKeyword (String c w)); [|reflexivity].
    exfalso. apply bool_decide_eq_false in Hk. apply Hk. eauto. }
  assert (Hv : isValueChar c = true).
  { simpl in Hp. apply andb_true_iff in Hp as [Hc _]. unfold isPlainChar in Hc.
    apply andb_true_iff in Hc as [Hc _]. apply andb_true_iff in Hc as [Hc _].
    exact Hc. }
  unfold isValueChar in Hv. apply negb_true_iff in Hv.
  apply orb_false_iff in Hv as [Hv P2]. apply orb_false_iff in Hv as [W P1].
  pose proof (matchKeyword_word (String c w) rest K Hr ltac:(discriminate)) as K'.
  pose proof (matchColumn_word (String c w) rest Hp Hr) as C.
  pose proof (matchOperator_word c w rest H1 H2) as O.
  pose proof (scanValue_word c w rest Hp Hr) as V.
  change (String c w +:+ rest) with (String c (w +:+ rest)) in *.
  cbn [lexLoop]. rewrite W, P1, P2, K'.
  unfold scanFragment. rewrite C, O, V. reflexivity.
Qed.

Lemma lexLoop_space fuel c rest tokens :
  isWhiteSpace c = true ->
  lexLoop (S fuel) (String c rest) tokens = lexLoop fuel rest tokens.
Proof. intros H. cbn [lexLoop]. rewrite H. reflexivity. Qed.

Lemma whiteSpace_not_word c : isWhiteSpace c = true -> isWordChar c = false.
Proof.
  intros H. destruct c as [[] [] [] [] [] [] [] []]; try discriminate H;
    reflexivity.
Qed.

Lemma lexLoop_or fuel rest tokens :
  endsWord rest ->
  lexLoop (S fuel) (String "O" (String "R" rest)) tokens
  = lexLoop fuel rest (app tokens [OR]).
Proof.
  intros Hr. cbn [lexLoop].
  change (isWhiteSpace "O") with false. change (Ascii.eqb "O" "(") with false.
  change (Ascii.eqb "O" ")") with false. cbv iota.
  assert (K : matchKeyword (String "O" (String "R" rest)) = Some (OR, rest)).
  { unfold matchKeyword. simpl matchIgnoreCase.
    change (Ascii.eqb (toLowerChar "O") "a") with false.
    change (Ascii.eqb (toLowerChar "O") "o") with true.
    change (Ascii.eqb (toLowerChar "R") "r") with true. cbv iota.
    destruct rest as [|c r]; [reflexivity|]. simpl in Hr. simpl.
    rewrite (whiteSpace_not_word c Hr). reflexivity. }
  rewrite K. reflexivity.
Qed.

Lemma lexLoop_end fuel tokens : lexLoop fuel "" tokens = Some tokens.
Proof. destruct fuel; reflexivity. Qed.

Lemma length_append (a b : string) :
  String.length (a +:+ b) = (String.length a + String.length b)%nat.
Proof.
  induction a as [|c a IH]; [reflexivity|].
  change (String c a +:+ b) with (String c (a +:+ b)). simpl. rewrite IH.
  reflexivity.
Qed.

Lemma append_empty (a : string) : a +:+ "" = a.
Proof.
  induction a as [|c a IH]; [reflexivity|].
  change (String c a +:+ "") with (String c (a +:+ "")). rewrite IH.
  reflexivity.
Qed.

(** The tokens of [a OR b c] for plain words [a], [b] and [c]. *)
Lemma tokenize_or_juxtaposition a b c :
  isPlainWord a = true -> isPlainWord b = true -> isPlainWord c = true ->
  tokenize (a +:+ " OR " +:+ b +:+ " " +:+ c)
  = Some [TERM None (toLowerCase a); OR; TERM None (toLowerCase b);
          TERM None (toLowerCase c)].
Proof.
  intros Ha Hb Hc. unfold tokenize.
  assert (L : exists fuel,
             String.length (a +:+ " OR " +:+ b +:+ " " +:+ c) = (7 + fuel)%nat).
  { rewrite !length_append. simpl.
    destruct a; [discriminate|]. destruct b; [discriminate|].
    destruct c; [discriminate|]. simpl. eexists.
    rewrite !Nat.add_succ_r. simpl. reflexivity. }
  destruct L as [fuel ->]. change (7 + fuel)%nat with (S (S (S (S (S (S (S fuel))))))).
  rewrite lexLoop_word; [|exact Ha|exact eq_refl].
  change (" OR " +:+ b +:+ " " +:+ c) with (String " " ("OR " +:+ b +:+ " " +:+ c)).
  rewrite lexLoop_space by reflexivity.
  change ("OR " +:+ b +:+ " " +:+ c)
    with (String "O" (String "R" (String " " (b +:+ " " +:+ c)))).
  rewrite lexLoop_or by reflexivity.
  rewrite lexLoop_space by reflexivity.
  rewrite lexLoop_word; [|exact Hb|exact eq_refl].
  change (" " +:+ c) with (String " " c).
  rewrite lexLoop_space by reflexivity.
  rewrite <- (append_empty c) at 1.
  rewrite lexLoop_word; [|exact Hc|exact I].
  rewrite lexLoop_end. reflexivity.
Qed.

Lemma trim_word c w rest :
  isWhiteSpace c = false -> nonEmpty (trim (String c w +:+ rest)) = true.
Proof.
  intros H. change (String c w +:+ rest) with (String c (w +:+ rest)).
  unfold trim. simpl. rewrite H. simpl. rewrite H. reflexivity.
Qed.

End WordFacts.

(** ** The parser *)

Section ParserFacts.
Import JsString Csv2Table.

Lemma parse_total fuel :
  (forall toks, (4 * length toks + 1 <= fuel)%nat ->
                parsedOne toks (parseTerm fuel toks))
  /\ (forall node toks, (4 * length toks + 2 <= fuel)%nat ->
                        parsed toks (parseAndLoop fuel node toks))
  /\ (forall toks, (4 * length toks + 3 <= fuel)%nat ->
                   parsed toks (parseAnd fuel toks))
  /\ (forall node toks, (4 * length toks + 2 <= fuel)%nat ->
                        parsed toks (parseOrLoop fuel node toks))
  /\ (forall toks, (4 * length toks + 4 <= fuel)%nat ->
                   parsed toks (parseOr fuel toks)).
Proof.
  induction fuel as [|fuel (IT & IL & IA & IOL & IO)].
  { repeat split; intros; lia. }
  assert (HT : forall toks, (4 * length toks + 1 <= S fuel)%nat ->
                            parsedOne toks (parseTerm (S fuel) toks)).
  { intros toks L. destruct toks as [|t rest].
    - exists None, []. simpl. repeat split; auto. congruence.
    - simpl in L. destruct t; cbn [parseTerm].
      + destruct (IO rest ltac:(lia)) as (node & r & E & Lr). rewrite E.
        destruct r as [|t' r'].
        * exists node, []. simpl in *. repeat split; auto; lia.
        * destruct t';
            try (exists node; eexists; split; [reflexivity|];
                 simpl in *; split; [lia | intros _; lia]).
      + exists None, rest. simpl. repeat split; auto; lia.
      + exists None, rest. simpl. repeat split; auto; lia.
      + exists None, rest. simpl. repeat split; auto; lia.
      + eexists _, rest. simpl. repeat split; auto; lia.
      + eexists _, rest. simpl. repeat split; auto; lia. }
  assert (HL : forall node toks, (4 * length toks + 2 <= S fuel)%nat ->
                                 parsed toks (parseAndLoop (S fuel) node toks)).
  { intros node toks L.
    assert (Stop : parsed toks (Some (node, toks)))
      by (exists node, toks; split; [reflexivity | lia]).
    assert (Step : parsed toks
              (match parseTerm fuel toks with
               | Some (rhs, rest') => parseAndLoop fuel (join AstAnd node rhs) rest'
               | None => None
               end) \/ toks = []).
    { destruct toks as [|t0 toks0]; [right; reflexivity | left].
      destruct (IT (t0 :: toks0) ltac:(lia)) as (rhs & r & E & Lr & Lr').
      rewrite E. specialize (Lr' ltac:(discriminate)).
      destruct (IL (join AstAnd node rhs) r ltac:(simpl in *; lia))
        as (n' & r' & E' & Lr''). rewrite E'.
      exists n', r'. split; [reflexivity | lia]. }
    destruct toks as [|t rest]; [exact Stop|].
    destruct Step as [Step|]; [|discriminate].
    destruct t; cbn [parseAndLoop]; try exact Stop; try exact Step.
    simpl in L.
    destruct (IT rest ltac:(lia)) as (rhs & r & E & Lr & _). rewrite E.
    destruct (IL (join AstAnd node rhs) r ltac:(lia)) as (n' & r' & E' & Lr').
    rewrite E'. exists n', r'. split; [reflexivity | simpl; lia]. }
  assert (HA : forall toks, (4 * length toks + 3 <= S fuel)%nat ->
                            parsed toks (parseAnd (S fuel) toks)).
  { intros toks L. cbn [parseAnd].
    destruct (IT toks ltac:(lia)) as (node & r & E & Lr & _). rewrite E.
    destruct (IL node r ltac:(lia)) as (n' & r' & E' & Lr'). rewrite E'.
    exists n', r'. split; [reflexivity | lia]. }
  assert (HOL : forall node toks, (4 * length toks + 2 <= S fuel)%nat ->
                                  parsed toks (parseOrLoop (S fuel) node toks)).
  { intros node toks L.
    assert (Stop : parsed toks (Some (node, toks)))
      by (exists node, toks; split; [reflexivity | lia]).
    destruct toks as [|t rest]; [exact Stop|].
    destruct t; cbn [parseOrLoop]; try exact Stop.
    simpl in L.
    destruct (IA rest ltac:(lia)) as (rhs & r & E & Lr). rewrite E.
    destruct (IOL (join AstOr node rhs) r ltac:(lia)) as (n' & r' & E' & Lr').
    rewrite E'. exists n', r'. split; [reflexivity | simpl; lia]. }
  assert (HO : forall toks, (4 * length toks + 4 <= S fuel)%nat ->
                            parsed toks (parseOr (S fuel) toks)).
  { intros toks L. cbn [parseOr].
    destruct (IA toks ltac:(lia)) as (node & r & E & Lr). rewrite E.
    destruct (IOL node r ltac:(lia)) as (n' & r' & E' & Lr'). rewrite E'.
    exists n', r'. split; [reflexivity | lia]. }
  repeat split; assumption.
Qed.

(** [parseOr] returns on every token list with the fuel [parseFuel]. *)
Lemma parseOr_total tokens :
  exists node rest, parseOr (parseFuel tokens) tokens = Some (node, rest).
Proof.
  destruct (parse_total (parseFuel tokens)) as (_ & _ & _ & _ & H).
  destruct (H tokens ltac:(unfold parseFuel; lia)) as (node & rest & E & _).
  eauto.
Qed.

(** On every query that is not blank the lexer and the parser return, and
    [parseSearchQuery] is the node of [parseOr]. *)
Lemma parseSearchQuery_total query :
  nonEmpty query = true -> nonEmpty (trim query) = true ->
  exists tokens node rest,
    tokenize query = Some tokens
    /\ parseOr (parseFuel tokens) tokens = Some (node, rest)
    /\ parseSearchQuery query = node.
Proof.
  intros H1 H2.
  destruct (lexLoop_total (String.length query) query [] (Nat.le_refl _))
    as [tokens Ht].
  destruct (parseOr_total tokens) as (node & rest & Hp).
  exists tokens, node, rest. split; [exact Ht|]. split; [exact Hp|].
  unfold parseSearchQuery, parseTokens. rewrite H1, H2. simpl.
  unfold tokenize. rewrite Ht, Hp. reflexivity.
Qed.

(** The query text [a OR b c] for plain words [a], [b] and [c]. *)
Lemma parseSearchQuery_or_juxtaposition a b c :
  isPlainWord a = true -> isPlainWord b = true -> isPlainWord c = true ->
  parseSearchQuery (a +:+ " OR " +:+ b +:+ " " +:+ c)
  = Some (AstOr (AstTerm None (toLowerCase a))
            (AstAnd (AstTerm None (toLowerCase b))
               (AstTerm None (toLowerCase c)))).
Proof.
  intros Ha Hb Hc. unfold parseSearchQuery.
  rewrite (tokenize_or_juxtaposition a b c Ha Hb Hc).
  destruct a as [|x a]; [discriminate|].
  assert (W : isWhiteSpace x = false).
  { unfold isPlainWord in Ha. apply andb_true_iff in Ha as [Ha _].
    apply andb_true_iff in Ha as [_ Ha]. simpl in Ha.
    apply andb_true_iff in Ha as [Ha _]. unfold isPlainChar, isValueChar in Ha.
    destruct (isWhiteSpace x); [discriminate Ha | reflexivity]. }
  rewrite (trim_word x a _ W). reflexivity.
Qed.

(** C7.  Juxtaposition binds tighter than [OR]: for any three term tokens
    [a], [b], [c] the token sequence [a OR b c] parses to
    [Or(a, And(b, c))], which on every row evaluates to
    [a || (b && c)]; and the query text [a OR b c], for any three plain words,
    is lexed to such a sequence and parsed to that tree. *)
Theorem C7_or_binds_looser_than_juxtaposition
  (a b c : token) (na nb nc : ast) :
  leaf a = Some na -> leaf b = Some nb -> leaf c = Some nc ->
  parseTokens [a; OR; b; c] = Some (AstOr na (AstAnd nb nc))
  /\ (forall host this row,
        evaluateSearchAST host this (parseTokens [a; OR; b; c]) row
        = evaluateNode host this na row
          || (evaluateNode host this nb row && evaluateNode host this nc row))
  /\ (forall wa wb wc,
        isPlainWord wa = true -> isPlainWord wb = true -> isPlainWord wc = true ->
        tokenize (wa +:+ " OR " +:+ wb +:+ " " +:+ wc)
        = Some [TERM None (toLowerCase wa); OR; TERM None (toLowerCase wb);
                TERM None (toLowerCase wc)]
        /\ parseSearchQuery (wa +:+ " OR " +:+ wb +:+ " " +:+ wc)
           = Some (AstOr (AstTerm None (toLowerCase wa))
                     (AstAnd (AstTerm None (toLowerCase wb))
                        (AstTerm None (toLowerCase wc))))).
Proof.
  intros Ha Hb Hc.
  assert (P : parseTokens [a; OR; b; c] = Some (AstOr na (AstAnd nb nc))).
  { destruct a; try discriminate; destruct b; try discriminate;
      destruct c; try discriminate;
      inversion Ha; inversion Hb; inversion Hc; subst; reflexivity. }
  split; [exact P|]. split.
  - intros host this row. rewrite P. reflexivity.
  - intros wa wb wc Wa Wb Wc. split.
    + apply tokenize_or_juxtaposition; assumption.
    + apply parseSearchQuery_or_juxtaposition; assumption.
Qed.

Lemma C7_witness :
  leaf (TERM (Some "name") "^al") = Some (AstTerm (Some "name") "^al")
  /\ parseTokens [TERM (Some "name") "^al"; OR;
                  INEQUALITY (Some "age") OpGe "30"; TERM None "x"]
     = Some (AstOr (AstTerm (Some "name") "^al")
               (AstAnd (AstInequality (Some "age") OpGe "30") (AstTerm None "x")))
  /\ parseSearchQuery "Ann OR Bob 42"
     = Some (AstOr (AstTerm None "ann")
               (AstAnd (AstTerm None "bob") (AstTerm None "42"))).
Proof.
  destruct (C7_or_binds_looser_than_juxtaposition
              (TERM (Some "name") "^al") (INEQUALITY (Some "age") OpGe "30")
              (TERM None "x") _ _ _ eq_refl eq_refl eq_refl) as (P & _ & Q).
  split; [reflexivity|]. split; [exact P|].
  exact (proj2 (Q "Ann" "Bob" "42" eq_refl eq_refl eq_refl)).
Defined.

(** C8.  A query that is empty or all white space parses to [null], and a
    [null] AST is true of every row, so the filter keeps every row. *)
Theorem C8_blank_query_matches_every_row (query : string) :
  allWhiteSpace query = true ->
  parseSearchQuery query = None
  /\ (forall host this row,
        evaluateSearchAST host this (parseSearchQuery query) row = true)
  /\ (forall host this row,
        searchQuery this = query -> keepRow host this row = true).
Proof.
  intros W.
  assert (P : parseSearchQuery query = None).
  { unfold parseSearchQuery. rewrite (trim_allWhiteSpace _ W).
    rewrite orb_true_r. reflexivity. }
  split; [exact P|]. split.
  - intros host this row. rewrite P. reflexivity.
  - intros host this row E. unfold keepRow. rewrite E.
    rewrite (trim_allWhiteSpace _ W). simpl.
    rewrite orb_true_r. reflexivity.
Qed.

Lemma C8_witness :
  allWhiteSpace "   " = true /\ parseSearchQuery "   " = None.
Proof.
  split; [reflexivity|].
  apply (C8_blank_query_matches_every_row "   "). reflexivity.
Defined.

End ParserFacts.

(** ** The evaluator *)

Section EvaluatorFacts.
Import JsString Csv2Table.

Lemma someFrom_spec {A} (f : A -> nat -> bool) (l : list A) : forall i,
  someFrom f i l = true <-> exists j x, l !! j = Some x /\ f x (i + j)%nat = true.
Proof.
  induction l as [|y l IH]; intros i; simpl.
  - split; [discriminate | intros (j & x & H & _); destruct j; discriminate].
  - rewrite orb_true_iff, IH. split.
    + intros [H | (j & x & H1 & H2)].
      * exists 0%nat, y. rewrite Nat.add_0_r. auto.
      * exists (S j), x. rewrite Nat.add_succ_r. auto.
    + intros (j & x & H1 & H2). destruct j as [|j].
      * left. simpl in H1. inversion H1; subst. rewrite Nat.add_0_r in H2. exact H2.
      * right. exists j, x. rewrite Nat.add_succ_r in H2. auto.
Qed.

Lemma someFrom_ext {A} (f g : A -> nat -> bool) (l : list A) : forall i,
  (forall x j, f x j = g x j) -> someFrom f i l = someFrom g i l.
Proof.
  induction l as [|x l IH]; intros i H; [reflexivity|].
  cbn [someFrom]. rewrite H, (IH (S i) H). reflexivity.
Qed.

(** The pattern [^] is found in every string. *)
Lemma test_lineStart (ic : bool) (s : string) :
  RegExp.test {| RegExp.source := RegExp.Seq RegExp.Empty RegExp.LineStart;
                 RegExp.ignoreCase := ic |} s = true.
Proof. destruct s; reflexivity. Qed.

Lemma search_lineEnd (ic : bool) (s : string) : forall pos,
  RegExp.search ic (RegExp.Seq RegExp.Empty RegExp.LineEnd) pos s = Some [].
Proof. induction s as [|c s IH]; intros pos; simpl; [reflexivity | apply IH]. Qed.

(** The pattern [$] is found in every string. *)
Lemma test_lineEnd (ic : bool) (s : string) :
  RegExp.test {| RegExp.source := RegExp.Seq RegExp.Empty RegExp.LineEnd;
                 RegExp.ignoreCase := ic |} s = true.
Proof. unfold RegExp.test, RegExp.exec. simpl. rewrite search_lineEnd. reflexivity. Qed.

(** A column-less term whose pattern is found in every string is true of a
    row exactly when the row has a cell in a visible column. *)
Lemma evaluateTerm_anywhere host this value row re :
  RegExp.new (termPattern value) true = Some re ->
  (forall s, RegExp.test re s = true) ->
  evaluateTerm host this None value row = true
  <-> exists i cell, cells row !! i = Some cell /\ i ∈ visibleColumns this.
Proof.
  intros Hre Hall. unfold evaluateTerm. rewrite Hre. simpl.
  rewrite someFrom_spec. split.
  - intros (j & x & H1 & H2). exists j, x. split; [exact H1|].
    apply andb_true_iff in H2 as [H2 _]. simpl in H2.
    apply bool_decide_eq_true in H2. exact H2.
  - intros (i & cell & H1 & H2). exists i, cell. split; [exact H1|].
    simpl. rewrite Hall, andb_true_r. apply bool_decide_eq_true. exact H2.
Qed.

(** C10.  A column-less [TERM] whose value is exactly [^] or exactly [$]:
    after the anchors are taken off nothing is left to escape, the pattern is
    the bare anchor, and every string satisfies it; so the term is true of a
    row exactly when the row has a cell in a visible column, and of no row
    when no column is visible. *)
Theorem C10_bare_anchor_term (host : Host) (this : Table) (row : Row)
  (value : string) :
  value = "^" \/ value = "$" ->
  termPattern value = value
  /\ (exists re, RegExp.new (termPattern value) true = Some re
                 /\ forall s, RegExp.test re s = true)
  /\ (evaluateSearchAST host this (Some (AstTerm None value)) row = true
      <-> exists i cell, cells row !! i = Some cell /\ i ∈ visibleColumns this)
  /\ (visibleColumns this = ∅ ->
      evaluateSearchAST host this (Some (AstTerm None value)) row = false).
Proof.
  intros Hv.
  assert (Hre : exists re, RegExp.new (termPattern value) true = Some re
                           /\ forall s, RegExp.test re s = true).
  { destruct Hv as [-> | ->]; eexists; (split; [reflexivity|]); intros s.
    - apply test_lineStart.
    - apply test_lineEnd. }
  split; [destruct Hv as [-> | ->]; reflexivity|].
  split; [exact Hre|].
  destruct Hre as (re & Hre & Hall).
  pose proof (evaluateTerm_anywhere host this value row re Hre Hall) as Iff.
  split; [exact Iff|].
  intros Hempty. apply not_true_is_false. intros E.
  apply Iff in E as (i & cell & _ & Hin). rewrite Hempty in Hin.
  exact (not_elem_of_empty (C := gset nat) i Hin).
Qed.

Lemma C10_witness :
  ("^" = "^" \/ "^" = "$")
  /\ evaluateSearchAST Sample.host
       (Sample.table "string" [Sample.row "x"] None true)
       (Some (AstTerm None "^")) (Sample.row "x") = true.
Proof.
  split; [left; reflexivity|].
  apply (C10_bare_anchor_term Sample.host
           (Sample.table "string" [Sample.row "x"] None true)
           (Sample.row "x") "^" (or_introl eq_refl)).
  exists 0%nat, "x". split; [reflexivity|].
  change (0%nat ∈ ({[ 0%nat ]} : gset nat)).
  apply elem_of_singleton_2. reflexivity.
Defined.

(** *** The pattern of a term is always a valid pattern *)

Ltac each_char c := destruct c as [[] [] [] [] [] [] [] []].

Lemma plain_no_quantifier r :
  plainPattern r -> RegExp.parseQuantifierPrefix r = RegExp.Ok None.
Proof.
  intros [| |c r' Hc Hr|c r' Hc Hr]; try reflexivity.
  each_char c; try discriminate Hc; reflexivity.
Qed.

Lemma quantified_plain a r :
  plainPattern r -> RegExp.quantified a r = RegExp.Ok (a, r).
Proof.
  intros H. unfold RegExp.quantified.
  rewrite (plain_no_quantifier r H). reflexivity.
Qed.

Lemma parseTerm_plain_char fuel c r :
  isMetaChar c = false -> plainPattern r ->
  RegExp.parseTerm (S fuel) (String c r) = RegExp.Ok (RegExp.Char c, r).
Proof.
  intros Hc Hr.
  each_char c; try discriminate Hc; cbn [RegExp.parseTerm];
    apply quantified_plain; exact Hr.
Qed.

Lemma parseTerm_plain_escaped fuel c r :
  isMetaChar c = true -> plainPattern r ->
  RegExp.parseTerm (S fuel) (String "\" (String c r))
  = RegExp.Ok (RegExp.Char c, r).
Proof.
  intros Hc Hr. cbn [RegExp.parseTerm].
  each_char c; try discriminate Hc; cbn;
    apply quantified_plain; exact Hr.
Qed.

Lemma parseAlternative_step fuel c r acc :
  Ascii.eqb c "|" = false -> Ascii.eqb c ")" = false ->
  RegExp.parseAlternative (S fuel) (String c r) acc
  = RegExp.bind (RegExp.parseTerm fuel (String c r))
      (fun '(t, rest) => RegExp.parseAlternative fuel rest (RegExp.Seq acc t)).
Proof.
  intros H1 H2.
  each_char c; try discriminate H1; try discriminate H2; reflexivity.
Qed.

Lemma parseAlternative_plain fuel : forall s acc,
  plainPattern s -> RegExp.groupNames acc = [] ->
  (String.length s + 1 <= fuel)%nat ->
  exists r, RegExp.parseAlternative fuel s acc = RegExp.Ok (r, "")
            /\ RegExp.groupNames r = [].
Proof.
  induction fuel as [|fuel IH]; intros s acc Hs Hacc L; [lia|].
  destruct Hs as [| |c r Hc Hr|c r Hc Hr].
  - exists acc. split; [reflexivity | exact Hacc].
  - simpl in L. destruct fuel as [|fuel]; [lia|].
    destruct fuel as [|fuel]; [|].
    + exists (RegExp.Seq acc RegExp.LineEnd). simpl. rewrite Hacc. auto.
    + exists (RegExp.Seq acc RegExp.LineEnd). simpl. rewrite Hacc. auto.
  - simpl in L. rewrite parseAlternative_step by reflexivity.
    destruct fuel as [|fuel]; [lia|].
    rewrite parseTerm_plain_escaped by assumption. cbn [RegExp.bind].
    apply IH; [exact Hr | simpl; rewrite Hacc; reflexivity | lia].
  - simpl in L.
    assert (H1 : Ascii.eqb c "|" = false)
      by (each_char c; try discriminate Hc; reflexivity).
    assert (H2 : Ascii.eqb c ")" = false)
      by (each_char c; try discriminate Hc; reflexivity).
    rewrite parseAlternative_step by assumption.
    destruct fuel as [|fuel]; [lia|].
    rewrite parseTerm_plain_char by assumption. cbn [RegExp.bind].
    apply IH; [exact Hr | simpl; rewrite Hacc; reflexivity | lia].
Qed.

Lemma plain_escapeRegExp v tail :
  plainPattern tail -> plainPattern (escapeRegExp v +:+ tail).
Proof.
  intros Ht. induction v as [|c v IH]; simpl; [exact Ht|].
  destruct (isMetaChar c) eqn:E; simpl.
  - apply plain_escaped; assumption.
  - apply plain_char; assumption.
Qed.

Lemma new_plain (ic : bool) (anchored : bool) (p : string) :
  plainPattern p ->
  exists re, RegExp.new ((if anchored then "^" else "") +:+ p) ic = Some re.
Proof.
  intros Hp. unfold RegExp.new, RegExp.parsePattern.
  set (pattern := (if anchored then "^" else "") +:+ p).
  assert (L : (String.length pattern <= String.length p + 1)%nat)
    by (subst pattern; destruct anchored; cbv [String.append]; simpl; lia).
  assert (H : exists r, RegExp.parseAlternative (4 * String.length pattern + 3)
                          pattern RegExp.Empty = RegExp.Ok (r, "")
                        /\ RegExp.groupNames r = []).
  { subst pattern. destruct anchored; cbv [String.append] in *.
    - replace (4 * String.length (String "^" p) + 3)%nat
        with (S (S (4 * String.length p + 5))) by (simpl; lia).
      rewrite parseAlternative_step by reflexivity.
      cbn [RegExp.parseTerm]. unfold RegExp.unquantified.
      rewrite (plain_no_quantifier p Hp). cbn [RegExp.bind].
      apply parseAlternative_plain; [exact Hp | reflexivity | lia].
    - apply parseAlternative_plain; [exact Hp | reflexivity | lia]. }
  destruct H as (r & Hr & Hg).
  replace (4 * String.length pattern + 4)%nat
    with (S (4 * String.length pattern + 3)) by lia.
  cbn [RegExp.parseDisjunction]. rewrite Hr. cbn [RegExp.bind].
  rewrite Hg. simpl. eauto.
Qed.

(** [new RegExp(finalRegexStr, 'i')] never throws. *)
Lemma termPattern_valid (value : string) :
  exists re, RegExp.new (termPattern value) true = Some re.
Proof.
  unfold termPattern.
  set (v1 := if startsWith "^" value then drop 1 value else value).
  set (v2 := if endsWith "$" v1 then take (String.length v1 - 1) v1 else v1).
  replace ((if startsWith "^" value then "^" else "") +:+ escapeRegExp v2
           +:+ (if endsWith "$" v1 then "$" else ""))
    with ((if startsWith "^" value then "^" else "")
          +:+ (escapeRegExp v2 +:+ (if endsWith "$" v1 then "$" else ""))).
  - apply new_plain. apply plain_escapeRegExp.
    destruct (endsWith "$" v1); constructor.
  - destruct (startsWith "^" value); reflexivity.
Qed.

End EvaluatorFacts.

(** ** The sort comparator *)

Section ComparatorFacts.
Import JsString Csv2Table.

Lemma compareRows_date_both_unparseable host this column a b :
  typeOf (columnAt this column) = "date" ->
  parseDateString host (cellAt a column) (format (columnAt this column)) = None ->
  parseDateString host (cellAt b column) (format (columnAt this column)) = None ->
  JsNumber.isZero (compareRows host this column a b) = true.
Proof.
  intros T A B. unfold compareRows. rewrite T, A, B. simpl.
  destruct (sortAsc this); reflexivity.
Qed.

Lemma compareRows_date_one_unparseable host this column a b t :
  typeOf (columnAt this column) = "date" ->
  parseDateString host (cellAt a column) (format (columnAt this column)) = None ->
  parseDateString host (cellAt b column) (format (columnAt this column)) = Some t ->
  compareRows host this column a b = JsNumber.ofZ 1
  /\ compareRows host this column b a = JsNumber.ofZ (-1).
Proof.
  intros T A B. unfold compareRows. rewrite T, A, B. simpl. auto.
Qed.

Lemma compareRows_date host this column a b :
  typeOf (columnAt this column) = "date" ->
  compareRows host this column a b
  = match parseDateString host (cellAt a column) (format (columnAt this column)),
          parseDateString host (cellAt b column) (format (columnAt this column)) with
    | None, None =>
        if sortAsc this then JsNumber.ofZ 0 else JsNumber.neg (JsNumber.ofZ 0)
    | None, Some _ => JsNumber.ofZ 1
    | Some _, None => JsNumber.ofZ (-1)
    | Some tA, Some tB =>
        if sortAsc this then JsNumber.ofZ (tA - tB)
        else JsNumber.neg (JsNumber.ofZ (tA - tB))
    end.
Proof. intros T. unfold compareRows. rewrite T. reflexivity. Qed.

(** The three rows of the example, sorted on their date column. *)
Lemma sort_example_dates host (asc : bool) :
  legacyDateParse host "not-a-date" = None ->
  map cells
    (snd (filterAndSort host
            (Sample.table "date"
               [Sample.row "2020-01-01"; Sample.row "not-a-date";
                Sample.row "2019-06-01"] (Some 0%nat) asc)))
  = if asc then [["2019-06-01"]; ["2020-01-01"]; ["not-a-date"]]
    else [["2020-01-01"]; ["2019-06-01"]; ["not-a-date"]].
Proof.
  intros H.
  set (this := Sample.table "date" _ _ _).
  assert (P1 : parseDateString host "not-a-date" None = None)
    by (unfold parseDateString, JsDate.parse; simpl; exact H).
  assert (P2 : parseDateString host "2020-01-01" None = Some 1577836800000%Z)
    by reflexivity.
  assert (P3 : parseDateString host "2019-06-01" None = Some 1559347200000%Z)
    by reflexivity.
  set (r0 := setOriginalIndex 0 (Sample.row "2020-01-01")).
  set (r1 := setOriginalIndex 1 (Sample.row "not-a-date")).
  set (r2 := setOriginalIndex 2 (Sample.row "2019-06-01")).
  assert (E : snd (filterAndSort host this)
              = sort (compareRows host this 0) [r0; r1; r2]) by reflexivity.
  rewrite E. clear E.
  assert (T : typeOf (columnAt this 0) = "date") by reflexivity.
  assert (F01 : compareRows host this 0 r0 r1 = JsNumber.ofZ (-1)).
  { rewrite (compareRows_date _ _ _ _ _ T).
    change (cellAt r0 0) with "2020-01-01". change (cellAt r1 0) with "not-a-date".
    change (format (columnAt this 0)) with (@None string).
    rewrite P1, P2. reflexivity. }
  assert (F02 : compareRows host this 0 r0 r2
                = if asc then JsNumber.ofZ 18489600000
                  else JsNumber.neg (JsNumber.ofZ 18489600000)).
  { rewrite (compareRows_date _ _ _ _ _ T).
    change (cellAt r0 0) with "2020-01-01". change (cellAt r2 0) with "2019-06-01".
    change (format (columnAt this 0)) with (@None string).
    rewrite P2, P3. reflexivity. }
  assert (F12 : compareRows host this 0 r1 r2 = JsNumber.ofZ 1).
  { rewrite (compareRows_date _ _ _ _ _ T).
    change (cellAt r1 0) with "not-a-date". change (cellAt r2 0) with "2019-06-01".
    change (format (columnAt this 0)) with (@None string).
    rewrite P1, P3. reflexivity. }
  remember (compareRows host this 0) as cmp eqn:Ecmp.
  unfold sort. cbn [fold_left insertSorted]. unfold sortCompare.
  rewrite F01.
  change (JsNumber.isNaN (JsNumber.ofZ (-1))) with false. cbv iota.
  change (JsNumber.isPositive (JsNumber.ofZ (-1))) with false. cbv iota.
  cbn [insertSorted]. unfold sortCompare. rewrite F02.
  destruct asc.
  - change (JsNumber.isNaN (JsNumber.ofZ 18489600000)) with false. cbv iota.
    change (JsNumber.isPositive (JsNumber.ofZ 18489600000)) with true.
    reflexivity.
  - change (JsNumber.isNaN (JsNumber.neg (JsNumber.ofZ 18489600000))) with false.
    cbv iota.
    change (JsNumber.isPositive (JsNumber.neg (JsNumber.ofZ 18489600000)))
      with false.
    cbv iota. cbn [insertSorted]. unfold sortCompare. rewrite F12.
    reflexivity.
Qed.

(** C3.  Sorting on a column typed [date]: two unparseable cells compare
    equal; when exactly one is unparseable its row goes after the other
    whatever the direction (the comparator is 1 or -1 before the direction
    is applied); and the cells [2020-01-01], [not-a-date], [2019-06-01] come
    out as 2019-06-01, 2020-01-01, not-a-date ascending and as 2020-01-01,
    2019-06-01, not-a-date descending, [not-a-date] being what the host does
    not parse. *)
Theorem C3_unparseable_dates_sort_last (host : Host) :
  legacyDateParse host "not-a-date" = None ->
  (forall this column a b,
     typeOf (columnAt this column) = "date" ->
     parseDateString host (cellAt a column) (format (columnAt this column)) = None ->
     parseDateString host (cellAt b column) (format (columnAt this column)) = None ->
     JsNumber.isZero (compareRows host this column a b) = true)
  /\ (forall this column a b t,
        typeOf (columnAt this column) = "date" ->
        parseDateString host (cellAt a column) (format (columnAt this column)) = None ->
        parseDateString host (cellAt b column) (format (columnAt this column)) = Some t ->
        compareRows host this column a b = JsNumber.ofZ 1
        /\ compareRows host this column b a = JsNumber.ofZ (-1))
  /\ map cells
       (snd (filterAndSort host
               (Sample.table "date"
                  [Sample.row "2020-01-01"; Sample.row "not-a-date";
                   Sample.row "2019-06-01"] (Some 0%nat) true)))
     = [["2019-06-01"]; ["2020-01-01"]; ["not-a-date"]]
  /\ map cells
       (snd (filterAndSort host
               (Sample.table "date"
                  [Sample.row "2020-01-01"; Sample.row "not-a-date";
                   Sample.row "2019-06-01"] (Some 0%nat) false)))
     = [["2020-01-01"]; ["2019-06-01"]; ["not-a-date"]].
Proof.
  intros H.
  split; [intros; apply compareRows_date_both_unparseable; assumption|].
  split; [intros; eapply compareRows_date_one_unparseable; eassumption|].
  split.
  - exact (sort_example_dates host true H).
  - exact (sort_example_dates host false H).
Qed.

Lemma C3_witness :
  legacyDateParse Sample.host "not-a-date" = None
  /\ map cells
       (snd (filterAndSort Sample.host
               (Sample.table "date"
                  [Sample.row "2020-01-01"; Sample.row "not-a-date";
                   Sample.row "2019-06-01"] (Some 0%nat) false)))
     = [["2020-01-01"]; ["2019-06-01"]; ["not-a-date"]].
Proof.
  split; [reflexivity|].
  apply (C3_unparseable_dates_sort_last Sample.host). reflexivity.
Defined.

(** On a column typed [number] two cells that do not parse are both taken
    as [-Infinity], and their difference is [NaN]. *)
Lemma compareRows_number_both_unparseable host this column a b :
  typeOf (columnAt this column) = "number" ->
  JsNumber.parseFloat (JsNumber.stripNonNumeric (cellAt a column)) = JsNumber.NaN ->
  JsNumber.parseFloat (JsNumber.stripNonNumeric (cellAt b column)) = JsNumber.NaN ->
  compareRows host this column a b = JsNumber.NaN.
Proof.
  intros T A B. unfold compareRows. rewrite T, A, B. simpl.
  destruct (sortAsc this); reflexivity.
Qed.

(** C4.  The comparator on the failing input: a column typed [number] and
    the cells [abc] and [xyz], in either direction.  Its result is [NaN],
    which is neither negative, nor zero, nor positive; on a column typed
    [date] the same two cells compare as zero. *)
Theorem C4_number_comparator_returns_NaN :
  forall asc : bool,
    let number := Sample.table "number" [] (Some 0%nat) asc in
    let date := Sample.table "date" [] (Some 0%nat) asc in
    let result :=
      compareRows Sample.host number 0 (Sample.row "abc") (Sample.row "xyz") in
    result = JsNumber.NaN
    /\ JsNumber.isNegative result = false
    /\ JsNumber.isZero result = false
    /\ JsNumber.isPositive result = false
    /\ JsNumber.isZero
         (compareRows Sample.host date 0 (Sample.row "abc") (Sample.row "xyz"))
       = true.
Proof. intros [|]; vm_compute; repeat split; reflexivity. Qed.

Lemma compareRows_number_unparseable_first host this column a b q :
  typeOf (columnAt this column) = "number" ->
  sortAsc this = true ->
  JsNumber.parseFloat (JsNumber.stripNonNumeric (cellAt a column)) = JsNumber.NaN ->
  JsNumber.parseFloat (JsNumber.stripNonNumeric (cellAt b column)) = JsNumber.Finite q ->
  compareRows host this column a b = JsNumber.NegInfinity
  /\ compareRows host this column b a = JsNumber.PosInfinity.
Proof.
  intros T S A B. unfold compareRows. rewrite T, S, A, B. simpl. auto.
Qed.

Lemma evaluateCell_unparseable_number host this op value cell column :
  typeOf (columnAt this column) = "number" ->
  JsNumber.parseFloat (JsNumber.stripNonNumeric cell) = JsNumber.NaN ->
  evaluateCell host this op value cell column
  = match JsDate.parse host cell, searchValDate host value with
    | Some cDate, Some sDate =>
        applyOperator op (JsNumber.ofZ cDate) (JsNumber.ofZ sDate)
    | _, _ => false
    end.
Proof.
  intros T N. unfold evaluateCell. rewrite T, N. reflexivity.
Qed.

(** C5, as the code has it.  On a column typed [number] a cell whose stripped
    text does not parse is [-Infinity] to the comparator, so ascending it
    goes before every cell that holds a number; an inequality never compares
    it as a number: the inequality is false of the cell for every operator
    and query value unless both the raw cell text and the query value parse
    as dates, in which case the two dates are compared. *)
Theorem C5_unparseable_number_cell (host : Host) (this : Table) (column : nat)
  (cell : string) :
  typeOf (columnAt this column) = "number" ->
  JsNumber.parseFloat (JsNumber.stripNonNumeric cell) = JsNumber.NaN ->
  (forall a b q,
     sortAsc this = true ->
     cellAt a column = cell ->
     JsNumber.parseFloat (JsNumber.stripNonNumeric (cellAt b column))
     = JsNumber.Finite q ->
     compareRows host this column a b = JsNumber.NegInfinity
     /\ JsNumber.isNegative (compareRows host this column a b) = true
     /\ compareRows host this column b a = JsNumber.PosInfinity)
  /\ (forall op value,
        JsDate.parse host cell = None \/ searchValDate host value = None ->
        evaluateCell host this op value cell column = false)
  /\ (forall op value cDate sDate,
        JsDate.parse host cell = Some cDate ->
        searchValDate host value = Some sDate ->
        evaluateCell host this op value cell column
        = applyOperator op (JsNumber.ofZ cDate) (JsNumber.ofZ sDate)).
Proof.
  intros T N. split; [|split].
  - intros a b q S A B. subst cell.
    destruct (compareRows_number_unparseable_first host this column a b q T S N B)
      as [E1 E2].
    rewrite E1, E2. auto.
  - intros op value H.
    rewrite (evaluateCell_unparseable_number _ _ _ _ _ _ T N).
    destruct H as [-> | ->]; [reflexivity|].
    destruct (JsDate.parse host cell); reflexivity.
  - intros op value cDate sDate C S.
    rewrite (evaluateCell_unparseable_number _ _ _ _ _ _ T N), C, S.
    reflexivity.
Qed.

Lemma C5_witness :
  typeOf (columnAt (Sample.table "number" [] None true) 0) = "number"
  /\ JsNumber.parseFloat (JsNumber.stripNonNumeric "n/a") = JsNumber.NaN
  /\ evaluateCell Sample.host (Sample.table "number" [] None true)
       OpGt "10" "n/a" 0 = false.
Proof.
  split; [reflexivity|]. split; [reflexivity|].
  apply (C5_unparseable_number_cell Sample.host
           (Sample.table "number" [] None true) 0 "n/a" eq_refl eq_refl).
  left. reflexivity.
Defined.

(** C5 as stated fails: on a host whose [Date.parse] reads [--1] as a date
    (V8 reads it as the first of January 2001), the cell [--1] of a column
    typed [number] does not parse as a number and yet satisfies [> 2000]. *)
Lemma C5_counterexample :
  typeOf (columnAt (Sample.table "number" [] None true) 0) = "number"
  /\ JsNumber.parseFloat (JsNumber.stripNonNumeric "--1") = JsNumber.NaN
  /\ evaluateCell Sample.host (Sample.table "number" [] None true)
       OpGt "2000" "--1" 0 = true.
Proof. vm_compute. repeat split; reflexivity. Qed.

End ComparatorFacts.

(** ** Filtering and sorting *)

Section RenderFacts.
Import JsString Csv2Table.

Lemma imap_cells (l : list Row) : forall f : nat -> Row -> Row,
  (forall i r, cells (f i r) = cells r) ->
  map cells (imap f l) = map cells l.
Proof.
  induction l as [|x l IH]; intros f Hf; [reflexivity|].
  simpl. rewrite Hf. f_equal. apply IH. intros i r. apply Hf.
Qed.

Lemma insertSorted_Permutation {A} (cmp : A -> A -> JsNumber.number) x l :
  Permutation (insertSorted cmp x l) (x :: l).
Proof.
  induction l as [|y l IH]; simpl; [reflexivity|].
  destruct (JsNumber.isPositive (sortCompare cmp y x)); [reflexivity|].
  rewrite IH. apply perm_swap.
Qed.

Lemma sort_Permutation {A} (cmp : A -> A -> JsNumber.number) l :
  Permutation (sort cmp l) l.
Proof.
  unfold sort.
  assert (G : forall acc, Permutation
                (fold_left (fun acc x => insertSorted cmp x acc) l acc)
                (app acc l)).
  { induction l as [|x l IH]; intros acc; simpl.
    - rewrite app_nil_r. reflexivity.
    - rewrite IH, insertSorted_Permutation.
      change (x :: acc) with (app [x] acc).
      rewrite (Permutation_app_comm [x] acc), <- app_assoc. reflexivity. }
  apply (G []).
Qed.

(** With the AST that the instance caches for its query text, the filter
    keeps the rows that the parsed query text is true of. *)
Lemma keepRow_query host this row :
  searchAST this = parseSearchQuery (searchQuery this) ->
  keepRow host this row
  = evaluateSearchAST host this (parseSearchQuery (searchQuery this)) row.
Proof.
  intros E. unfold keepRow. rewrite E. unfold parseSearchQuery.
  destruct (negb (nonEmpty (searchQuery this))
            || negb (nonEmpty (trim (searchQuery this)))); [reflexivity|].
  simpl.
  destruct (match tokenize (searchQuery this) with
            | Some tokens => parseTokens tokens
            | None => None
            end); reflexivity.
Qed.

(** The evaluator reads the header row, the column configuration and the
    visible columns of the instance, and nothing else of it. *)
Lemma evaluateNode_fields host this other (node : ast) (row : Row) :
  headers other = headers this ->
  columns other = columns this ->
  visibleColumns other = visibleColumns this ->
  evaluateNode host other node row = evaluateNode host this node row.
Proof.
  intros H C V.
  assert (T : forall column, targetColIndex other column = targetColIndex this column).
  { intros column. unfold targetColIndex. rewrite H. reflexivity. }
  assert (S : forall i cell, searchText host other i cell = searchText host this i cell).
  { intros i cell. unfold searchText, columnAt. rewrite C. reflexivity. }
  assert (E : forall op value cell i,
            evaluateCell host other op value cell i
            = evaluateCell host this op value cell i).
  { intros op value cell i. unfold evaluateCell, columnAt. rewrite C.
    reflexivity. }
  induction node as [l IHl r IHr|l IHl r IHr|column value|column op value];
    cbn [evaluateNode].
  - rewrite IHl, IHr. reflexivity.
  - rewrite IHl, IHr. reflexivity.
  - unfold evaluateTerm. rewrite T.
    destruct (RegExp.new (termPattern value) true) as [re|]; [|reflexivity].
    destruct (targetColIndex this column) as [i|]; [rewrite S; reflexivity|].
    apply someFrom_ext. intros cell i. rewrite V, S. reflexivity.
  - unfold evaluateInequality. rewrite T.
    destruct (targetColIndex this column) as [i|]; [apply E|].
    apply someFrom_ext. intros cell i. rewrite V, E. reflexivity.
Qed.

Lemma insertSorted_ext {A} (f g : A -> A -> JsNumber.number) x (l : list A) :
  (forall a b, f a b = g a b) -> insertSorted f x l = insertSorted g x l.
Proof.
  intros H. induction l as [|y l IH]; [reflexivity|].
  cbn [insertSorted]. unfold sortCompare. rewrite H, IH. reflexivity.
Qed.

Lemma sort_ext {A} (f g : A -> A -> JsNumber.number) (l : list A) :
  (forall a b, f a b = g a b) -> sort f l = sort g l.
Proof.
  intros H. unfold sort. generalize (@nil A).
  induction l as [|x l IH]; intros acc; [reflexivity|].
  cbn [fold_left]. rewrite (insertSorted_ext f g x acc H). apply IH.
Qed.

Lemma imap_setOriginalIndex_cells (l1 l2 : list Row) :
  map cells l1 = map cells l2 ->
  imap setOriginalIndex l1 = imap setOriginalIndex l2.
Proof.
  intros H. apply list_eq. intros i. rewrite !list_lookup_imap.
  assert (E : (map cells l1) !! i = (map cells l2) !! i) by (rewrite H; reflexivity).
  change (map cells l1) with (cells <$> l1) in E.
  change (map cells l2) with (cells <$> l2) in E.
  rewrite !list_lookup_fmap in E.
  destruct (l1 !! i) as [r1|], (l2 !! i) as [r2|]; try discriminate E;
    [|reflexivity].
  injection E as E. cbn. unfold setOriginalIndex. rewrite E. reflexivity.
Qed.

(** The rows to show and the rows after the pass are the same for two
    instances that agree on the cells of their rows, the query text with its
    cached tree, the sort state, the column configuration, the visible
    columns and the header row. *)
Lemma filterAndSort_fields host this other :
  map cells (data other) = map cells (data this) ->
  searchQuery other = searchQuery this ->
  searchAST other = searchAST this ->
  sortColumn other = sortColumn this ->
  sortAsc other = sortAsc this ->
  columns other = columns this ->
  visibleColumns other = visibleColumns this ->
  headers other = headers this ->
  filterAndSort host other = filterAndSort host this.
Proof.
  intros D Q A SC SA C V H. unfold filterAndSort.
  rewrite (imap_setOriginalIndex_cells _ _ D), SC.
  assert (K : forall row, keepRow host other row = keepRow host this row).
  { intros row. unfold keepRow, evaluateSearchAST. rewrite Q, A.
    destruct (searchAST this) as [node|]; [|reflexivity].
    rewrite (evaluateNode_fields host this other node row H C V).
    reflexivity. }
  rewrite (filter_ext _ _ K).
  destruct (sortColumn this) as [column|]; [|reflexivity].
  f_equal. apply sort_ext. intros a b.
  unfold compareRows, columnAt. rewrite C, SA. reflexivity.
Qed.

(** C6, as the code has it.  The rows to show are a function of the cells
    of the rows, the query text, the sort state, the column configuration,
    the visible columns and the header row, against which the column
    qualifiers of the query are resolved, when the cached tree is the parse
    of the query text.  They are computed without changing a cell or the
    order of [this.data]; the pass does write to the rows: it sets
    [_originalIndex] of the row at index [i] to [i], which changes nothing
    on rows that already carry their index.  The rows shown are the rows
    that the query keeps, in the order of [this.data] when there is no sort
    column, and reordered otherwise. *)
Theorem C6_filter_and_sort_effect (host : Host) (this : Table) :
  let data' := fst (filterAndSort host this) in
  let shown := snd (filterAndSort host this) in
  (forall other : Table,
     map cells (data other) = map cells (data this) ->
     searchQuery other = searchQuery this ->
     searchAST this = parseSearchQuery (searchQuery this) ->
     searchAST other = parseSearchQuery (searchQuery other) ->
     sortColumn other = sortColumn this ->
     sortAsc other = sortAsc this ->
     columns other = columns this ->
     visibleColumns other = visibleColumns this ->
     headers other = headers this ->
     filterAndSort host other = filterAndSort host this)
  /\ map cells data' = map cells (data this)
  /\ (forall i row, data' !! i = Some row -> _originalIndex row = Some i)
  /\ ((forall i row, data this !! i = Some row -> _originalIndex row = Some i) ->
      data' = data this)
  /\ Permutation shown (List.filter (keepRow host this) data')
  /\ (sortColumn this = None -> shown = List.filter (keepRow host this) data')
  /\ (searchAST this = parseSearchQuery (searchQuery this) ->
      forall row,
        keepRow host this row
        = evaluateSearchAST host this (parseSearchQuery (searchQuery this)) row).
Proof.
  cbv zeta. split.
  { intros other D Q A A' SC SA C V H.
    apply filterAndSort_fields; try assumption.
    rewrite A, A', Q. reflexivity. }
  unfold filterAndSort. cbn [fst snd]. split; [|split; [|split; [|split; [|split]]]].
  - apply imap_cells. reflexivity.
  - intros i row H. rewrite list_lookup_imap in H.
    destruct (data this !! i) as [r|]; [|discriminate].
    inversion H; subst. reflexivity.
  - intros H. apply list_eq. intros i. rewrite list_lookup_imap.
    destruct (data this !! i) as [r|] eqn:E; [|reflexivity].
    simpl. f_equal. specialize (H i r E).
    destruct r as [c o]. simpl in H. subst o. reflexivity.
  - destruct (sortColumn this); [apply sort_Permutation | reflexivity].
  - intros ->. reflexivity.
  - intros E row. apply keepRow_query. exact E.
Qed.

(** C6 as stated fails twice.  After the pass over a table whose one row
    has no [_originalIndex], the row has one: the input rows are not left
    unchanged.  And two tables with the same row, query text, sort state,
    column configuration and visible columns, but with the two headers in
    the other order, show different rows: the query [name:ann] keeps the row
    under the headers [name], [age] and drops it under [age], [name]. *)
Lemma C6_counterexample :
  data (Sample.table "string" [Sample.row "a"] None true)
  = [ {| cells := ["a"]; _originalIndex := None |} ]
  /\ fst (filterAndSort Sample.host
            (Sample.table "string" [Sample.row "a"] None true))
     = [ {| cells := ["a"]; _originalIndex := Some 0%nat |} ]
  /\ fst (filterAndSort Sample.host
            (Sample.table "string" [Sample.row "a"] None true))
     <> data (Sample.table "string" [Sample.row "a"] None true)
  /\ snd (filterAndSort Sample.host
            (Sample.queried ["name"; "age"] "name:ann"
               [Sample.person "Ann" "31"]))
     = [ {| cells := ["Ann"; "31"]; _originalIndex := Some 0%nat |} ]
  /\ snd (filterAndSort Sample.host
            (Sample.queried ["age"; "name"] "name:ann"
               [Sample.person "Ann" "31"]))
     = [].
Proof.
  split; [reflexivity|]. split; [reflexivity|].
  split; [intros H; discriminate H|].
  split; vm_compute; reflexivity.
Qed.

End RenderFacts.

(** ** Dates *)

Section DateFacts.
Import JsString Csv2Table.

(** When [new RegExp] throws on the pattern of a format, the format plays
    no part: the date is whatever [new Date(dateStr)] is. *)
Lemma parseDateString_rejected_pattern host dateStr fmt :
  nonEmpty fmt = true ->
  RegExp.new ("^" +:+ datePattern fmt +:+ "$") false = None ->
  parseDateString host dateStr (Some fmt)
  = if negb (nonEmpty dateStr) || (trim dateStr =? "-") || (trim dateStr =? "")
    then None else JsDate.parse host dateStr.
Proof.
  intros F R. unfold parseDateString.
  destruct (negb (nonEmpty dateStr) || (trim dateStr =? "-") || (trim dateStr =? ""));
    [reflexivity|].
  simpl truthy. rewrite F. simpl negb. cbv iota.
  change (default "" (Some fmt)) with fmt. rewrite R. reflexivity.
Qed.

Lemma formatTimestamp_fields host t (y mo d h mi sec : Z) :
  JsDate.getFullYear host t = y -> JsDate.getMonth host t = mo ->
  JsDate.getDate host t = d -> JsDate.getHours host t = h ->
  JsDate.getMinutes host t = mi -> JsDate.getSeconds host t = sec ->
  let two n := padStart 2 "0" (JsString.ofZ n) in
  let time := two h +:+ ":" +:+ two mi +:+ ":" +:+ two sec +:+ "" in
  formatTimestamp host t "DD/MM/YYYY HH:mm:ss" None
  = two d +:+ "/" +:+ two (mo + 1)%Z +:+ "/" +:+ JsString.ofZ y +:+ " " +:+ time
  /\ formatTimestamp host t "MM/DD/YYYY HH:mm:ss" None
     = two (mo + 1)%Z +:+ "/" +:+ two d +:+ "/" +:+ JsString.ofZ y +:+ " " +:+ time.
Proof.
  intros <- <- <- <- <- <-. split; reflexivity.
Qed.

(** The chain of replacements writes a group into the name of the group
    before it, and [new RegExp] rejects the result. *)
Lemma datePattern_rejected :
  datePattern "YYYY/MM/DD"
  = "(?<(?<YY>\d{2})YY>\d{4})/(?<(?<M>\d{1,2})M>\d{2})/(?<(?<D>\d{1,2})D>\d{2})"
  /\ RegExp.parsePattern ("^" +:+ datePattern "YYYY/MM/DD" +:+ "$")
     = RegExp.SyntaxError
  /\ RegExp.parsePattern ("^" +:+ datePattern "DD/MM/YYYY HH:mm:ss" +:+ "$")
     = RegExp.SyntaxError
  /\ RegExp.parsePattern ("^" +:+ datePattern "MM/DD/YYYY HH:mm:ss" +:+ "$")
     = RegExp.SyntaxError.
Proof. vm_compute. repeat split; reflexivity. Qed.

(** C1.  The failing input: the formats [DD/MM/YYYY HH:mm:ss] and
    [MM/DD/YYYY HH:mm:ss].  The second of January 2023, 03:04:05, in the
    first and the first of February 2023, 03:04:05, in the second are both
    written [02/01/2023 03:04:05]; [new RegExp] rejects the pattern of either
    format, so [parseDateString] returns for both what
    [new Date("02/01/2023 03:04:05")] is; the two dates differ, so at least
    one of them does not come back. *)
Theorem C1_round_trip_fails (host : Host) (tA tB : Z) :
  JsDate.getFullYear host tA = 2023%Z -> JsDate.getMonth host tA = 0%Z ->
  JsDate.getDate host tA = 2%Z -> JsDate.getHours host tA = 3%Z ->
  JsDate.getMinutes host tA = 4%Z -> JsDate.getSeconds host tA = 5%Z ->
  JsDate.getFullYear host tB = 2023%Z -> JsDate.getMonth host tB = 1%Z ->
  JsDate.getDate host tB = 1%Z -> JsDate.getHours host tB = 3%Z ->
  JsDate.getMinutes host tB = 4%Z -> JsDate.getSeconds host tB = 5%Z ->
  formatTimestamp host tA "DD/MM/YYYY HH:mm:ss" None = "02/01/2023 03:04:05"
  /\ formatTimestamp host tB "MM/DD/YYYY HH:mm:ss" None = "02/01/2023 03:04:05"
  /\ parseDateString host "02/01/2023 03:04:05" (Some "DD/MM/YYYY HH:mm:ss")
     = JsDate.parse host "02/01/2023 03:04:05"
  /\ parseDateString host "02/01/2023 03:04:05" (Some "MM/DD/YYYY HH:mm:ss")
     = JsDate.parse host "02/01/2023 03:04:05"
  /\ ~ (parseDateString host
          (formatTimestamp host tA "DD/MM/YYYY HH:mm:ss" None)
          (Some "DD/MM/YYYY HH:mm:ss") = Some tA
        /\ parseDateString host
             (formatTimestamp host tB "MM/DD/YYYY HH:mm:ss" None)
             (Some "MM/DD/YYYY HH:mm:ss") = Some tB).
Proof.
  intros YA MA DA HA IA SA YB MB DB HB IB SB.
  assert (FA : formatTimestamp host tA "DD/MM/YYYY HH:mm:ss" None
               = "02/01/2023 03:04:05")
    by exact (proj1 (formatTimestamp_fields host tA _ _ _ _ _ _
                       YA MA DA HA IA SA)).
  assert (FB : formatTimestamp host tB "MM/DD/YYYY HH:mm:ss" None
               = "02/01/2023 03:04:05")
    by exact (proj2 (formatTimestamp_fields host tB _ _ _ _ _ _
                       YB MB DB HB IB SB)).
  assert (PA : parseDateString host "02/01/2023 03:04:05"
                 (Some "DD/MM/YYYY HH:mm:ss")
               = JsDate.parse host "02/01/2023 03:04:05").
  { rewrite parseDateString_rejected_pattern; [reflexivity | reflexivity |].
    unfold RegExp.new.
    destruct datePattern_rejected as (_ & _ & -> & _). reflexivity. }
  assert (PB : parseDateString host "02/01/2023 03:04:05"
                 (Some "MM/DD/YYYY HH:mm:ss")
               = JsDate.parse host "02/01/2023 03:04:05").
  { rewrite parseDateString_rejected_pattern; [reflexivity | reflexivity |].
    unfold RegExp.new.
    destruct datePattern_rejected as (_ & _ & _ & ->). reflexivity. }
  split; [exact FA|]. split; [exact FB|].
  split; [exact PA|]. split; [exact PB|].
  rewrite FA, FB, PA, PB. intros [EA EB]. rewrite EA in EB.
  inversion EB; subst tB. rewrite MA in MB. discriminate MB.
Qed.

Lemma C1_witness :
  JsDate.getDate Sample.host 1672628645000 = 2%Z
  /\ JsDate.getMonth Sample.host 1675220645000 = 1%Z
  /\ formatTimestamp Sample.host 1672628645000 "DD/MM/YYYY HH:mm:ss" None
     = "02/01/2023 03:04:05"
  /\ formatTimestamp Sample.host 1675220645000 "MM/DD/YYYY HH:mm:ss" None
     = "02/01/2023 03:04:05".
Proof.
  assert (YA : JsDate.getFullYear Sample.host 1672628645000 = 2023%Z)
    by (vm_compute; reflexivity).
  assert (MA : JsDate.getMonth Sample.host 1672628645000 = 0%Z)
    by (vm_compute; reflexivity).
  assert (DA : JsDate.getDate Sample.host 1672628645000 = 2%Z)
    by (vm_compute; reflexivity).
  assert (HA : JsDate.getHours Sample.host 1672628645000 = 3%Z)
    by (vm_compute; reflexivity).
  assert (IA : JsDate.getMinutes Sample.host 1672628645000 = 4%Z)
    by (vm_compute; reflexivity).
  assert (SA : JsDate.getSeconds Sample.host 1672628645000 = 5%Z)
    by (vm_compute; reflexivity).
  assert (YB : JsDate.getFullYear Sample.host 1675220645000 = 2023%Z)
    by (vm_compute; reflexivity).
  assert (MB : JsDate.getMonth Sample.host 1675220645000 = 1%Z)
    by (vm_compute; reflexivity).
  assert (DB : JsDate.getDate Sample.host 1675220645000 = 1%Z)
    by (vm_compute; reflexivity).
  assert (HB : JsDate.getHours Sample.host 1675220645000 = 3%Z)
    by (vm_compute; reflexivity).
  assert (IB : JsDate.getMinutes Sample.host 1675220645000 = 4%Z)
    by (vm_compute; reflexivity).
  assert (SB : JsDate.getSeconds Sample.host 1675220645000 = 5%Z)
    by (vm_compute; reflexivity).
  destruct (C1_round_trip_fails Sample.host _ _
              YA MA DA HA IA SA YB MB DB HB IB SB) as (FA & FB & _).
  exact (conj DA (conj MB (conj FA FB))).
Defined.


End DateFacts.

(** ** Reading the CSV text *)

Section CsvFacts.
Import JsString Csv2Table.

Lemma append_assoc_string (a b c : string) : (a +:+ b) +:+ c = a +:+ (b +:+ c).
Proof.
  induction a as [|x a IH]; [reflexivity|].
  change (String x a +:+ b) with (String x (a +:+ b)).
  change (String x (a +:+ b) +:+ c) with (String x ((a +:+ b) +:+ c)).
  rewrite IH. reflexivity.
Qed.

Lemma joinFields_cons x y l :
  joinFields (x :: y :: l) = x +:+ String "," (joinFields (y :: l)).
Proof. reflexivity. Qed.

Lemma joinFields_addChar l v c :
  joinFields (app l [addChar v c]) = joinFields (app l [v]) +:+ String c "".
Proof.
  induction l as [|x l IH]; [reflexivity|].
  destruct l as [|y l].
  - simpl app. rewrite !joinFields_cons. simpl joinFields. unfold addChar.
    rewrite append_assoc_string. reflexivity.
  - change (app (x :: y :: l) [addChar v c])
      with (x :: y :: app l [addChar v c]).
    change (app (x :: y :: l) [v]) with (x :: y :: app l [v]).
    rewrite !joinFields_cons.
    change (y :: app l [addChar v c]) with (app (y :: l) [addChar v c]).
    change (y :: app l [v]) with (app (y :: l) [v]).
    rewrite IH, append_assoc_string. reflexivity.
Qed.

Lemma joinFields_push l v :
  joinFields (app (app l [v]) [""]) = joinFields (app l [v]) +:+ ",".
Proof.
  induction l as [|x l IH]; [simpl; reflexivity|].
  destruct l as [|y l].
  - simpl app. rewrite !joinFields_cons. simpl joinFields.
    rewrite append_assoc_string. reflexivity.
  - change (app (app (x :: y :: l) [v]) [""])
      with (x :: y :: app (app l [v]) [""]).
    change (app (x :: y :: l) [v]) with (x :: y :: app l [v]).
    rewrite !joinFields_cons.
    change (y :: app (app l [v]) [""]) with (app (app (y :: l) [v]) [""]).
    change (y :: app l [v]) with (app (y :: l) [v]).
    rewrite IH, append_assoc_string. reflexivity.
Qed.

Lemma csvLoop_unquoted text : forall value ret,
  countChar quote text = 0%nat ->
  joinFields (csvLoop text false value ret) = joinFields (app ret [value]) +:+ text
  /\ length (csvLoop text false value ret)
     = (length ret + 1 + countChar "," text)%nat
  /\ (Forall (fun f => countChar "," f = 0%nat) ret ->
      countChar "," value = 0%nat ->
      Forall (fun f => countChar "," f = 0%nat) (csvLoop text false value ret)).
Proof.
  induction text as [|c r IH]; intros value ret Q.
  - simpl. rewrite append_empty, length_app. simpl. repeat split; [lia|].
    intros F V. apply Forall_app. split; [exact F | constructor; auto].
  - simpl in Q. cbn [csvLoop].
    destruct (Ascii.eqb c quote) eqn:E; [discriminate Q|]. simpl in Q.
    destruct (Ascii.eqb_spec c ",") as [->|Hc].
    + destruct (IH "" (app ret [value]) Q) as (J & L & F).
      rewrite J, L, joinFields_push, append_assoc_string, length_app.
      simpl. repeat split; [lia|].
      intros Fr V. apply F; [|reflexivity].
      apply Forall_app. split; [exact Fr | constructor; auto].
    + destruct (IH (addChar value c) ret Q) as (J & L & F).
      rewrite J, L, joinFields_addChar, append_assoc_string.
      assert (N : Ascii.eqb c "," = false) by (apply Ascii.eqb_neq; exact Hc).
      simpl. rewrite N. repeat split.
      intros Fr V. apply F; [exact Fr|].
      unfold addChar. clear -V N. induction value as [|x v IHv].
      * simpl. rewrite N. reflexivity.
      * change (String x v +:+ String c "") with (String x (v +:+ String c "")).
        simpl in *. destruct (Ascii.eqb x ","); [discriminate V|].
        apply IHv. exact V.
Qed.

(** X1 (parseCsvLine, unquoted line): on a line without a double quote
    the fields are exactly the pieces between the commas: joining them
    with commas gives the line back, there is one field more than there
    are commas, and no field contains a comma. *)
Theorem parseCsvLine_unquoted (text : string) :
  countChar quote text = 0%nat ->
  joinFields (parseCsvLine text) = text
  /\ length (parseCsvLine text) = S (countChar "," text)
  /\ Forall (fun f => countChar "," f = 0%nat) (parseCsvLine text).
Proof.
  intros Q. unfold parseCsvLine.
  destruct (csvLoop_unquoted text "" [] Q) as (J & L & F).
  repeat split.
  - rewrite J. reflexivity.
  - rewrite L. simpl. lia.
  - apply F; [constructor | reflexivity].
Qed.

Lemma parseCsvLine_unquoted_witness :
  joinFields (parseCsvLine "a,b c,,d") = "a,b c,,d"
  /\ length (parseCsvLine "a,b c,,d") = S (countChar "," "a,b c,,d")
  /\ Forall (fun f => countChar "," f = 0%nat) (parseCsvLine "a,b c,,d").
Proof. apply (parseCsvLine_unquoted "a,b c,,d"). reflexivity. Defined.

Lemma csvLoop_quoted (f : string) : forall value ret rest,
  (forall r, rest <> String quote r) ->
  csvLoop (doubleQuotes f +:+ String quote rest) true value ret
  = csvLoop rest false (value +:+ f) ret.
Proof.
  induction f as [|c f IH]; intros value ret rest R.
  - rewrite append_empty. change (doubleQuotes "" +:+ String quote rest)
      with (String quote rest).
    cbn [csvLoop]. rewrite Ascii.eqb_refl.
    destruct rest as [|d r']; [reflexivity|].
    destruct (Ascii.eqb_spec d quote) as [->|_]; [|reflexivity].
    exfalso. exact (R r' eq_refl).
  - cbn [doubleQuotes]. destruct (Ascii.eqb c quote) eqn:E.
    + apply Ascii.eqb_eq in E. subst c.
      change (String quote (String quote (doubleQuotes f)) +:+ String quote rest)
        with (String quote (String quote (doubleQuotes f +:+ String quote rest))).
      cbn [csvLoop]. rewrite Ascii.eqb_refl.
      rewrite IH by exact R. unfold addChar.
      rewrite append_assoc_string. reflexivity.
    + change (String c (doubleQuotes f) +:+ String quote rest)
        with (String c (doubleQuotes f +:+ String quote rest)).
      cbn [csvLoop]. rewrite E.
      rewrite IH by exact R. unfold addChar.
      rewrite append_assoc_string. reflexivity.
Qed.

Lemma csvLoop_quoteField (f rest : string) (ret : list string) :
  (forall r, rest <> String quote r) ->
  csvLoop (quoteField f +:+ rest) false "" ret = csvLoop rest false f ret.
Proof.
  intros R. unfold quoteField.
  change (String quote (doubleQuotes f +:+ String quote "") +:+ rest)
    with (String quote ((doubleQuotes f +:+ String quote "") +:+ rest)).
  rewrite append_assoc_string.
  change (String quote "" +:+ rest) with (String quote rest).
  cbn [csvLoop]. rewrite Ascii.eqb_refl.
  change (Ascii.eqb quote ",") with false. cbv iota.
  rewrite csvLoop_quoted by exact R. reflexivity.
Qed.

Lemma csvLoop_quoted_fields (fields : list string) : forall f ret,
  csvLoop (joinFields (map quoteField (f :: fields))) false "" ret
  = app ret (f :: fields).
Proof.
  induction fields as [|g fields IH]; intros f ret.
  - change (joinFields (map quoteField [f])) with (quoteField f).
    rewrite <- (append_empty (quoteField f)).
    rewrite csvLoop_quoteField by (intros r; discriminate).
    reflexivity.
  - change (map quoteField (f :: g :: fields))
      with (quoteField f :: quoteField g :: map quoteField fields).
    rewrite joinFields_cons.
    rewrite csvLoop_quoteField by (intros r; discriminate).
    cbn [csvLoop]. change (Ascii.eqb "," quote) with false.
    change (Ascii.eqb "," ",") with true. cbv iota.
    change (quoteField g :: map quoteField fields)
      with (map quoteField (g :: fields)).
    rewrite IH, <- app_assoc. reflexivity.
Qed.

(** X2 (parseCsvLine, quoted fields): writing every field between double
    quotes, with each double quote of the field doubled, and joining the
    fields with commas is undone by parseCsvLine, whatever the fields
    contain (commas, quotes, line breaks). *)
Theorem parseCsvLine_quoted_round_trip (fields : list string) :
  fields <> [] ->
  parseCsvLine (joinFields (map quoteField fields)) = fields.
Proof.
  intros N. destruct fields as [|f fields]; [contradiction|].
  unfold parseCsvLine. rewrite csvLoop_quoted_fields. reflexivity.
Qed.

Lemma parseCsvLine_quoted_round_trip_witness :
  parseCsvLine (joinFields (map quoteField ["a,b"; String quote "x"; ""]))
  = ["a,b"; String quote "x"; ""].
Proof.
  apply (parseCsvLine_quoted_round_trip ["a,b"; String quote "x"; ""]).
  discriminate.
Defined.

Lemma split_length sep s : length (split sep s) = S (countChar sep s).
Proof.
  induction s as [|c r IH]; [reflexivity|].
  cbn [split countChar]. destruct (Ascii.eqb c sep).
  - simpl. rewrite IH. reflexivity.
  - destruct (split sep r) as [|x l]; [discriminate IH|]. exact IH.
Qed.

Lemma csvLoop_nonempty (n : nat) : forall text inQuote value ret,
  (String.length text <= n)%nat -> csvLoop text inQuote value ret <> [].
Proof.
  induction n as [|n IH]; intros text inQuote value ret L.
  - destruct text; [|simpl in L; lia]. simpl. destruct ret; discriminate.
  - destruct text as [|c r]; [simpl; destruct ret; discriminate|].
    simpl in L. cbn [csvLoop].
    destruct inQuote.
    + destruct (Ascii.eqb c quote).
      * destruct r as [|d r']; [simpl; destruct ret; discriminate|].
        destruct (Ascii.eqb d quote); apply IH; simpl in *; lia.
      * apply IH. lia.
    + destruct (Ascii.eqb c quote); [apply IH; lia|].
      destruct (Ascii.eqb c ","); apply IH; lia.
Qed.

Lemma parseCsvLine_nonempty text : parseCsvLine text <> [].
Proof. apply (csvLoop_nonempty (String.length text)). lia. Qed.

(** X3 (parseCsv, shape of the table): the header row always has at least
    one field, every data row has at least one cell and no original index
    yet, and there are as many data rows as the trimmed text (carriage
    returns removed) has line feeds - a line feed between double quotes
    starts a new row like any other. *)
Theorem parseCsv_shape (this : Table) (text : string) :
  headers (parseCsv this text) <> []
  /\ length (data (parseCsv this text))
     = countChar newline (trim (removeCarriageReturns text))
  /\ Forall (fun r => cells r <> [] /\ _originalIndex r = None)
       (data (parseCsv this text)).
Proof.
  unfold parseCsv.
  pose proof (split_length newline (trim (removeCarriageReturns text))) as L.
  destruct (split newline (trim (removeCarriageReturns text))) as [|first rest];
    [discriminate L|].
  cbn [headers data]. repeat split.
  - apply parseCsvLine_nonempty.
  - rewrite length_map. simpl in L. lia.
  - apply List.Forall_forall. intros r Hin. apply in_map_iff in Hin.
    destruct Hin as (line & <- & _). split; [|reflexivity].
    apply parseCsvLine_nonempty.
Qed.

Lemma removeCarriageReturns_allWhiteSpace s :
  allWhiteSpace s = true -> allWhiteSpace (removeCarriageReturns s) = true.
Proof.
  induction s as [|c r IH]; [reflexivity|].
  cbn [allWhiteSpace removeCarriageReturns]. intros W.
  apply andb_true_iff in W. destruct W as (Wc & Wr).
  destruct (Ascii.eqb c carriageReturn); [exact (IH Wr)|].
  cbn [allWhiteSpace]. rewrite Wc, (IH Wr). reflexivity.
Qed.

(** X4 (parseCsv, blank text): a text of white space only (the empty text
    included) is not rejected: it gives a table with the single header
    [""] (the empty string) and no data row. *)
Theorem parseCsv_blank (this : Table) (text : string) :
  allWhiteSpace text = true ->
  headers (parseCsv this text) = [""] /\ data (parseCsv this text) = [].
Proof.
  intros W. unfold parseCsv.
  rewrite (trim_allWhiteSpace _ (removeCarriageReturns_allWhiteSpace _ W)).
  split; reflexivity.
Qed.

Lemma parseCsv_blank_witness :
  headers (parseCsv (Sample.people []) (String newline "  ")) = [""]
  /\ data (parseCsv (Sample.people []) (String newline "  ")) = [].
Proof.
  apply (parseCsv_blank (Sample.people []) (String newline "  ")).
  reflexivity.
Defined.

Example parseCsv_examples :
  parseCsvLine ("a," +:+ String quote ("b,c" +:+ String quote ",d"))
  = ["a"; "b,c"; "d"]
  /\ parseCsvLine (String quote ("x" +:+ String quote (String quote
                     ("y" +:+ String quote ""))))
     = ["x" +:+ String quote "y"]
  /\ parseCsvLine "" = [""]
  /\ headers (parseCsv (Sample.people []) Sample.twoLines) = ["name"; "age"]
  /\ data (parseCsv (Sample.people []) Sample.twoLines)
     = [ {| cells := ["Ann"; "31"]; _originalIndex := None |} ].
Proof. repeat split. Qed.

End CsvFacts.

(** ** The instance: init and the events *)

Section InstanceFacts.
Import JsString Csv2Table.
Context (host : Host).

Lemma showColumns_spec hidden (headers : list string) : forall i visible j,
  j ∈ showColumns hidden i headers visible
  <-> j ∈ visible
      \/ (i <= j)%nat
         /\ exists h, headers !! (j - i)%nat = Some h
                      /\ includesIndex hidden j = false
                      /\ includesName hidden h = false.
Proof.
  induction headers as [|h0 rest IH]; intros i visible j; cbn [showColumns].
  - split; [auto|]. intros [H|(_ & h & H & _)]; [exact H | discriminate H].
  - rewrite IH. split.
    + intros [H|(L & h & E & Hi & Hn)].
      * destruct (includesIndex hidden i || includesName hidden h0) eqn:Hid;
          [left; exact H|].
        apply elem_of_union in H. destruct H as [H|H]; [|left; exact H].
        apply elem_of_singleton in H. subst j. right.
        apply orb_false_iff in Hid. destruct Hid as (Hi & Hn).
        split; [lia|]. exists h0. rewrite Nat.sub_diag. auto.
      * right. split; [lia|]. exists h. repeat split; auto.
        replace (j - i)%nat with (S (j - S i)) by lia. exact E.
    + intros [H|(L & h & E & Hi & Hn)].
      * left. destruct (includesIndex hidden i || includesName hidden h0);
          [exact H | apply elem_of_union; right; exact H].
      * destruct (decide (j = i)) as [->|Hne].
        -- left. rewrite Nat.sub_diag in E. injection E as <-.
           rewrite Hi, Hn. apply elem_of_union. left.
           apply elem_of_singleton. reflexivity.
        -- right. split; [lia|]. exists h. repeat split; auto.
           replace (j - i)%nat with (S (j - S i)) in E by lia. exact E.
Qed.

Lemma load_headers fetch options this loaded :
  load fetch options this = Some loaded ->
  columns loaded = columns this
  /\ sortColumn loaded = sortColumn this
  /\ sortAsc loaded = sortAsc this
  /\ visibleColumns loaded = visibleColumns this.
Proof.
  unfold load, parseCsv. intros E.
  destruct (truthy (Options.csvUrl options)).
  - destruct (fetch _) as [text|]; [|discriminate E].
    injection E as <-.
    destruct (split newline _); repeat split; reflexivity.
  - destruct (truthy (Options.csvData options)).
    + injection E as <-.
      destruct (split newline _); repeat split; reflexivity.
    + injection E as <-. repeat split; reflexivity.
Qed.

Lemma load_responds fetch options this :
  responds fetch options = bool_decide (is_Some (load fetch options this)).
Proof.
  unfold responds, load.
  destruct (truthy (Options.csvUrl options)).
  - destruct (fetch _); reflexivity.
  - destruct (truthy (Options.csvData options)); reflexivity.
Qed.

Lemma parseCsv_headers this text :
  headers (parseCsv this text)
  = parseCsvLine (hd "" (split newline (trim (removeCarriageReturns text)))).
Proof.
  unfold parseCsv.
  pose proof (split_length newline (trim (removeCarriageReturns text))) as L.
  destruct (split newline (trim (removeCarriageReturns text))) as [|first rest];
    [discriminate L | reflexivity].
Qed.

(** X5 (init): after [new Csv2Table(options)] the header row is the first
    line of the loaded text, split by [parseCsvLine]: the text is the
    response when [csvUrl] is given, [csvData] otherwise; there is no
    header when the request fails or when neither is given.  The visible
    columns are exactly the columns of that header row that
    [hiddenColumns] names neither by index nor by header text; a header
    text in [hiddenColumns] hides every column that has it.  When the
    request fails there is no header and no visible column. *)
Theorem create_visibleColumns fetch container options :
  headers (create host fetch container options)
  = (if truthy (Options.csvUrl options) then
       match fetch (default "" (Options.csvUrl options)) with
       | Some text =>
           parseCsvLine
             (hd "" (split newline (trim (removeCarriageReturns text))))
       | None => []
       end
     else if truthy (Options.csvData options) then
       parseCsvLine
         (hd "" (split newline
                   (trim (removeCarriageReturns
                            (default "" (Options.csvData options))))))
     else [])
  /\ (forall i : nat,
        i ∈ visibleColumns (create host fetch container options)
        <-> exists h,
              headers (create host fetch container options) !! i = Some h
              /\ includesIndex (Options.hiddenColumns options) i = false
              /\ includesName (Options.hiddenColumns options) h = false)
  /\ (truthy (Options.csvUrl options) = true ->
      fetch (default "" (Options.csvUrl options)) = None ->
      headers (create host fetch container options) = []
      /\ visibleColumns (create host fetch container options) = ∅).
Proof.
  split; [|split].
  - unfold create, init, load.
    destruct (truthy (Options.csvUrl options)).
    + destruct (fetch (default "" (Options.csvUrl options))) as [text|];
        [|reflexivity].
      destruct container; apply parseCsv_headers.
    + destruct (truthy (Options.csvData options)).
      * destruct container; apply parseCsv_headers.
      * destruct container; reflexivity.
  - intros i. unfold create, init.
    destruct (load fetch options (construct options)) as [this|] eqn:E.
    + destruct (load_headers _ _ _ _ E) as (_ & _ & _ & V).
      assert (S : i ∈ showColumns (Options.hiddenColumns options) 0
                        (headers this) (visibleColumns this)
                  <-> exists h, headers this !! i = Some h
                       /\ includesIndex (Options.hiddenColumns options) i = false
                       /\ includesName (Options.hiddenColumns options) h = false).
      { rewrite showColumns_spec, V, Nat.sub_0_r. split.
        - intros [H|(_ & H)]; [|exact H].
          exfalso. exact (not_elem_of_empty (C := gset nat) i H).
        - intros H. right. split; [lia | exact H]. }
      destruct container; exact S.
    + split.
      * intros H. exfalso. exact (not_elem_of_empty (C := gset nat) i H).
      * intros (h & H & _). discriminate H.
  - intros U F. unfold create, init, load. rewrite U, F.
    split; reflexivity.
Qed.

Lemma renderTable_consistent this :
  consistent this -> consistent (renderTable host this).
Proof. intros H. exact H. Qed.

Lemma dispatch_consistent this e :
  consistent this -> consistent (dispatch host this e).
Proof.
  intros (A & V & S). unfold dispatch.
  destruct (hasListener this e) eqn:L; [|exact (conj A (conj V S))].
  destruct e as [value|i checked|i]; cbn [handle hasListener] in *.
  - split; [reflexivity | split; assumption].
  - apply Nat.ltb_lt in L. split; [exact A | split; [|exact S]].
    cbn [visibleColumns setVisibleColumns headers]. intros j Hj.
    destruct checked.
    + apply elem_of_union in Hj. destruct Hj as [Hj|Hj]; [|exact (V j Hj)].
      apply elem_of_singleton in Hj. subst j. exact L.
    + apply elem_of_difference in Hj. exact (V j (proj1 Hj)).
  - apply andb_true_iff in L. destruct L as (L & T).
    apply andb_true_iff in L. destruct L as (L & _).
    apply Nat.ltb_lt in L. apply negb_true_iff in T.
    destruct (bool_decide (sortColumn this = Some i)).
    + exact (conj A (conj V S)).
    + split; [exact A | split; [exact V|]].
      intros j H. cbn [sortColumn setSort] in H. injection H as <-.
      split; [exact L|].
      intros E. change (typeOf (columnAt this i) = "image") in E.
      rewrite E in T. discriminate T.
Qed.

Lemma create_consistent fetch container options :
  consistent (create host fetch container options).
Proof.
  unfold create, init.
  destruct (load fetch options (construct options)) as [this|] eqn:E.
  - destruct (load_headers _ _ _ _ E) as (_ & So & _ & V).
    assert (C : consistent
      (setVisibleColumns
         (setSearch this (Options.initialSearch options)
            (parseSearchQuery (Options.initialSearch options)))
         (showColumns (Options.hiddenColumns options) 0 (headers this)
            (visibleColumns this)))).
    { split; [reflexivity | split].
      - intros i H.
        cbn [visibleColumns setVisibleColumns headers setSearch] in H.
        apply showColumns_spec in H. rewrite V in H.
        destruct H as [H|(_ & h & H & _)].
        + exfalso. exact (not_elem_of_empty (C := gset nat) i H).
        + rewrite Nat.sub_0_r in H. apply lookup_lt_Some in H. exact H.
      - intros i H. cbn [sortColumn setVisibleColumns setSearch] in H.
        rewrite So in H. discriminate H. }
    destruct container; [apply renderTable_consistent|]; exact C.
  - split; [reflexivity | split].
    + intros i H. exfalso. exact (not_elem_of_empty (C := gset nat) i H).
    + intros i H. discriminate H.
Qed.

Lemma fold_dispatch_consistent events : forall this,
  consistent this -> consistent (fold_left (dispatch host) events this).
Proof.
  induction events as [|e events IH]; intros this C; [exact C|].
  apply IH, dispatch_consistent, C.
Qed.

(** X6 (init and the listeners): after the constructor and after every
    sequence of events, the search tree of the instance is the parse of its
    query text, every visible column is a column of the header row, and the
    sort column, when there is one, is a column of the header row whose
    type is not [image]. *)
Theorem run_consistent fetch container options (events : list event) :
  consistent (run host fetch container options events).
Proof.
  unfold run. destruct (container && responds fetch options).
  - apply fold_dispatch_consistent, create_consistent.
  - apply create_consistent.
Qed.

Lemma imap_setOriginalIndex_idempotent (l : list Row) :
  imap setOriginalIndex (imap setOriginalIndex l) = imap setOriginalIndex l.
Proof.
  apply list_eq. intros i. rewrite !list_lookup_imap.
  destruct (l !! i) as [r|]; reflexivity.
Qed.

Lemma dispatch_frame this e :
  headers (dispatch host this e) = headers this
  /\ columns (dispatch host this e) = columns this
  /\ data (dispatch host this e) = imap setOriginalIndex (data this)
     \/ dispatch host this e = this.
Proof.
  unfold dispatch. destruct (hasListener this e); [left | right; reflexivity].
  destruct e as [value|i checked|i]; cbn [handle].
  - repeat split.
  - repeat split.
  - destruct (bool_decide (sortColumn this = Some i)); repeat split.
Qed.

Lemma fold_dispatch_frame events : forall this,
  data this = imap setOriginalIndex (data this) ->
  headers (fold_left (dispatch host) events this) = headers this
  /\ columns (fold_left (dispatch host) events this) = columns this
  /\ data (fold_left (dispatch host) events this) = data this.
Proof.
  induction events as [|e events IH]; intros this D; [repeat split|].
  cbn [fold_left].
  destruct (dispatch_frame this e) as [(H & C & E)|E].
  - rewrite <- D in E.
    destruct (IH (dispatch host this e)) as (H' & C' & E').
    { rewrite E. exact D. }
    rewrite H', C', E', H, C, E. repeat split.
  - rewrite E. apply IH, D.
Qed.

Lemma create_columns fetch container options :
  columns (create host fetch container options) = Options.columns options.
Proof.
  unfold create, init.
  destruct (load fetch options (construct options)) as [this|] eqn:E;
    [|reflexivity].
  destruct (load_headers _ _ _ _ E) as (C & _).
  destruct container; exact C.
Qed.

Lemma create_data fetch options :
  responds fetch options = true ->
  data (create host fetch true options)
  = imap setOriginalIndex (data (create host fetch true options)).
Proof.
  intros R. rewrite (load_responds fetch options (construct options)) in R.
  unfold create, init.
  destruct (load fetch options (construct options)) as [this|];
    [|discriminate R].
  symmetry. apply imap_setOriginalIndex_idempotent.
Qed.

(** X7 (the listeners): no event changes the header row, the column
    configuration or [this.data]: after every sequence of events they are
    what the constructor left, the rows with their cells, their order and
    their indexes. *)
Theorem run_frame fetch container options (events : list event) :
  headers (run host fetch container options events)
  = headers (create host fetch container options)
  /\ columns (run host fetch container options events)
     = Options.columns options
  /\ data (run host fetch container options events)
     = data (create host fetch container options).
Proof.
  unfold run. destruct container; cbn [andb].
  - destruct (responds fetch options) eqn:R.
    + destruct (fold_dispatch_frame events (create host fetch true options)
                  (create_data fetch options R)) as (H & C & D).
      rewrite H, C, D, create_columns. repeat split.
    + rewrite create_columns. repeat split.
  - rewrite create_columns. repeat split.
Qed.

Lemma dispatch_sorted this e :
  sortColumn this <> None -> sortColumn (dispatch host this e) <> None.
Proof.
  intros S. unfold dispatch. destruct (hasListener this e); [|exact S].
  destruct e as [value|i checked|i]; cbn [handle]; try exact S.
  destruct (bool_decide (sortColumn this = Some i)); [exact S | discriminate].
Qed.

Lemma fold_dispatch_sorted events : forall this,
  sortColumn this <> None ->
  sortColumn (fold_left (dispatch host) events this) <> None.
Proof.
  induction events as [|e events IH]; intros this S; [exact S|].
  apply IH, dispatch_sorted, S.
Qed.

(** X8 (the listeners): no event takes the sort column away: once the
    rows are sorted on a column, they are sorted on some column after every
    further event. *)
Theorem run_stays_sorted fetch container options (events more : list event) :
  sortColumn (run host fetch container options events) <> None ->
  sortColumn (run host fetch container options (app events more)) <> None.
Proof.
  unfold run. destruct (container && responds fetch options); [|auto].
  rewrite fold_left_app. apply fold_dispatch_sorted.
Qed.

End InstanceFacts.

Lemma create_visibleColumns_witness :
  Csv2Table.headers
    (Csv2Table.create Sample.host Sample.offline true
       (Sample.options Sample.twoLines [inr "age"%string]))
  = ["name"; "age"]%string
  /\ (0%nat ∈ Csv2Table.visibleColumns
               (Csv2Table.create Sample.host Sample.offline true
                  (Sample.options Sample.twoLines [inr "age"%string])))
  /\ ~ (1%nat ∈ Csv2Table.visibleColumns
                 (Csv2Table.create Sample.host Sample.offline true
                    (Sample.options Sample.twoLines [inr "age"%string]))).
Proof.
  destruct (create_visibleColumns Sample.host Sample.offline true
              (Sample.options Sample.twoLines [inr "age"%string]))
    as (H & V & _).
  split; [exact H|]. split.
  - apply V. exists "name"%string. repeat split.
  - intros I. apply V in I. destruct I as (h & E & _ & N).
    rewrite H in E. injection E as <-. discriminate N.
Defined.

Lemma run_stays_sorted_witness :
  Csv2Table.sortColumn
    (Csv2Table.run Sample.host Sample.offline true
       (Sample.options Sample.twoLines [])
       (app [Csv2Table.ClickHeader 1]
            [Csv2Table.InputSearch "ann"; Csv2Table.ChangeColumn 1 false]))
  <> None.
Proof.
  apply (run_stays_sorted Sample.host Sample.offline true
           (Sample.options Sample.twoLines []) [Csv2Table.ClickHeader 1]).
  vm_compute. discriminate.
Defined.

(** ** Sorting with a consistent comparator *)

Section SortFacts.
Import JsString Csv2Table.

Section Insertion.
Context {A : Type} (cmp : A -> A -> JsNumber.number) (idx : A -> nat).

Hypothesis after_asymmetric : forall x y,
  comesAfter cmp x y = true -> comesAfter cmp y x = false.
Hypothesis after_transitive : forall x y z,
  comesAfter cmp x z = true ->
  comesAfter cmp x y = true \/ comesAfter cmp y z = true.

Lemma insertSorted_inOrder (x : A) (l : list A) :
  Forall (fun y => (idx y < idx x)%nat) l ->
  StronglySorted (inOrder cmp idx) l ->
  StronglySorted (inOrder cmp idx) (insertSorted cmp x l).
Proof.
  intros I S. induction S as [|y l S IH F]; cbn [insertSorted].
  - repeat constructor.
  - apply List.Forall_cons_iff in I. destruct I as (Iy & I).
    change (JsNumber.isPositive (sortCompare cmp y x))
      with (comesAfter cmp y x).
    destruct (comesAfter cmp y x) eqn:G.
    + constructor; [constructor; assumption|].
      assert (Hz : forall z, comesAfter cmp y z = false -> inOrder cmp idx x z).
      { intros z Gz. split.
        - destruct (comesAfter cmp x z) eqn:Gx; [|reflexivity].
          destruct (after_transitive x y z Gx) as [H|H].
          + rewrite (after_asymmetric y x G) in H. discriminate H.
          + rewrite Gz in H. discriminate H.
        - intros Gzx. destruct (after_transitive y z x G) as [H|H].
          + rewrite Gz in H. discriminate H.
          + rewrite Gzx in H. discriminate H. }
      constructor.
      * apply Hz. destruct (comesAfter cmp y y) eqn:Gy; [|reflexivity].
        rewrite (after_asymmetric y y Gy) in Gy. discriminate Gy.
      * apply List.Forall_forall. intros z Hin. apply Hz.
        rewrite List.Forall_forall in F. exact (proj1 (F z Hin)).
    + constructor; [exact (IH I)|].
      apply List.Forall_forall. intros z Hin.
      apply (Permutation_in _ (insertSorted_Permutation cmp x l)) in Hin.
      destruct Hin as [<-|Hin].
      * split; [exact G | intros _; exact Iy].
      * rewrite List.Forall_forall in F. exact (F z Hin).
Qed.

Lemma sort_inOrder (l : list A) :
  StronglySorted (fun x y => (idx x < idx y)%nat) l ->
  StronglySorted (inOrder cmp idx) (sort cmp l).
Proof.
  unfold sort.
  assert (G : forall acc,
    StronglySorted (inOrder cmp idx) acc ->
    Forall (fun y => Forall (fun x => (idx y < idx x)%nat) l) acc ->
    StronglySorted (fun x y => (idx x < idx y)%nat) l ->
    StronglySorted (inOrder cmp idx)
      (fold_left (fun acc x => insertSorted cmp x acc) l acc)).
  { induction l as [|x l IH]; intros acc Sa Fa Sl; [exact Sa|].
    cbn [fold_left]. apply StronglySorted_inv in Sl. destruct Sl as (Sl & Fx).
    apply IH; [| |exact Sl].
    - apply insertSorted_inOrder; [|exact Sa].
      apply List.Forall_forall. intros y Hin.
      rewrite List.Forall_forall in Fa. specialize (Fa y Hin).
      apply List.Forall_cons_iff in Fa. exact (proj1 Fa).
    - apply List.Forall_forall. intros y Hin.
      apply (Permutation_in _ (insertSorted_Permutation cmp x acc)) in Hin.
      destruct Hin as [<-|Hin]; [exact Fx|].
      rewrite List.Forall_forall in Fa. specialize (Fa y Hin).
      apply List.Forall_cons_iff in Fa. exact (proj2 Fa). }
  intros Sl. apply G; [constructor | constructor | exact Sl].
Qed.

End Insertion.

Lemma StronglySorted_lookup {A} (R : A -> A -> Prop) (l : list A) :
  StronglySorted R l ->
  forall i j x y, (i < j)%nat -> l !! i = Some x -> l !! j = Some y -> R x y.
Proof.
  intros Hs. induction Hs as [|z l Hs IH F]; intros i j x y L Hi Hj.
  - discriminate Hi.
  - destruct j as [|j]; [lia|].
    change (l !! j = Some y) in Hj. destruct i as [|i].
    + injection Hi as <-. rewrite List.Forall_forall in F. apply F.
      apply list_elem_of_In. exact (list_elem_of_lookup_2 _ _ _ Hj).
    + apply (IH i j); [lia | exact Hi | exact Hj].
Qed.

Lemma isPositive_ofZ (z : Z) : JsNumber.isPositive (JsNumber.ofZ z) = (0 <? z)%Z.
Proof.
  unfold JsNumber.isPositive, JsNumber.ofZ, JsNumber.lt, Qle_bool, inject_Z.
  cbn [Qnum Qden]. rewrite Z.mul_1_r. change (0 * 1)%Z with 0%Z.
  rewrite Z.ltb_antisym. reflexivity.
Qed.

Lemma isPositive_neg_ofZ (z : Z) :
  JsNumber.isPositive (JsNumber.neg (JsNumber.ofZ z)) = (z <? 0)%Z.
Proof.
  change (JsNumber.neg (JsNumber.ofZ z)) with (JsNumber.ofZ (- z)).
  rewrite isPositive_ofZ.
  destruct (Z.ltb_spec 0 (- z)), (Z.ltb_spec z 0); try reflexivity; lia.
Qed.

(** On a column typed [date], a row goes after another when it alone is
    unparseable, or when both are dates and its own is the later one (the
    earlier one, when descending). *)
Lemma comesAfter_date host this column a b :
  typeOf (columnAt this column) = "date" ->
  comesAfter (compareRows host this column) a b
  = match parseDateString host (cellAt a column) (format (columnAt this column)),
          parseDateString host (cellAt b column) (format (columnAt this column)) with
    | None, None => false
    | None, Some _ => true
    | Some _, None => false
    | Some tA, Some tB => if sortAsc this then (tB <? tA)%Z else (tA <? tB)%Z
    end.
Proof.
  intros T. unfold comesAfter, sortCompare.
  rewrite (compareRows_date host this column a b T).
  destruct (parseDateString host (cellAt a column) _) as [tA|],
           (parseDateString host (cellAt b column) _) as [tB|];
    destruct (sortAsc this); cbn [JsNumber.isNaN JsNumber.ofZ JsNumber.neg];
    try reflexivity.
  - change (JsNumber.Finite (inject_Z (tA - tB))) with (JsNumber.ofZ (tA - tB)).
    rewrite isPositive_ofZ.
    destruct (Z.ltb_spec 0 (tA - tB)), (Z.ltb_spec tB tA); try reflexivity; lia.
  - change (JsNumber.Finite (- inject_Z (tA - tB)))
      with (JsNumber.neg (JsNumber.ofZ (tA - tB))).
    rewrite isPositive_neg_ofZ.
    destruct (Z.ltb_spec (tA - tB) 0), (Z.ltb_spec tA tB); try reflexivity; lia.
Qed.

Lemma comesAfter_date_asymmetric host this column :
  typeOf (columnAt this column) = "date" ->
  forall x y,
    comesAfter (compareRows host this column) x y = true ->
    comesAfter (compareRows host this column) y x = false.
Proof.
  intros T x y. rewrite !(comesAfter_date host this column) by exact T.
  destruct (parseDateString host (cellAt x column) _) as [tx|],
           (parseDateString host (cellAt y column) _) as [ty|];
    try (intros; reflexivity); try discriminate.
  destruct (sortAsc this); intros H.
  - apply Z.ltb_lt in H. apply Z.ltb_ge. lia.
  - apply Z.ltb_lt in H. apply Z.ltb_ge. lia.
Qed.

Lemma comesAfter_date_transitive host this column :
  typeOf (columnAt this column) = "date" ->
  forall x y z,
    comesAfter (compareRows host this column) x z = true ->
    comesAfter (compareRows host this column) x y = true
    \/ comesAfter (compareRows host this column) y z = true.
Proof.
  intros T x y z. rewrite !(comesAfter_date host this column) by exact T.
  destruct (parseDateString host (cellAt x column) _) as [tx|],
           (parseDateString host (cellAt y column) _) as [ty|],
           (parseDateString host (cellAt z column) _) as [tz|];
    try discriminate; auto.
  destruct (sortAsc this); intros H; apply Z.ltb_lt in H; rewrite !Z.ltb_lt; lia.
Qed.

(** The index that the filter pass has written, 0 before. *)
Lemma imap_setOriginalIndex_sorted (l : list Row) : forall k,
  StronglySorted
    (fun x y => (default 0%nat (_originalIndex x)
                 < default 0%nat (_originalIndex y))%nat)
    (imap (fun i => setOriginalIndex (k + i)) l)
  /\ Forall (fun x => exists i, _originalIndex x = Some i /\ (k <= i)%nat)
       (imap (fun i => setOriginalIndex (k + i)) l).
Proof.
  induction l as [|r l IH]; intros k; [split; constructor|].
  cbn [imap]. destruct (IH (S k)) as (Hs & Hf).
  assert (E : imap ((fun i => setOriginalIndex (k + i)) ∘ S) l
              = imap (fun i => setOriginalIndex (S k + i)) l).
  { apply imap_ext. intros i x _. cbn. f_equal. lia. }
  rewrite E. split.
  - constructor; [exact Hs|].
    apply List.Forall_forall. intros y Hin.
    rewrite List.Forall_forall in Hf. destruct (Hf y Hin) as (i & Ei & Li).
    rewrite Ei. cbn. lia.
  - constructor; [|].
    + exists (k + 0)%nat. split; [reflexivity | lia].
    + apply List.Forall_forall. intros y Hin.
      rewrite List.Forall_forall in Hf. destruct (Hf y Hin) as (i & Ei & Li).
      exists i. split; [exact Ei | lia].
Qed.

Lemma StronglySorted_filter {A} (R : A -> A -> Prop) (p : A -> bool) l :
  StronglySorted R l -> StronglySorted R (List.filter p l).
Proof.
  intros Hs. induction Hs as [|x l Hs IH F]; [constructor|].
  cbn [List.filter]. destruct (p x); [|exact IH].
  constructor; [exact IH|].
  apply List.Forall_forall. intros y Hin. apply filter_In in Hin.
  rewrite List.Forall_forall in F. exact (F y (proj1 Hin)).
Qed.

Lemma filterAndSort_date host this column :
  sortColumn this = Some column ->
  typeOf (columnAt this column) = "date" ->
  StronglySorted
    (inOrder (compareRows host this column)
       (fun x => default 0%nat (_originalIndex x)))
    (snd (filterAndSort host this))
  /\ Forall (fun x => exists i, _originalIndex x = Some i)
       (snd (filterAndSort host this)).
Proof.
  intros Hc T. unfold filterAndSort. cbn [snd]. rewrite Hc.
  destruct (imap_setOriginalIndex_sorted (data this) 0) as (Hs & Hf).
  change (imap (fun i => setOriginalIndex (0 + i)) (data this))
    with (imap setOriginalIndex (data this)) in Hs, Hf.
  split.
  - apply sort_inOrder.
    + apply comesAfter_date_asymmetric, T.
    + apply comesAfter_date_transitive, T.
    + apply StronglySorted_filter, Hs.
  - apply List.Forall_forall. intros x Hin.
    apply (Permutation_in _ (sort_Permutation _ _)) in Hin.
    apply filter_In in Hin. rewrite List.Forall_forall in Hf.
    destruct (Hf x (proj1 Hin)) as (i & Ei & _). exists i. exact Ei.
Qed.

(** X9 (renderTable, sorting on a date column): in the rows shown, sorted
    on a column typed [date], no row stands before a row it should follow:
    of two rows with a date the first has the earlier or the same date (the
    later or the same, when descending), and no unparseable cell stands
    before a date, in both directions. *)
Theorem filterAndSort_date_ordered host this column (i j : nat) (a b : Row) :
  sortColumn this = Some column ->
  typeOf (columnAt this column) = "date" ->
  (i < j)%nat ->
  snd (filterAndSort host this) !! i = Some a ->
  snd (filterAndSort host this) !! j = Some b ->
  match parseDateString host (cellAt a column) (format (columnAt this column)),
        parseDateString host (cellAt b column) (format (columnAt this column)) with
  | Some tA, Some tB => if sortAsc this then (tA <= tB)%Z else (tB <= tA)%Z
  | None, Some _ => False
  | _, None => True
  end.
Proof.
  intros Hc T L Ha Hb.
  destruct (filterAndSort_date host this column Hc T) as (Hs & _).
  destruct (StronglySorted_lookup _ _ Hs i j a b L Ha Hb) as (G & _).
  rewrite (comesAfter_date host this column a b T) in G.
  destruct (parseDateString host (cellAt a column) _) as [tA|],
           (parseDateString host (cellAt b column) _) as [tB|];
    try exact I; try discriminate G.
  destruct (sortAsc this); apply Z.ltb_ge in G; exact G.
Qed.

(** X10 (renderTable, sorting on a date column): the sort keeps the order
    of [this.data] among rows it cannot tell apart.  Of two rows shown
    whose cells give the same timestamp, or are both unparseable, the
    first is the one with the smaller original index. *)
Theorem filterAndSort_date_stable host this column (i j : nat) (a b : Row) :
  sortColumn this = Some column ->
  typeOf (columnAt this column) = "date" ->
  (i < j)%nat ->
  snd (filterAndSort host this) !! i = Some a ->
  snd (filterAndSort host this) !! j = Some b ->
  parseDateString host (cellAt a column) (format (columnAt this column))
  = parseDateString host (cellAt b column) (format (columnAt this column)) ->
  exists ia ib,
    _originalIndex a = Some ia /\ _originalIndex b = Some ib /\ (ia < ib)%nat.
Proof.
  intros Hc T L Ha Hb E.
  destruct (filterAndSort_date host this column Hc T) as (Hs & Hf).
  destruct (StronglySorted_lookup _ _ Hs i j a b L Ha Hb) as (_ & G).
  rewrite List.Forall_forall in Hf.
  destruct (Hf a) as (ia & Ia);
    [apply list_elem_of_In; exact (list_elem_of_lookup_2 _ _ _ Ha)|].
  destruct (Hf b) as (ib & Ib);
    [apply list_elem_of_In; exact (list_elem_of_lookup_2 _ _ _ Hb)|].
  exists ia, ib. split; [exact Ia | split; [exact Ib|]].
  rewrite Ia, Ib in G. apply G.
  rewrite (comesAfter_date host this column b a T), E.
  destruct (parseDateString host (cellAt b column) _) as [t|]; [|reflexivity].
  destruct (sortAsc this); apply Z.ltb_irrefl.
Qed.

Lemma filterAndSort_date_ordered_witness :
  match parseDateString Sample.host "2019-06-01" None,
        parseDateString Sample.host "2020-01-01" None with
  | Some tA, Some tB => (tA <= tB)%Z
  | None, Some _ => False
  | _, None => True
  end.
Proof.
  apply (filterAndSort_date_ordered Sample.host
           (Sample.table "date"
              [Sample.row "2020-01-01"; Sample.row "x"; Sample.row "2019-06-01"]
              (Some 0%nat) true)
           0 0 1
           {| cells := ["2019-06-01"]; _originalIndex := Some 2%nat |}
           {| cells := ["2020-01-01"]; _originalIndex := Some 0%nat |}).
  - reflexivity.
  - reflexivity.
  - lia.
  - vm_compute. reflexivity.
  - vm_compute. reflexivity.
Defined.

Lemma filterAndSort_date_stable_witness :
  exists ia ib,
    _originalIndex {| cells := ["x"]; _originalIndex := Some 0%nat |} = Some ia
    /\ _originalIndex {| cells := ["y"]; _originalIndex := Some 2%nat |} = Some ib
    /\ (ia < ib)%nat.
Proof.
  apply (filterAndSort_date_stable Sample.host
           (Sample.table "date"
              [Sample.row "x"; Sample.row "2020-01-01"; Sample.row "y"]
              (Some 0%nat) false)
           0 1 2
           {| cells := ["x"]; _originalIndex := Some 0%nat |}
           {| cells := ["y"]; _originalIndex := Some 2%nat |}).
  - reflexivity.
  - reflexivity.
  - lia.
  - vm_compute. reflexivity.
  - vm_compute. reflexivity.
  - vm_compute. reflexivity.
Defined.

(** On a column that is neither a number nor a date the rows are compared
    with [localeCompare]. *)
Lemma comesAfter_string host this column a b :
  (typeOf (columnAt this column) =? "number") = false ->
  (typeOf (columnAt this column) =? "date") = false ->
  comesAfter (compareRows host this column) a b
  = if sortAsc this
    then (0 <? localeCompare host (cellAt a column) (cellAt b column))%Z
    else (localeCompare host (cellAt a column) (cellAt b column) <? 0)%Z.
Proof.
  intros N D. unfold comesAfter, sortCompare, compareRows. rewrite N, D.
  destruct (sortAsc this); cbn [JsNumber.isNaN JsNumber.ofZ JsNumber.neg].
  - apply isPositive_ofZ.
  - apply isPositive_neg_ofZ.
Qed.

Lemma filterAndSort_string host this column :
  (forall a b, (0 < localeCompare host a b)%Z <-> (localeCompare host b a < 0)%Z) ->
  (forall a b c, (localeCompare host a b <= 0)%Z ->
                 (localeCompare host b c <= 0)%Z ->
                 (localeCompare host a c <= 0)%Z) ->
  sortColumn this = Some column ->
  (typeOf (columnAt this column) =? "number") = false ->
  (typeOf (columnAt this column) =? "date") = false ->
  StronglySorted
    (inOrder (compareRows host this column)
       (fun x => default 0%nat (_originalIndex x)))
    (snd (filterAndSort host this)).
Proof.
  intros Anti Trans Hc N D. unfold filterAndSort. cbn [snd]. rewrite Hc.
  destruct (imap_setOriginalIndex_sorted (data this) 0) as (Hs & _).
  change (imap (fun i => setOriginalIndex (0 + i)) (data this))
    with (imap setOriginalIndex (data this)) in Hs.
  apply sort_inOrder; [| |apply StronglySorted_filter, Hs].
  - intros x y. rewrite !(comesAfter_string host this column) by assumption.
    pose proof (Anti (cellAt x column) (cellAt y column)) as A1.
    pose proof (Anti (cellAt y column) (cellAt x column)) as A2.
    destruct (sortAsc this); rewrite Z.ltb_lt, Z.ltb_ge; lia.
  - intros x y z. rewrite !(comesAfter_string host this column) by assumption.
    pose proof (Anti (cellAt x column) (cellAt y column)) as A1.
    pose proof (Anti (cellAt y column) (cellAt x column)) as A2.
    pose proof (Anti (cellAt y column) (cellAt z column)) as A3.
    pose proof (Anti (cellAt z column) (cellAt y column)) as A4.
    pose proof (Anti (cellAt x column) (cellAt z column)) as A5.
    pose proof (Anti (cellAt z column) (cellAt x column)) as A6.
    pose proof (Trans (cellAt x column) (cellAt y column) (cellAt z column)) as T1.
    pose proof (Trans (cellAt z column) (cellAt y column) (cellAt x column)) as T2.
    destruct (sortAsc this); rewrite !Z.ltb_lt; lia.
Qed.

(** X11 (renderTable, sorting on a text column): when [localeCompare] of
    the host is a consistent order (its sign turns with its arguments, and
    it is transitive), the rows shown, sorted on a column whose type is
    neither [number] nor [date], are in that order: a row never stands
    before a row whose cell [localeCompare] puts first (puts last, when
    descending); and of two rows whose cells compare equal, the one with
    the smaller original index is first. *)
Theorem filterAndSort_string_ordered host this column (i j : nat) (a b : Row) :
  (forall a b, (0 < localeCompare host a b)%Z <-> (localeCompare host b a < 0)%Z) ->
  (forall a b c, (localeCompare host a b <= 0)%Z ->
                 (localeCompare host b c <= 0)%Z ->
                 (localeCompare host a c <= 0)%Z) ->
  sortColumn this = Some column ->
  typeOf (columnAt this column) <> "number" ->
  typeOf (columnAt this column) <> "date" ->
  (i < j)%nat ->
  snd (filterAndSort host this) !! i = Some a ->
  snd (filterAndSort host this) !! j = Some b ->
  (if sortAsc this
   then (localeCompare host (cellAt a column) (cellAt b column) <= 0)%Z
   else (0 <= localeCompare host (cellAt a column) (cellAt b column))%Z)
  /\ (localeCompare host (cellAt a column) (cellAt b column) = 0%Z ->
      (default 0%nat (_originalIndex a) < default 0%nat (_originalIndex b))%nat).
Proof.
  intros Anti Trans Hc N D L Ha Hb.
  apply String.eqb_neq in N. apply String.eqb_neq in D.
  pose proof (filterAndSort_string host this column Anti Trans Hc N D) as Hs.
  destruct (StronglySorted_lookup _ _ Hs i j a b L Ha Hb) as (G & I).
  rewrite (comesAfter_string host this column) in G, I by assumption.
  pose proof (Anti (cellAt a column) (cellAt b column)) as A1.
  pose proof (Anti (cellAt b column) (cellAt a column)) as A2.
  destruct (sortAsc this); apply Z.ltb_ge in G; (split; [exact G|]);
    intros E; apply I; apply Z.ltb_ge; lia.
Qed.

Lemma compareStrings_sign (a : string) : forall b,
  (0 < Sample.compareStrings a b)%Z <-> (Sample.compareStrings b a < 0)%Z.
Proof.
  induction a as [|x a IH]; intros [|y b]; cbn [Sample.compareStrings];
    try lia.
  destruct (N.ltb_spec (code x) (code y)), (N.ltb_spec (code y) (code x));
    try lia.
  apply IH.
Qed.

Lemma compareStrings_transitive (a : string) : forall b c,
  (Sample.compareStrings a b <= 0)%Z ->
  (Sample.compareStrings b c <= 0)%Z ->
  (Sample.compareStrings a c <= 0)%Z.
Proof.
  induction a as [|x a IH]; intros [|y b] [|z c];
    cbn [Sample.compareStrings]; try lia.
  destruct (N.ltb_spec (code x) (code y)), (N.ltb_spec (code y) (code x)),
    (N.ltb_spec (code y) (code z)), (N.ltb_spec (code z) (code y)),
    (N.ltb_spec (code x) (code z)), (N.ltb_spec (code z) (code x));
    try lia.
  apply IH.
Qed.

Lemma filterAndSort_string_ordered_witness :
  (localeCompare Sample.host "apple" "pear" <= 0)%Z
  /\ (localeCompare Sample.host "apple" "pear" = 0%Z -> (1 < 0)%nat).
Proof.
  apply (filterAndSort_string_ordered Sample.host
           (Sample.table "string" [Sample.row "pear"; Sample.row "apple"]
              (Some 0%nat) true)
           0 0 1
           {| cells := ["apple"]; _originalIndex := Some 1%nat |}
           {| cells := ["pear"]; _originalIndex := Some 0%nat |}).
  - intros a b. apply compareStrings_sign.
  - intros a b c. apply compareStrings_transitive.
  - reflexivity.
  - discriminate.
  - discriminate.
  - lia.
  - vm_compute. reflexivity.
  - vm_compute. reflexivity.
Defined.

End SortFacts.

(** ** The parser, on every token list *)

Section ParserShapes.
Import JsString Csv2Table.

(** More fuel does not change a result. *)
Lemma parse_step fuel :
  (forall toks r, parseTerm fuel toks = Some r ->
                  parseTerm (S fuel) toks = Some r)
  /\ (forall node toks r, parseAndLoop fuel node toks = Some r ->
                          parseAndLoop (S fuel) node toks = Some r)
  /\ (forall toks r, parseAnd fuel toks = Some r ->
                     parseAnd (S fuel) toks = Some r)
  /\ (forall node toks r, parseOrLoop fuel node toks = Some r ->
                          parseOrLoop (S fuel) node toks = Some r)
  /\ (forall toks r, parseOr fuel toks = Some r ->
                     parseOr (S fuel) toks = Some r).
Proof.
  induction fuel as [|fuel (IT & IL & IA & IOL & IO)].
  { repeat split; intros; discriminate. }
  assert (HT : forall toks r, parseTerm (S fuel) toks = Some r ->
                              parseTerm (S (S fuel)) toks = Some r).
  { intros toks r H. destruct toks as [|t rest]; [exact H|].
    destruct t; try exact H.
    cbn [parseTerm] in H.
    destruct (parseOr fuel rest) as [p|] eqn:E; [|discriminate H].
    change (parseTerm (S (S fuel)) (LPAREN :: rest))
      with (match parseOr (S fuel) rest with
            | Some (node, RPAREN :: rest') => Some (node, rest')
            | r => r
            end).
    rewrite (IO rest p E). exact H. }
  assert (HL : forall node toks r, parseAndLoop (S fuel) node toks = Some r ->
                 parseAndLoop (S (S fuel)) node toks = Some r).
  { intros node toks r H.
    assert (Step : forall toks',
      match parseTerm fuel toks' with
      | Some (rhs, rest') => parseAndLoop fuel (join AstAnd node rhs) rest'
      | None => None
      end = Some r ->
      match parseTerm (S fuel) toks' with
      | Some (rhs, rest') => parseAndLoop (S fuel) (join AstAnd node rhs) rest'
      | None => None
      end = Some r).
    { intros toks' H'.
      destruct (parseTerm fuel toks') as [[rhs rest']|] eqn:E; [|discriminate H'].
      rewrite (IT _ _ E). apply IL. exact H'. }
    destruct toks as [|t rest]; [exact H|].
    destruct t as [| | | |c v|c o v]; try exact H.
    - exact (Step (LPAREN :: rest) H).
    - exact (Step rest H).
    - exact (Step (TERM c v :: rest) H).
    - exact (Step (INEQUALITY c o v :: rest) H). }
  assert (HA : forall toks r, parseAnd (S fuel) toks = Some r ->
                              parseAnd (S (S fuel)) toks = Some r).
  { intros toks r H. cbn [parseAnd] in H.
    destruct (parseTerm fuel toks) as [[node rest]|] eqn:E; [|discriminate H].
    change (parseAnd (S (S fuel)) toks)
      with (match parseTerm (S fuel) toks with
            | Some (node, rest) => parseAndLoop (S fuel) node rest
            | None => None
            end).
    rewrite (IT _ _ E). apply IL. exact H. }
  assert (HOL : forall node toks r, parseOrLoop (S fuel) node toks = Some r ->
                  parseOrLoop (S (S fuel)) node toks = Some r).
  { intros node toks r H. destruct toks as [|t rest]; [exact H|].
    destruct t; try exact H.
    cbn [parseOrLoop] in H.
    destruct (parseAnd fuel rest) as [[rhs rest']|] eqn:E; [|discriminate H].
    change (parseOrLoop (S (S fuel)) node (OR :: rest))
      with (match parseAnd (S fuel) rest with
            | Some (rhs, rest') => parseOrLoop (S fuel) (join AstOr node rhs) rest'
            | None => None
            end).
    rewrite (IA _ _ E). apply IOL. exact H. }
  assert (HO : forall toks r, parseOr (S fuel) toks = Some r ->
                              parseOr (S (S fuel)) toks = Some r).
  { intros toks r H. cbn [parseOr] in H.
    destruct (parseAnd fuel toks) as [[node rest]|] eqn:E; [|discriminate H].
    change (parseOr (S (S fuel)) toks)
      with (match parseAnd (S fuel) toks with
            | Some (node, rest) => parseOrLoop (S fuel) node rest
            | None => None
            end).
    rewrite (IA _ _ E). apply IOL. exact H. }
  repeat split; assumption.
Qed.

Lemma parseOr_more_fuel fuel fuel' toks r :
  (fuel <= fuel')%nat -> parseOr fuel toks = Some r ->
  parseOr fuel' toks = Some r.
Proof.
  intros L H. induction L as [|m L IH]; [exact H|].
  apply (parse_step m). exact IH.
Qed.

(** [parseOr] with any fuel that is enough gives what [parseTokens]
    returns. *)
Lemma parseTokens_fuel fuel toks :
  (parseFuel toks <= fuel)%nat ->
  exists rest, parseOr fuel toks = Some (parseTokens toks, rest).
Proof.
  intros L. unfold parseTokens.
  destruct (parseOr_total toks) as (node & rest & E).
  rewrite E. exists rest. exact (parseOr_more_fuel _ _ _ _ L E).
Qed.

Lemma parse_no_operand fuel :
  (forall toks node rest,
     Forall (fun t => leaf t = None) toks ->
     parseTerm fuel toks = Some (node, rest) ->
     node = None /\ Forall (fun t => leaf t = None) rest)
  /\ (forall n toks node rest,
        Forall (fun t => leaf t = None) toks ->
        parseAndLoop fuel n toks = Some (node, rest) ->
        node = n /\ Forall (fun t => leaf t = None) rest)
  /\ (forall toks node rest,
        Forall (fun t => leaf t = None) toks ->
        parseAnd fuel toks = Some (node, rest) ->
        node = None /\ Forall (fun t => leaf t = None) rest)
  /\ (forall n toks node rest,
        Forall (fun t => leaf t = None) toks ->
        parseOrLoop fuel n toks = Some (node, rest) ->
        node = n /\ Forall (fun t => leaf t = None) rest)
  /\ (forall toks node rest,
        Forall (fun t => leaf t = None) toks ->
        parseOr fuel toks = Some (node, rest) ->
        node = None /\ Forall (fun t => leaf t = None) rest).
Proof.
  induction fuel as [|fuel (IT & IL & IA & IOL & IO)].
  { repeat split; discriminate. }
  split; [|split; [|split; [|split]]].
  - intros toks node rest F H. destruct toks as [|t toks].
    + injection H as <- <-. split; [reflexivity | constructor].
    + apply List.Forall_cons_iff in F. destruct F as (Ft & F).
      destruct t; try discriminate Ft; cbn [parseTerm] in H;
        try (injection H as <- <-; split; [reflexivity | exact F]).
      destruct (parseOr fuel toks) as [[n r]|] eqn:E; [|discriminate H].
      destruct (IO toks n r F E) as (-> & Fr).
      destruct r as [|t' r']; [injection H as <- <-; auto|].
      apply List.Forall_cons_iff in Fr. destruct Fr as (Ft' & Fr').
      destruct t'; injection H as <- <-;
        (split; [reflexivity|]); try exact Fr'; constructor; assumption.
  - intros n toks node rest F H. destruct toks as [|t toks].
    + injection H as <- <-. split; [reflexivity | constructor].
    + pose proof F as F0.
      apply List.Forall_cons_iff in F. destruct F as (Ft & F).
      destruct t; try discriminate Ft; cbn [parseAndLoop] in H;
        try (injection H as <- <-; split; [reflexivity | exact F0]).
      * destruct (parseTerm fuel (LPAREN :: toks)) as [[rhs r]|] eqn:E;
          [|discriminate H].
        destruct (IT _ _ _ F0 E) as (-> & Fr).
        destruct n; exact (IL _ _ _ _ Fr H).
      * destruct (parseTerm fuel toks) as [[rhs r]|] eqn:E; [|discriminate H].
        destruct (IT _ _ _ F E) as (-> & Fr).
        destruct n; exact (IL _ _ _ _ Fr H).
  - intros toks node rest F H. cbn [parseAnd] in H.
    destruct (parseTerm fuel toks) as [[n r]|] eqn:E; [|discriminate H].
    destruct (IT _ _ _ F E) as (-> & Fr). exact (IL _ _ _ _ Fr H).
  - intros n toks node rest F H. destruct toks as [|t toks].
    + injection H as <- <-. split; [reflexivity | constructor].
    + pose proof F as F0.
      apply List.Forall_cons_iff in F. destruct F as (Ft & F).
      destruct t; try discriminate Ft; cbn [parseOrLoop] in H;
        try (injection H as <- <-; split; [reflexivity | exact F0]).
      destruct (parseAnd fuel toks) as [[rhs r]|] eqn:E; [|discriminate H].
      destruct (IA _ _ _ F E) as (-> & Fr).
      destruct n; exact (IOL _ _ _ _ Fr H).
  - intros toks node rest F H. cbn [parseOr] in H.
    destruct (parseAnd fuel toks) as [[n r]|] eqn:E; [|discriminate H].
    destruct (IA _ _ _ F E) as (-> & Fr). exact (IOL _ _ _ _ Fr H).
Qed.

(** X12 (parseSearchQuery, evaluateSearchAST): a query whose tokens are
    only parentheses and the keywords [AND] and [OR], with no term and no
    comparison, parses to [null], and then the filter keeps every row. *)
Theorem parseSearchQuery_no_operand (query : string) (toks : list token) :
  tokenize query = Some toks ->
  Forall (fun t => leaf t = None) toks ->
  parseSearchQuery query = None
  /\ forall host this row,
       searchAST this = parseSearchQuery query ->
       keepRow host this row = true.
Proof.
  intros T F.
  assert (P : parseSearchQuery query = None).
  { unfold parseSearchQuery.
    destruct (negb (nonEmpty query) || negb (nonEmpty (trim query)));
      [reflexivity|].
    rewrite T. unfold parseTokens.
    destruct (parseOr (parseFuel toks) toks) as [[node rest]|] eqn:E;
      [|reflexivity].
    destruct (parse_no_operand (parseFuel toks)) as (_ & _ & _ & _ & H).
    exact (proj1 (H toks node rest F E)). }
  split; [exact P|].
  intros host this row A. unfold keepRow. rewrite A, P.
  rewrite !orb_true_r. reflexivity.
Qed.

Lemma parseSearchQuery_no_operand_witness :
  parseSearchQuery "( and ) OR" = None
  /\ forall host this row,
       searchAST this = parseSearchQuery "( and ) OR" ->
       keepRow host this row = true.
Proof.
  apply (parseSearchQuery_no_operand "( and ) OR" [LPAREN; AND; RPAREN; OR]).
  - vm_compute. reflexivity.
  - repeat constructor.
Defined.

Section ExplicitAnd.
Context (a b : token) (r : list token).
Hypothesis a_operand : leaf a <> None.
Hypothesis b_operand : b <> RPAREN /\ b <> AND /\ b <> OR.

(** Two token lists that differ in the keyword between [a] and [b], which
    is still ahead; and the two lists right after [a]. *)
Lemma parse_explicit_and fuel :
  (forall ts ts',
     ts = ts' \/ (exists l, ts = app l (a :: AND :: b :: r)
                            /\ ts' = app l (a :: b :: r)) ->
     match parseTerm fuel ts, parseTerm fuel ts' with
     | Some (n, rest), Some (n', rest') =>
         n = n'
         /\ (rest = rest'
             \/ (exists l, rest = app l (a :: AND :: b :: r)
                           /\ rest' = app l (a :: b :: r))
             \/ rest = AND :: b :: r /\ rest' = b :: r)
     | None, None => True
     | _, _ => False
     end)
  /\ (forall node ts ts',
        ts = ts' \/ (exists l, ts = app l (a :: AND :: b :: r)
                               /\ ts' = app l (a :: b :: r))
        \/ ts = AND :: b :: r /\ ts' = b :: r ->
        match parseAndLoop fuel node ts, parseAndLoop fuel node ts' with
        | Some (n, rest), Some (n', rest') =>
            n = n'
            /\ (rest = rest'
                \/ (exists l, rest = app l (a :: AND :: b :: r)
                              /\ rest' = app l (a :: b :: r)))
        | None, None => True
        | _, _ => False
        end)
  /\ (forall ts ts',
        ts = ts' \/ (exists l, ts = app l (a :: AND :: b :: r)
                               /\ ts' = app l (a :: b :: r)) ->
        match parseAnd fuel ts, parseAnd fuel ts' with
        | Some (n, rest), Some (n', rest') =>
            n = n'
            /\ (rest = rest'
                \/ (exists l, rest = app l (a :: AND :: b :: r)
                              /\ rest' = app l (a :: b :: r)))
        | None, None => True
        | _, _ => False
        end)
  /\ (forall node ts ts',
        ts = ts' \/ (exists l, ts = app l (a :: AND :: b :: r)
                               /\ ts' = app l (a :: b :: r)) ->
        match parseOrLoop fuel node ts, parseOrLoop fuel node ts' with
        | Some (n, rest), Some (n', rest') =>
            n = n'
            /\ (rest = rest'
                \/ (exists l, rest = app l (a :: AND :: b :: r)
                              /\ rest' = app l (a :: b :: r)))
        | None, None => True
        | _, _ => False
        end)
  /\ (forall ts ts',
        ts = ts' \/ (exists l, ts = app l (a :: AND :: b :: r)
                               /\ ts' = app l (a :: b :: r)) ->
        match parseOr fuel ts, parseOr fuel ts' with
        | Some (n, rest), Some (n', rest') =>
            n = n'
            /\ (rest = rest'
                \/ (exists l, rest = app l (a :: AND :: b :: r)
                              /\ rest' = app l (a :: b :: r)))
        | None, None => True
        | _, _ => False
        end).
Proof.
  assert (Same : forall (x : option (option ast * list token)),
    match x, x with
    | Some (n, rest), Some (n', rest') =>
        n = n'
        /\ (rest = rest'
            \/ (exists l, rest = app l (a :: AND :: b :: r)
                          /\ rest' = app l (a :: b :: r)))
    | None, None => True
    | _, _ => False
    end).
  { intros [[n rest]|]; auto. }
  induction fuel as [|fuel (IT & IL & IA & IOL & IO)].
  { repeat split; intros; exact I. }
  (* the loops after a term, whatever the term left *)
  assert (AndStep : forall node ts ts',
    ts = ts' \/ (exists l, ts = app l (a :: AND :: b :: r)
                           /\ ts' = app l (a :: b :: r)) ->
    match
      match parseTerm fuel ts with
      | Some (rhs, rest') => parseAndLoop fuel (join AstAnd node rhs) rest'
      | None => None
      end,
      match parseTerm fuel ts' with
      | Some (rhs, rest') => parseAndLoop fuel (join AstAnd node rhs) rest'
      | None => None
      end
    with
    | Some (n, rest), Some (n', rest') =>
        n = n'
        /\ (rest = rest'
            \/ (exists l, rest = app l (a :: AND :: b :: r)
                          /\ rest' = app l (a :: b :: r)))
    | None, None => True
    | _, _ => False
    end).
  { intros node ts ts' Rel. specialize (IT ts ts' Rel).
    destruct (parseTerm fuel ts) as [[n rest]|],
             (parseTerm fuel ts') as [[n' rest']|]; try contradiction; auto.
    destruct IT as (<- & Rel'). apply IL.
    destruct Rel' as [E|[E|E]]; auto. }
  assert (OrStep : forall node ts ts',
    ts = ts' \/ (exists l, ts = app l (a :: AND :: b :: r)
                           /\ ts' = app l (a :: b :: r)) ->
    match
      match parseAnd fuel ts with
      | Some (rhs, rest') => parseOrLoop fuel (join AstOr node rhs) rest'
      | None => None
      end,
      match parseAnd fuel ts' with
      | Some (rhs, rest') => parseOrLoop fuel (join AstOr node rhs) rest'
      | None => None
      end
    with
    | Some (n, rest), Some (n', rest') =>
        n = n'
        /\ (rest = rest'
            \/ (exists l, rest = app l (a :: AND :: b :: r)
                          /\ rest' = app l (a :: b :: r)))
    | None, None => True
    | _, _ => False
    end).
  { intros node ts ts' Rel. specialize (IA ts ts' Rel).
    destruct (parseAnd fuel ts) as [[n rest]|],
             (parseAnd fuel ts') as [[n' rest']|]; try contradiction; auto.
    destruct IA as (<- & Rel'). apply IOL. exact Rel'. }
  split; [|split; [|split; [|split]]].
  - (* parseTerm *)
    intros ts ts' [<-|(l & -> & ->)].
    { destruct (parseTerm (S fuel) ts) as [[n rest]|]; auto. }
    destruct l as [|t l].
    + cbn [app]. destruct a; try (exfalso; apply a_operand; reflexivity);
        cbn [parseTerm]; auto.
    + cbn [app]. destruct t; cbn [parseTerm];
        try (split; [reflexivity | right; left; exists l; auto]).
      specialize (IO (app l (a :: AND :: b :: r)) (app l (a :: b :: r))
                    ltac:(right; exists l; auto)).
      destruct (parseOr fuel (app l (a :: AND :: b :: r))) as [[n rest]|],
               (parseOr fuel (app l (a :: b :: r))) as [[n' rest']|];
        try contradiction; auto.
      destruct IO as (<- & [<-|(l' & -> & ->)]).
      * destruct rest as [|[] rest]; auto.
      * destruct l' as [|t' l'].
        -- cbn [app]. destruct a;
             try (exfalso; apply a_operand; reflexivity);
             (split; [reflexivity | right; left; exists []; auto]).
        -- cbn [app]. destruct t';
             (split; [reflexivity | right; left]);
             try (exists l'; split; reflexivity);
             (eexists (_ :: l'); split; reflexivity).
  - (* parseAndLoop *)
    intros node ts ts' [<-|[(l & -> & ->)|(-> & ->)]].
    { destruct (parseAndLoop (S fuel) node ts) as [[n rest]|]; auto. }
    + destruct l as [|t l].
      * cbn [app].
        change (parseAndLoop (S fuel) node (a :: AND :: b :: r))
          with (match a with
                | AND =>
                    match parseTerm fuel (AND :: b :: r) with
                    | Some (rhs, rest') =>
                        parseAndLoop fuel (join AstAnd node rhs) rest'
                    | None => None
                    end
                | TERM _ _ | INEQUALITY _ _ _ | LPAREN =>
                    match parseTerm fuel (a :: AND :: b :: r) with
                    | Some (rhs, rest') =>
                        parseAndLoop fuel (join AstAnd node rhs) rest'
                    | None => None
                    end
                | _ => Some (node, a :: AND :: b :: r)
                end).
        change (parseAndLoop (S fuel) node (a :: b :: r))
          with (match a with
                | AND =>
                    match parseTerm fuel (b :: r) with
                    | Some (rhs, rest') =>
                        parseAndLoop fuel (join AstAnd node rhs) rest'
                    | None => None
                    end
                | TERM _ _ | INEQUALITY _ _ _ | LPAREN =>
                    match parseTerm fuel (a :: b :: r) with
                    | Some (rhs, rest') =>
                        parseAndLoop fuel (join AstAnd node rhs) rest'
                    | None => None
                    end
                | _ => Some (node, a :: b :: r)
                end).
        pose proof (AndStep node (a :: AND :: b :: r) (a :: b :: r)
                      ltac:(right; exists []; auto)) as St.
        destruct a; try (exfalso; apply a_operand; reflexivity); exact St.
      * cbn [app].
        pose proof (AndStep node (app l (a :: AND :: b :: r))
                      (app l (a :: b :: r))
                      ltac:(right; exists l; auto)) as St1.
        pose proof (AndStep node (t :: app l (a :: AND :: b :: r))
                      (t :: app l (a :: b :: r))
                      ltac:(right; exists (t :: l); auto)) as St2.
        destruct t; cbn [parseAndLoop];
          try exact St1; try exact St2;
          (split; [reflexivity | right; eexists (_ :: l); split; reflexivity]).
    + destruct b_operand as (B1 & B2 & B3).
      change (parseAndLoop (S fuel) node (AND :: b :: r))
        with (match parseTerm fuel (b :: r) with
              | Some (rhs, rest') =>
                  parseAndLoop fuel (join AstAnd node rhs) rest'
              | None => None
              end).
      pose proof (AndStep node (b :: r) (b :: r) ltac:(left; reflexivity)) as St.
      destruct b; try contradiction; exact St.
  - (* parseAnd *)
    intros ts ts' Rel. cbn [parseAnd].
    specialize (IT ts ts' Rel).
    destruct (parseTerm fuel ts) as [[n rest]|],
             (parseTerm fuel ts') as [[n' rest']|]; try contradiction; auto.
    destruct IT as (<- & Rel'). apply IL.
    destruct Rel' as [E|[E|E]]; auto.
  - (* parseOrLoop *)
    intros node ts ts' [<-|(l & -> & ->)].
    { destruct (parseOrLoop (S fuel) node ts) as [[n rest]|]; auto. }
    destruct l as [|t l].
    + cbn [app]. destruct a; try (exfalso; apply a_operand; reflexivity);
        cbn [parseOrLoop]; (split; [reflexivity | right; exists []; auto]).
    + cbn [app].
      pose proof (OrStep node (app l (a :: AND :: b :: r))
                    (app l (a :: b :: r))
                    ltac:(right; exists l; auto)) as St.
      destruct t; cbn [parseOrLoop]; try exact St;
        (split; [reflexivity | right; eexists (_ :: l); split; reflexivity]).
  - (* parseOr *)
    intros ts ts' Rel. cbn [parseOr].
    specialize (IA ts ts' Rel).
    destruct (parseAnd fuel ts) as [[n rest]|],
             (parseAnd fuel ts') as [[n' rest']|]; try contradiction; auto.
    destruct IA as (<- & Rel'). apply IOL. exact Rel'.
Qed.

End ExplicitAnd.

(** X13 (parseSearchQuery, the parser): the keyword [AND] between an
    operand and what can start the next operand is redundant.  Wherever in
    the token list a term or comparison is followed by [AND] and then by a
    term, a comparison or an opening parenthesis, the parser returns the
    same tree as without that [AND]. *)
Theorem parseTokens_explicit_and (l : list token) (a b : token)
  (r : list token) :
  leaf a <> None ->
  b <> RPAREN -> b <> AND -> b <> OR ->
  parseTokens (app l (a :: AND :: b :: r)) = parseTokens (app l (a :: b :: r)).
Proof.
  intros Ha B1 B2 B3.
  set (ts := app l (a :: AND :: b :: r)).
  set (ts' := app l (a :: b :: r)).
  destruct (parseTokens_fuel (parseFuel ts) ts ltac:(lia)) as (rest & E).
  destruct (parseTokens_fuel (parseFuel ts) ts') as (rest' & E').
  { unfold parseFuel, ts, ts'. rewrite !length_app. simpl. lia. }
  destruct (parse_explicit_and a b r Ha (conj B1 (conj B2 B3)) (parseFuel ts))
    as (_ & _ & _ & _ & H).
  specialize (H ts ts' ltac:(right; exists l; auto)).
  rewrite E, E' in H. exact (proj1 H).
Qed.

Lemma parseTokens_explicit_and_witness :
  parseTokens (app [TERM None "a"; OR]
                 (TERM None "b" :: AND :: LPAREN :: [TERM None "c"; RPAREN]))
  = parseTokens (app [TERM None "a"; OR]
                   (TERM None "b" :: LPAREN :: [TERM None "c"; RPAREN])).
Proof.
  apply (parseTokens_explicit_and [TERM None "a"; OR] (TERM None "b") LPAREN
           [TERM None "c"; RPAREN]); discriminate.
Defined.

Lemma flat_tail t ts : flat (t :: ts) = true -> flat ts = true.
Proof.
  cbn [flat]. intros H. apply andb_true_iff in H. destruct H as (_ & H).
  destruct ts; [reflexivity | exact H].
Qed.

Lemma flat_keyword t ts :
  flat (t :: ts) = true -> isOperand t = false -> ts <> [].
Proof.
  cbn [flat]. intros H O ->. apply andb_true_iff in H.
  rewrite O in H. destruct H as (_ & H). discriminate H.
Qed.

Section ClosingParenthesis.
Context (junk : list token).

(** The parser on a flat list and on the same list followed by a closing
    parenthesis and anything more: the same node, the same tokens left. *)
Lemma parse_flat fuel :
  (forall ts, flat ts = true -> ts <> [] ->
     match parseTerm fuel ts, parseTerm fuel (app ts (RPAREN :: junk)) with
     | Some (n, rest), Some (n', rest') =>
         n = n' /\ rest' = app rest (RPAREN :: junk) /\ flat rest = true
     | None, None => True
     | _, _ => False
     end)
  /\ (forall node ts, flat ts = true ->
        match parseAndLoop fuel node ts,
              parseAndLoop fuel node (app ts (RPAREN :: junk)) with
        | Some (n, rest), Some (n', rest') =>
            n = n' /\ rest' = app rest (RPAREN :: junk) /\ flat rest = true
        | None, None => True
        | _, _ => False
        end)
  /\ (forall ts, flat ts = true -> ts <> [] ->
        match parseAnd fuel ts, parseAnd fuel (app ts (RPAREN :: junk)) with
        | Some (n, rest), Some (n', rest') =>
            n = n' /\ rest' = app rest (RPAREN :: junk) /\ flat rest = true
        | None, None => True
        | _, _ => False
        end)
  /\ (forall node ts, flat ts = true ->
        match parseOrLoop fuel node ts,
              parseOrLoop fuel node (app ts (RPAREN :: junk)) with
        | Some (n, rest), Some (n', rest') =>
            n = n' /\ rest' = app rest (RPAREN :: junk) /\ flat rest = true
        | None, None => True
        | _, _ => False
        end)
  /\ (forall ts, flat ts = true -> ts <> [] ->
        match parseOr fuel ts, parseOr fuel (app ts (RPAREN :: junk)) with
        | Some (n, rest), Some (n', rest') =>
            n = n' /\ rest' = app rest (RPAREN :: junk) /\ flat rest = true
        | None, None => True
        | _, _ => False
        end).
Proof.
  induction fuel as [|fuel (IT & IL & IA & IOL & IO)].
  { repeat split; intros; exact I. }
  assert (AndStep : forall node ts, flat ts = true -> ts <> [] ->
    match
      match parseTerm fuel ts with
      | Some (rhs, rest') => parseAndLoop fuel (join AstAnd node rhs) rest'
      | None => None
      end,
      match parseTerm fuel (app ts (RPAREN :: junk)) with
      | Some (rhs, rest') => parseAndLoop fuel (join AstAnd node rhs) rest'
      | None => None
      end
    with
    | Some (n, rest), Some (n', rest') =>
        n = n' /\ rest' = app rest (RPAREN :: junk) /\ flat rest = true
    | None, None => True
    | _, _ => False
    end).
  { intros node ts F N. specialize (IT ts F N).
    destruct (parseTerm fuel ts) as [[n rest]|],
             (parseTerm fuel (app ts (RPAREN :: junk))) as [[n' rest']|];
      try contradiction; auto.
    destruct IT as (<- & -> & Fr). apply IL. exact Fr. }
  assert (OrStep : forall node ts, flat ts = true -> ts <> [] ->
    match
      match parseAnd fuel ts with
      | Some (rhs, rest') => parseOrLoop fuel (join AstOr node rhs) rest'
      | None => None
      end,
      match parseAnd fuel (app ts (RPAREN :: junk)) with
      | Some (rhs, rest') => parseOrLoop fuel (join AstOr node rhs) rest'
      | None => None
      end
    with
    | Some (n, rest), Some (n', rest') =>
        n = n' /\ rest' = app rest (RPAREN :: junk) /\ flat rest = true
    | None, None => True
    | _, _ => False
    end).
  { intros node ts F N. specialize (IA ts F N).
    destruct (parseAnd fuel ts) as [[n rest]|],
             (parseAnd fuel (app ts (RPAREN :: junk))) as [[n' rest']|];
      try contradiction; auto.
    destruct IA as (<- & -> & Fr). apply IOL. exact Fr. }
  split; [|split; [|split; [|split]]].
  - intros ts F N. destruct ts as [|t ts]; [contradiction|].
    pose proof (flat_tail t ts F) as Ft.
    cbn [app]. destruct t; try discriminate F; cbn [parseTerm]; auto.
  - intros node ts F. destruct ts as [|t ts].
    + cbn [app parseAndLoop]. auto.
    + pose proof (flat_tail t ts F) as Ft.
      cbn [app].
      pose proof (AndStep node (t :: ts) F ltac:(discriminate)) as St.
      destruct t; try discriminate F; cbn [parseAndLoop]; try exact St; auto.
      apply (AndStep node ts Ft).
      apply (flat_keyword AND ts F). reflexivity.
  - intros ts F N. cbn [parseAnd]. specialize (IT ts F N).
    destruct (parseTerm fuel ts) as [[n rest]|],
             (parseTerm fuel (app ts (RPAREN :: junk))) as [[n' rest']|];
      try contradiction; auto.
    destruct IT as (<- & -> & Fr). apply IL. exact Fr.
  - intros node ts F. destruct ts as [|t ts].
    + cbn [app parseOrLoop]. auto.
    + pose proof (flat_tail t ts F) as Ft.
      cbn [app].
      destruct t; try discriminate F; cbn [parseOrLoop]; auto.
      apply (OrStep node ts Ft).
      apply (flat_keyword OR ts F). reflexivity.
  - intros ts F N. cbn [parseOr]. specialize (IA ts F N).
    destruct (parseAnd fuel ts) as [[n rest]|],
             (parseAnd fuel (app ts (RPAREN :: junk))) as [[n' rest']|];
      try contradiction; auto.
    destruct IA as (<- & -> & Fr). apply IOL. exact Fr.
Qed.

End ClosingParenthesis.

(** X14 (parseSearchQuery, the parser): a closing parenthesis that closes
    nothing ends the query.  After a token list without parentheses that
    ends in a term or a comparison, a closing parenthesis and everything
    behind it are ignored: the tree is that of the tokens before it. *)
Theorem parseTokens_closing_parenthesis (ts junk : list token) :
  flat ts = true -> ts <> [] ->
  parseTokens (app ts (RPAREN :: junk)) = parseTokens ts.
Proof.
  intros F N.
  set (ts' := app ts (RPAREN :: junk)).
  destruct (parseTokens_fuel (parseFuel ts') ts' ltac:(lia)) as (rest' & E').
  destruct (parseTokens_fuel (parseFuel ts') ts) as (rest & E).
  { unfold parseFuel, ts'. rewrite length_app. lia. }
  destruct (parse_flat junk (parseFuel ts')) as (_ & _ & _ & _ & H).
  specialize (H ts F N). fold ts' in H. rewrite E, E' in H.
  symmetry. exact (proj1 H).
Qed.

Lemma parseTokens_closing_parenthesis_witness :
  parseTokens (app [TERM None "a"; OR; TERM None "b"]
                 (RPAREN :: [TERM None "c"; OR; TERM None "d"]))
  = parseTokens [TERM None "a"; OR; TERM None "b"].
Proof.
  apply (parseTokens_closing_parenthesis [TERM None "a"; OR; TERM None "b"]
           [TERM None "c"; OR; TERM None "d"]).
  - reflexivity.
  - discriminate.
Defined.

(** On a flat list [parseOr] reads every token. *)
Lemma parse_flat_all fuel :
  (forall ts n rest, flat ts = true -> ts <> [] ->
     parseTerm fuel ts = Some (n, rest) -> flat rest = true)
  /\ (forall node ts n rest, flat ts = true ->
        parseAndLoop fuel node ts = Some (n, rest) ->
        flat rest = true /\ (rest = [] \/ exists r, rest = OR :: r))
  /\ (forall ts n rest, flat ts = true -> ts <> [] ->
        parseAnd fuel ts = Some (n, rest) ->
        flat rest = true /\ (rest = [] \/ exists r, rest = OR :: r))
  /\ (forall node ts n rest, flat ts = true ->
        ts = [] \/ (exists r, ts = OR :: r) ->
        parseOrLoop fuel node ts = Some (n, rest) -> rest = [])
  /\ (forall ts n rest, flat ts = true -> ts <> [] ->
        parseOr fuel ts = Some (n, rest) -> rest = []).
Proof.
  induction fuel as [|fuel (IT & IL & IA & IOL & IO)].
  { repeat split; intros; discriminate. }
  split; [|split; [|split; [|split]]].
  - intros ts n rest F N H. destruct ts as [|t ts]; [contradiction|].
    pose proof (flat_tail t ts F) as Ft.
    destruct t; try discriminate F; cbn [parseTerm] in H;
      injection H as <- <-; exact Ft.
  - intros node ts n rest F H. destruct ts as [|t ts].
    + injection H as <- <-. auto.
    + pose proof (flat_tail t ts F) as Ft.
      destruct t; try discriminate F; cbn [parseAndLoop] in H.
      * destruct (parseTerm fuel ts) as [[rhs r]|] eqn:E; [|discriminate H].
        refine (IL _ r n rest _ H).
        apply (IT ts rhs r Ft); [|exact E].
        apply (flat_keyword AND ts F). reflexivity.
      * injection H as <- <-. split; [exact F | right; eauto].
      * destruct (parseTerm fuel (TERM column value :: ts)) as [[rhs r]|] eqn:E;
          [|discriminate H].
        refine (IL _ r n rest _ H).
        apply (IT _ rhs r F); [discriminate | exact E].
      * destruct (parseTerm fuel (INEQUALITY column op value :: ts))
          as [[rhs r]|] eqn:E; [|discriminate H].
        refine (IL _ r n rest _ H).
        apply (IT _ rhs r F); [discriminate | exact E].
  - intros ts n rest F N H. cbn [parseAnd] in H.
    destruct (parseTerm fuel ts) as [[node r]|] eqn:E; [|discriminate H].
    refine (IL node r n rest _ H).
    exact (IT ts node r F N E).
  - intros node ts n rest F S H. destruct S as [->|(r & ->)].
    + injection H as <- <-. reflexivity.
    + cbn [parseOrLoop] in H.
      destruct (parseAnd fuel r) as [[rhs r']|] eqn:E; [|discriminate H].
      destruct (IA r rhs r' (flat_tail OR r F)
                  (flat_keyword OR r F eq_refl) E) as (Fr & Sr).
      exact (IOL _ r' n rest Fr Sr H).
  - intros ts n rest F N H. cbn [parseOr] in H.
    destruct (parseAnd fuel ts) as [[node r]|] eqn:E; [|discriminate H].
    destruct (IA ts node r F N E) as (Fr & Sr).
    exact (IOL _ r n rest Fr Sr H).
Qed.

(** What [parseTerm] returns on a flat list between parentheses. *)
Lemma parseTerm_parenthesized (ts rest : list token) (fuel : nat) :
  flat ts = true -> ts <> [] ->
  (parseFuel ts <= fuel)%nat ->
  parseTerm (S fuel) (LPAREN :: app ts (RPAREN :: rest))
  = Some (parseTokens ts, rest).
Proof.
  intros F N L. cbn [parseTerm].
  destruct (parseTokens_fuel fuel ts L) as (r & E).
  destruct (parse_flat_all fuel) as (_ & _ & _ & _ & A).
  pose proof (A ts _ r F N E) as ->.
  destruct (parse_flat rest fuel) as (_ & _ & _ & _ & H).
  specialize (H ts F N). rewrite E in H.
  destruct (parseOr fuel (app ts (RPAREN :: rest))) as [[n' r']|];
    [|contradiction].
  destruct H as (<- & -> & _). reflexivity.
Qed.

(** X15 (parseSearchQuery, the parser): parentheses make one operand of
    what they enclose.  A token list without parentheses that ends in a
    term or a comparison, put between parentheses, parses to the same tree
    as without them; followed by one more term or comparison, it is the
    left operand of an [AND] with it, also when it holds an [OR]. *)
Theorem parseTokens_parenthesized (ts : list token) (c : token) :
  flat ts = true -> ts <> [] -> leaf c <> None ->
  parseTokens (LPAREN :: app ts [RPAREN]) = parseTokens ts
  /\ parseTokens (LPAREN :: app ts [RPAREN; c])
     = join AstAnd (parseTokens ts) (leaf c).
Proof.
  intros F N C. split.
  - unfold parseTokens at 1. unfold parseFuel.
    cbn [length]. rewrite length_app. cbn [length].
    replace (4 * S (length ts + 1) + 4)%nat
      with (S (S (S (4 * length ts + 9)))) by lia.
    cbn [parseOr parseAnd].
    rewrite parseTerm_parenthesized by (assumption || unfold parseFuel; lia).
    reflexivity.
  - unfold parseTokens at 1. unfold parseFuel.
    cbn [length]. rewrite length_app. cbn [length].
    replace (4 * S (length ts + 2) + 4)%nat
      with (S (S (S (4 * length ts + 13)))) by lia.
    cbn [parseOr parseAnd].
    rewrite parseTerm_parenthesized by (assumption || unfold parseFuel; lia).
    replace (S (4 * length ts + 13)) with (S (S (S (4 * length ts + 11))))
      by lia.
    destruct c; try (exfalso; apply C; reflexivity); reflexivity.
Qed.

Lemma parseTokens_parenthesized_witness :
  parseTokens (LPAREN :: app [TERM None "a"; OR; TERM None "b"] [RPAREN])
  = parseTokens [TERM None "a"; OR; TERM None "b"]
  /\ parseTokens
       (LPAREN :: app [TERM None "a"; OR; TERM None "b"]
                    [RPAREN; TERM None "c"])
     = join AstAnd (parseTokens [TERM None "a"; OR; TERM None "b"])
         (leaf (TERM None "c")).
Proof.
  apply (parseTokens_parenthesized [TERM None "a"; OR; TERM None "b"]
           (TERM None "c")).
  - reflexivity.
  - discriminate.
  - discriminate.
Defined.

End ParserShapes.

(** ** What a term matches *)

Section TermFacts.
Import JsString Csv2Table.

Lemma escapeRegExp_length (v : string) :
  (String.length v <= String.length (escapeRegExp v))%nat.
Proof.
  induction v as [|c v IH]; [reflexivity|].
  cbn [escapeRegExp]. destruct (isMetaChar c); simpl; lia.
Qed.

Lemma groupNames_literal (v : string) : forall acc,
  RegExp.groupNames (RegExp.literal acc v) = RegExp.groupNames acc.
Proof.
  induction v as [|c v IH]; intros acc; [reflexivity|].
  cbn [RegExp.literal]. rewrite IH. simpl. apply app_nil_r.
Qed.

(** Reading the escaped characters of [v] adds them to the sequence. *)
Lemma parseAlternative_literal (v : string) : forall fuel acc tail,
  plainPattern tail ->
  RegExp.parseAlternative (String.length v + S fuel)
    (escapeRegExp v +:+ tail) acc
  = RegExp.parseAlternative (S fuel) tail (RegExp.literal acc v).
Proof.
  induction v as [|c v IH]; intros fuel acc tail Ht; [reflexivity|].
  pose proof (plain_escapeRegExp v tail Ht) as Hp.
  cbn [escapeRegExp RegExp.literal String.length].
  change (S (String.length v) + S fuel)%nat
    with (S (String.length v + S fuel)).
  destruct (isMetaChar c) eqn:E.
  - change (String "\" (String c (escapeRegExp v)) +:+ tail)
      with (String "\" (String c (escapeRegExp v +:+ tail))).
    rewrite parseAlternative_step by reflexivity.
    rewrite Nat.add_succ_r.
    rewrite parseTerm_plain_escaped by assumption. cbn [RegExp.bind].
    rewrite <- Nat.add_succ_r. apply IH. exact Ht.
  - change (String c (escapeRegExp v) +:+ tail)
      with (String c (escapeRegExp v +:+ tail)).
    assert (H1 : Ascii.eqb c "|" = false).
    { destruct (Ascii.eqb_spec c "|") as [->|]; [discriminate E | reflexivity]. }
    assert (H2 : Ascii.eqb c ")" = false).
    { destruct (Ascii.eqb_spec c ")") as [->|]; [discriminate E | reflexivity]. }
    rewrite parseAlternative_step by assumption.
    rewrite Nat.add_succ_r.
    rewrite parseTerm_plain_char by assumption. cbn [RegExp.bind].
    rewrite <- Nat.add_succ_r. apply IH. exact Ht.
Qed.

Lemma parseAlternative_anchored (v : string) (isEndsWith : bool) fuel acc :
  (String.length v + 2 <= fuel)%nat ->
  RegExp.parseAlternative fuel
    (escapeRegExp v +:+ (if isEndsWith then "$" else "")) acc
  = RegExp.Ok
      (if isEndsWith
       then RegExp.Seq (RegExp.literal acc v) RegExp.LineEnd
       else RegExp.literal acc v, "").
Proof.
  intros L.
  replace fuel
    with (String.length v + S (S (fuel - String.length v - 2)))%nat by lia.
  rewrite parseAlternative_literal by (destruct isEndsWith; constructor).
  destruct isEndsWith; reflexivity.
Qed.

(** [new RegExp(finalRegexStr, 'i')] is the pattern [termRegex]. *)
Lemma new_termPattern (value : string) :
  RegExp.new (termPattern value) true
  = Some {| RegExp.source := termRegex value; RegExp.ignoreCase := true |}.
Proof.
  unfold termPattern, termRegex.
  set (v1 := if startsWith "^" value then drop 1 value else value).
  set (a2 := endsWith "$" v1).
  set (v2 := if a2 then take (String.length v1 - 1) v1 else v1).
  set (p := escapeRegExp v2 +:+ (if a2 then "$" else "")).
  assert (Hp : plainPattern p).
  { apply plain_escapeRegExp. destruct a2; constructor. }
  assert (Lp : (String.length v2 <= String.length p)%nat).
  { unfold p. rewrite length_append.
    pose proof (escapeRegExp_length v2). lia. }
  unfold RegExp.new, RegExp.parsePattern.
  set (pattern := (if startsWith "^" value then "^" else "") +:+ p).
  replace (4 * String.length pattern + 4)%nat
    with (S (4 * String.length pattern + 3)) by lia.
  cbn [RegExp.parseDisjunction].
  assert (A : RegExp.parseAlternative (4 * String.length pattern + 3) pattern
                RegExp.Empty
              = RegExp.Ok
                  (if a2
                   then RegExp.Seq
                          (RegExp.literal
                             (if startsWith "^" value
                              then RegExp.Seq RegExp.Empty RegExp.LineStart
                              else RegExp.Empty) v2) RegExp.LineEnd
                   else RegExp.literal
                          (if startsWith "^" value
                           then RegExp.Seq RegExp.Empty RegExp.LineStart
                           else RegExp.Empty) v2, "")).
  { subst pattern. destruct (startsWith "^" value).
    - change ("^" +:+ p) with (String "^" p).
      replace (4 * String.length (String "^" p) + 3)%nat
        with (S (S (4 * String.length p + 5))) by (simpl; lia).
      rewrite parseAlternative_step by reflexivity.
      cbn [RegExp.parseTerm]. unfold RegExp.unquantified.
      rewrite (plain_no_quantifier p Hp). cbn [RegExp.bind].
      apply parseAlternative_anchored. lia.
    - change ("" +:+ p) with p. apply parseAlternative_anchored. lia. }
  rewrite A. cbn [RegExp.bind].
  assert (G : RegExp.groupNames
                (if a2
                 then RegExp.Seq
                        (RegExp.literal
                           (if startsWith "^" value
                            then RegExp.Seq RegExp.Empty RegExp.LineStart
                            else RegExp.Empty) v2) RegExp.LineEnd
                 else RegExp.literal
                        (if startsWith "^" value
                         then RegExp.Seq RegExp.Empty RegExp.LineStart
                         else RegExp.Empty) v2) = []).
  { destruct a2, (startsWith "^" value); cbn [RegExp.groupNames];
      rewrite groupNames_literal; reflexivity. }
  rewrite G. reflexivity.
Qed.

(** Matching the characters of [v]. *)
Lemma run_literal (ic : bool) (v : string) : forall acc pos s caps k,
  RegExp.run ic (RegExp.literal acc v) pos s caps k
  = RegExp.run ic acc pos s caps
      (fun pos' s' caps' => RegExp.matchLiteral ic v pos' s' caps' k).
Proof.
  induction v as [|c v IH]; intros acc pos s caps k; [reflexivity|].
  cbn [RegExp.literal]. rewrite IH. reflexivity.
Qed.

Lemma matchLiteral_startsWith (v : string) : forall pos s caps,
  RegExp.matchLiteral true v pos s caps (fun _ _ caps' => Some caps')
  = if startsWithIgnoreCase v s then Some caps else None.
Proof.
  induction v as [|c v IH]; intros pos s caps; [reflexivity|].
  destruct s as [|d s]; [reflexivity|].
  cbn [RegExp.matchLiteral startsWithIgnoreCase RegExp.sameChar].
  destruct (Ascii.eqb (toLowerChar c) (toLowerChar d)); [apply IH | reflexivity].
Qed.

Lemma matchLiteral_equal (v : string) : forall pos s caps,
  RegExp.matchLiteral true v pos s caps
    (fun pos' s' caps' =>
       RegExp.run true RegExp.LineEnd pos' s' caps' (fun _ _ c => Some c))
  = if equalIgnoreCase v s then Some caps else None.
Proof.
  induction v as [|c v IH]; intros pos s caps.
  - destruct s; reflexivity.
  - destruct s as [|d s]; [reflexivity|].
    cbn [RegExp.matchLiteral equalIgnoreCase RegExp.sameChar].
    destruct (Ascii.eqb (toLowerChar c) (toLowerChar d)); [apply IH | reflexivity].
Qed.

(** One attempt of the pattern of a term at the index [pos]. *)
Lemma run_termRegex (isStartsWith isEndsWith : bool) (v : string) pos s :
  RegExp.run true
    (if isEndsWith
     then RegExp.Seq
            (RegExp.literal
               (if isStartsWith
                then RegExp.Seq RegExp.Empty RegExp.LineStart
                else RegExp.Empty) v) RegExp.LineEnd
     else RegExp.literal
            (if isStartsWith
             then RegExp.Seq RegExp.Empty RegExp.LineStart
             else RegExp.Empty) v)
    pos s [] (fun _ _ caps => Some caps)
  = if (if isStartsWith then (pos =? 0)%nat else true)
       && (if isEndsWith then equalIgnoreCase v s
           else startsWithIgnoreCase v s)
    then Some [] else None.
Proof.
  destruct isEndsWith, isStartsWith; cbn [RegExp.run]; rewrite run_literal;
    cbn [RegExp.run]; try destruct (pos =? 0)%nat; cbn [andb];
    try reflexivity;
    first [apply matchLiteral_equal | apply matchLiteral_startsWith].
Qed.

Lemma search_termRegex (isStartsWith isEndsWith : bool) (v s : string) :
  forall pos,
  match RegExp.search true
    (if isEndsWith
     then RegExp.Seq
            (RegExp.literal
               (if isStartsWith
                then RegExp.Seq RegExp.Empty RegExp.LineStart
                else RegExp.Empty) v) RegExp.LineEnd
     else RegExp.literal
            (if isStartsWith
             then RegExp.Seq RegExp.Empty RegExp.LineStart
             else RegExp.Empty) v)
    pos s with
  | Some _ => true
  | None => false
  end
  = match isStartsWith, isEndsWith with
    | true, true => (pos =? 0)%nat && equalIgnoreCase v s
    | true, false => (pos =? 0)%nat && startsWithIgnoreCase v s
    | false, true => endsWithIgnoreCase v s
    | false, false => includesIgnoreCase v s
    end.
Proof.
  induction s as [|d s IH]; intros pos; cbn [RegExp.search];
    rewrite run_termRegex.
  - destruct isStartsWith, isEndsWith, (pos =? 0)%nat; cbn [andb];
      cbn [endsWithIgnoreCase includesIgnoreCase];
      try destruct (equalIgnoreCase v ""); try destruct (startsWithIgnoreCase v "");
      reflexivity.
  - specialize (IH (S pos)).
    destruct isStartsWith, isEndsWith; cbn [andb] in *;
      cbn [endsWithIgnoreCase includesIgnoreCase].
    + destruct (pos =? 0)%nat; cbn [andb];
        [destruct (equalIgnoreCase v (String d s)); [reflexivity|]|];
        rewrite IH; reflexivity.
    + destruct (pos =? 0)%nat; cbn [andb];
        [destruct (startsWithIgnoreCase v (String d s)); [reflexivity|]|];
        rewrite IH; reflexivity.
    + destruct (equalIgnoreCase v (String d s)); [reflexivity|].
      rewrite IH. reflexivity.
    + destruct (startsWithIgnoreCase v (String d s)); [reflexivity|].
      rewrite IH. reflexivity.
Qed.

(** The pattern of a term tests what [termMatches] says. *)
Lemma test_termRegex (value text : string) :
  RegExp.test
    {| RegExp.source := termRegex value; RegExp.ignoreCase := true |} text
  = termMatches value text.
Proof.
  unfold RegExp.test, RegExp.exec, termRegex, termMatches.
  cbn [RegExp.source RegExp.ignoreCase]. cbv zeta.
  rewrite search_termRegex.
  destruct (startsWith "^" value), (endsWith "$" _); reflexivity.
Qed.

(** X16 (evaluateSearchAST, TERM): a term is a plain text search.  The
    value of the term, without a [^] at its start and a [$] at its end, is
    looked for as it is written, with case ignored: no character of it acts
    as a pattern operator.  It must be part of the searched text; with [^]
    it must start the text, with [$] end it, with both be all of it.  The
    text is that of the named column, or of any visible column when the
    term names no column of the table. *)
Theorem evaluateTerm_plain_text host this (column : option string)
  (value : string) (row : Row) :
  evaluateTerm host this column value row
  = match targetColIndex this column with
    | Some i => termMatches value (searchText host this i (cellAt row i))
    | None =>
        someFrom
          (fun cell i =>
             bool_decide (i ∈ visibleColumns this)
             && termMatches value (searchText host this i cell))
          0 (cells row)
    end.
Proof.
  unfold evaluateTerm. rewrite new_termPattern.
  destruct (targetColIndex this column) as [i|].
  - apply test_termRegex.
  - apply someFrom_ext. intros cell i. rewrite test_termRegex. reflexivity.
Qed.

Example termMatches_examples :
  termMatches "a.b" "xA.By" = true
  /\ termMatches "a.b" "xaxby" = false
  /\ termMatches "(x" "f(X)" = true
  /\ termMatches "^a" "ab" = true
  /\ termMatches "^b" "ab" = false
  /\ termMatches "b$" "ab" = true
  /\ termMatches "^ab$" "AB" = true
  /\ termMatches "^ab$" "abc" = false
  /\ termMatches "a^b" "xa^b" = true.
Proof. repeat split. Qed.

End TermFacts.

(** ** A query of plain words *)

Section WordsQuery.
Import JsString Csv2Table.

Lemma plainWord_first w :
  isPlainWord w = true ->
  exists c r, w = String c r /\ isWhiteSpace c = false.
Proof.
  intros H. destruct w as [|c r]; [discriminate H|].
  exists c, r. split; [reflexivity|].
  unfold isPlainWord in H. apply andb_true_iff in H as [H _].
  apply andb_true_iff in H as [_ H]. simpl in H.
  apply andb_true_iff in H as [H _]. unfold isPlainChar, isValueChar in H.
  destruct (isWhiteSpace c); [discriminate H | reflexivity].
Qed.

(** The lexer on the words of a group, up to what follows the group. *)
Lemma lexLoop_words (ws : list string) : forall fuel tokens tail,
  ws <> [] ->
  Forall (fun w => isPlainWord w = true) ws ->
  endsWord tail ->
  (String.length (joinWords ws +:+ tail) <= fuel)%nat ->
  exists fuel',
    (String.length tail <= fuel')%nat
    /\ lexLoop fuel (joinWords ws +:+ tail) tokens
       = lexLoop fuel' tail
           (app tokens (map (fun w => TERM None (toLowerCase w)) ws)).
Proof.
  induction ws as [|w ws IH]; intros fuel tokens tail N F E L;
    [contradiction|].
  apply List.Forall_cons_iff in F. destruct F as (Hw & F).
  destruct (plainWord_first w Hw) as (c & r & Ew & _).
  cbn [joinWords] in *. destruct ws as [|w2 ws].
  - rewrite length_append in L.
    destruct fuel as [|fuel]; [subst w; simpl in L; lia|].
    exists fuel. split; [subst w; simpl in L; lia|].
    apply lexLoop_word; assumption.
  - rewrite append_assoc_string in *.
    change (String " " (joinWords (w2 :: ws)) +:+ tail)
      with (String " " (joinWords (w2 :: ws) +:+ tail)) in *.
    rewrite length_append in L. cbn [String.length] in L.
    assert (Lw : (1 <= String.length w)%nat) by (subst w; simpl; lia).
    destruct fuel as [|[|fuel]]; [lia | lia|].
    rewrite lexLoop_word; [|exact Hw|reflexivity].
    rewrite lexLoop_space by reflexivity.
    destruct (IH fuel (app tokens [TERM None (toLowerCase w)]) tail
                ltac:(discriminate) F E) as (fuel' & L' & E').
    { lia. }
    exists fuel'. split; [exact L'|].
    rewrite E', <- app_assoc. reflexivity.
Qed.

(** The tokens of the groups: an [OR] before every group but the first. *)
Lemma lexLoop_groups (groups : list (list string)) : forall fuel tokens,
  groups <> [] ->
  Forall (fun g => g <> [] /\ Forall (fun w => isPlainWord w = true) g) groups ->
  (String.length (joinGroups groups) <= fuel)%nat ->
  lexLoop fuel (joinGroups groups) tokens
  = Some (app tokens
            (tl (flat_map
                   (fun g => OR :: map (fun w => TERM None (toLowerCase w)) g)
                   groups))).
Proof.
  induction groups as [|g groups IH]; intros fuel tokens N F L;
    [contradiction|].
  apply List.Forall_cons_iff in F. destruct F as ((Ng & Fg) & F).
  cbn [joinGroups flat_map] in *. destruct groups as [|g2 groups].
  - rewrite <- (append_empty (joinWords g)) in *.
    destruct (lexLoop_words g fuel tokens "" Ng Fg I L) as (fuel' & _ & E).
    rewrite E, lexLoop_end. cbn [flat_map tl app]. rewrite app_nil_r.
    reflexivity.
  - change (" OR " +:+ joinGroups (g2 :: groups))
      with (String " " (String "O" (String "R"
              (String " " (joinGroups (g2 :: groups)))))) in *.
    destruct (lexLoop_words g fuel tokens
                (String " " (String "O" (String "R"
                   (String " " (joinGroups (g2 :: groups))))))
                Ng Fg eq_refl L) as (fuel' & L' & E).
    rewrite E. cbn [String.length] in L'.
    destruct fuel' as [|[|[|[|fuel']]]]; try lia.
    rewrite lexLoop_space by reflexivity.
    rewrite lexLoop_or by reflexivity.
    rewrite lexLoop_space by reflexivity.
    rewrite IH; [|discriminate|exact F|lia].
    cbn [tl app]. rewrite <- !app_assoc. reflexivity.
Qed.

Lemma parseAndLoop_terms host this row (ws : list string) :
  forall fuel node tail,
  (length ws + 1 <= fuel)%nat ->
  tail = [] \/ (exists r, tail = OR :: r) ->
  exists node',
    parseAndLoop fuel (Some node)
      (app (map (fun w => TERM None (toLowerCase w)) ws) tail)
    = Some (Some node', tail)
    /\ evaluateNode host this node' row
       = evaluateNode host this node row
         && forallb (fun w => evaluateTerm host this None (toLowerCase w) row) ws.
Proof.
  induction ws as [|w ws IH]; intros fuel node tail L T.
  - exists node. split; [|cbn [forallb]; rewrite andb_true_r; reflexivity].
    destruct fuel; [simpl in L; lia|].
    destruct T as [->|(r & ->)]; reflexivity.
  - destruct fuel as [|[|fuel]]; [simpl in L; lia | simpl in L; lia|].
    destruct (IH (S fuel) (AstAnd node (AstTerm None (toLowerCase w))) tail)
      as (node' & P & V); [simpl in L; lia | exact T|].
    exists node'. split.
    + remember (S fuel) as fuel1 eqn:E.
      cbn [map app parseAndLoop]. rewrite E at 1. cbn [parseTerm join].
      exact P.
    + rewrite V. cbn [evaluateNode forallb]. rewrite andb_assoc. reflexivity.
Qed.

Lemma parseAnd_terms host this row (g : list string) : forall fuel tail,
  g <> [] ->
  (length g + 2 <= fuel)%nat ->
  tail = [] \/ (exists r, tail = OR :: r) ->
  exists node,
    parseAnd fuel (app (map (fun w => TERM None (toLowerCase w)) g) tail)
    = Some (Some node, tail)
    /\ evaluateNode host this node row
       = forallb (fun w => evaluateTerm host this None (toLowerCase w) row) g.
Proof.
  intros fuel tail N L T. destruct g as [|w ws]; [contradiction|].
  destruct fuel as [|[|fuel]]; [simpl in L; lia | simpl in L; lia|].
  destruct (parseAndLoop_terms host this row ws (S fuel)
              (AstTerm None (toLowerCase w)) tail)
    as (node & P & V); [simpl in L; lia | exact T|].
  exists node. split; [|exact V].
  remember (S fuel) as fuel1 eqn:E.
  cbn [map app parseAnd]. rewrite E at 1. cbn [parseTerm]. exact P.
Qed.

Lemma parseOrLoop_groups host this row (groups : list (list string)) :
  forall fuel node,
  Forall (fun g => g <> []) groups ->
  (length (flat_map
             (fun g => OR :: map (fun w => TERM None (toLowerCase w)) g)
             groups) + 2 <= fuel)%nat ->
  exists node',
    parseOrLoop fuel (Some node)
      (flat_map (fun g => OR :: map (fun w => TERM None (toLowerCase w)) g)
         groups)
    = Some (Some node', [])
    /\ evaluateNode host this node' row
       = evaluateNode host this node row
         || existsb
              (forallb (fun w => evaluateTerm host this None (toLowerCase w) row))
              groups.
Proof.
  induction groups as [|g groups IH]; intros fuel node F L.
  - exists node. split; [|cbn [existsb]; rewrite orb_false_r; reflexivity].
    destruct fuel; [simpl in L; lia | reflexivity].
  - apply List.Forall_cons_iff in F. destruct F as (Ng & F).
    cbn [flat_map] in *. rewrite length_app in L.
    cbn [length] in L. rewrite length_map in L.
    destruct fuel as [|fuel]; [lia|].
    destruct (parseAnd_terms host this row g fuel
                (flat_map
                   (fun g => OR :: map (fun w => TERM None (toLowerCase w)) g)
                   groups) Ng)
      as (rhs & P & V); [lia| |].
    { destruct groups as [|g2 groups]; [left; reflexivity|].
      right. cbn [flat_map app]. eauto. }
    destruct (IH fuel (AstOr node rhs) F ltac:(lia)) as (node' & P' & V').
    exists node'. split.
    + cbn [app parseOrLoop]. rewrite P. cbn [join]. exact P'.
    + rewrite V'. cbn [evaluateNode existsb]. rewrite V, orb_assoc.
      reflexivity.
Qed.

Lemma parseTokens_groups host this row (g : list string)
  (groups : list (list string)) :
  g <> [] -> Forall (fun g => g <> []) groups ->
  exists node,
    parseTokens
      (tl (flat_map
             (fun g => OR :: map (fun w => TERM None (toLowerCase w)) g)
             (g :: groups)))
    = Some node
    /\ evaluateNode host this node row
       = existsb
           (forallb (fun w => evaluateTerm host this None (toLowerCase w) row))
           (g :: groups).
Proof.
  intros Ng F. cbn [flat_map app tl].
  set (tail := flat_map
                 (fun g => OR :: map (fun w => TERM None (toLowerCase w)) g)
                 groups).
  destruct (parseAnd_terms host this row g
              (length g + length tail + 3 + 3 * (length g + length tail)) tail Ng)
    as (node & P & V); [lia| |].
  { unfold tail. destruct groups as [|g2 groups]; [left; reflexivity|].
    right. cbn [flat_map app]. eauto. }
  destruct (parseOrLoop_groups host this row groups
              (length g + length tail + 3 + 3 * (length g + length tail))
              node F) as (node' & P' & V'); [fold tail; lia|].
  fold tail in P'. exists node'. split; [|rewrite V', V; reflexivity].
  unfold parseTokens, parseFuel. rewrite length_app, length_map.
  replace (4 * (length g + length tail) + 4)%nat
    with (S (length g + length tail + 3 + 3 * (length g + length tail)))
    by lia.
  cbn [parseOr]. rewrite P, P'. reflexivity.
Qed.

(** X17 (parseSearchQuery and evaluateSearchAST together): a query of
    groups of plain words, one space between the words of a group and
    [ OR ] between the groups, is true of a row exactly when for some group
    every word of it, in lower case, is true of the row as a term without
    a column. *)
Theorem words_query host this (groups : list (list string)) (row : Row) :
  groups <> [] ->
  Forall (fun g => g <> [] /\ Forall (fun w => isPlainWord w = true) g) groups ->
  evaluateSearchAST host this (parseSearchQuery (joinGroups groups)) row
  = existsb
      (forallb (fun w => evaluateTerm host this None (toLowerCase w) row))
      groups.
Proof.
  intros N F.
  assert (T : tokenize (joinGroups groups)
              = Some (tl (flat_map
                   (fun g => OR :: map (fun w => TERM None (toLowerCase w)) g)
                   groups))).
  { unfold tokenize. rewrite lexLoop_groups by (assumption || lia).
    reflexivity. }
  destruct groups as [|g groups]; [contradiction|].
  pose proof F as F0.
  apply List.Forall_cons_iff in F. destruct F as ((Ng & Fg) & F).
  assert (B : nonEmpty (joinGroups (g :: groups)) = true
              /\ nonEmpty (trim (joinGroups (g :: groups))) = true).
  { destruct g as [|w ws]; [contradiction|].
    apply List.Forall_cons_iff in Fg.
    destruct (plainWord_first w (proj1 Fg)) as (c & r & -> & W).
    assert (S : exists rest, joinGroups ((String c r :: ws) :: groups)
                             = String c r +:+ rest).
    { cbn [joinGroups joinWords]. destruct ws, groups;
        rewrite ?append_assoc_string; eauto.
      exists "". rewrite append_empty. reflexivity. }
    destruct S as (rest & ->). split; [reflexivity|].
    apply trim_word. exact W. }
  destruct B as (B1 & B2).
  destruct (parseTokens_groups host this row g groups Ng) as (node & P & V).
  { apply List.Forall_forall. intros x Hin.
    rewrite List.Forall_forall in F. exact (proj1 (F x Hin)). }
  unfold parseSearchQuery. rewrite B1, B2, T. cbn [negb orb].
  rewrite P. exact V.
Qed.

Lemma words_query_witness :
  evaluateSearchAST Sample.host (Sample.people [])
    (parseSearchQuery (joinGroups [["Ann"; "3.1"]; ["bob"]]))
    (Sample.person "Bob" "27")
  = existsb
      (forallb
         (fun w => evaluateTerm Sample.host (Sample.people []) None
                     (toLowerCase w) (Sample.person "Bob" "27")))
      [["Ann"; "3.1"]; ["bob"]].
Proof.
  apply (words_query Sample.host (Sample.people [])
           [["Ann"; "3.1"]; ["bob"]] (Sample.person "Bob" "27")).
  - discriminate.
  - repeat constructor; discriminate.
Defined.

End WordsQuery.

(** ** Columns and cells in the evaluator *)

Section LeafFacts.
Import JsString Csv2Table.

Lemma findIndexFrom_none {A} (p : A -> bool) (l : list A) : forall i,
  Forall (fun x => p x = false) l -> findIndexFrom p i l = None.
Proof.
  induction l as [|x l IH]; intros i F; [reflexivity|].
  apply List.Forall_cons_iff in F. destruct F as (Hx & F).
  cbn [findIndexFrom]. rewrite Hx. apply IH, F.
Qed.

Lemma targetColIndex_unknown this column :
  Forall (fun h => toLowerCase h <> toLowerCase column) (headers this) ->
  targetColIndex this (Some column) = None.
Proof.
  intros F. unfold targetColIndex.
  destruct (truthy (Some column)); [|reflexivity].
  apply findIndexFrom_none.
  apply List.Forall_forall. intros h Hin.
  rewrite List.Forall_forall in F. apply String.eqb_neq. exact (F h Hin).
Qed.

(** X18 (evaluateSearchAST, the column qualifier): a qualifier that is no
    header of the table, with case ignored, is ignored: the term or the
    comparison is evaluated as if it had no qualifier, on the visible
    columns. *)
Theorem unknown_column_ignored host this (column : string) (row : Row) :
  Forall (fun h => toLowerCase h <> toLowerCase column) (headers this) ->
  (forall value,
     evaluateTerm host this (Some column) value row
     = evaluateTerm host this None value row)
  /\ (forall op value,
        evaluateInequality host this (Some column) op value row
        = evaluateInequality host this None op value row).
Proof.
  intros F. pose proof (targetColIndex_unknown this column F) as E.
  split.
  - intros value. unfold evaluateTerm. rewrite E. reflexivity.
  - intros op value. unfold evaluateInequality. rewrite E. reflexivity.
Qed.

Lemma unknown_column_ignored_witness :
  (forall value,
     evaluateTerm Sample.host (Sample.people []) (Some "nme") value
       (Sample.person "Ann" "31")
     = evaluateTerm Sample.host (Sample.people []) None value
         (Sample.person "Ann" "31"))
  /\ (forall op value,
        evaluateInequality Sample.host (Sample.people []) (Some "nme") op value
          (Sample.person "Ann" "31")
        = evaluateInequality Sample.host (Sample.people []) None op value
            (Sample.person "Ann" "31")).
Proof.
  apply (unknown_column_ignored Sample.host (Sample.people []) "nme"
           (Sample.person "Ann" "31")).
  repeat constructor; discriminate.
Defined.

Lemma someFrom_visible {A} (visible : gset nat) (g : A -> nat -> bool)
  (l1 l2 : list A) :
  (forall i, i ∈ visible -> l1 !! i = l2 !! i) ->
  someFrom (fun x i => bool_decide (i ∈ visible) && g x i) 0 l1
  = someFrom (fun x i => bool_decide (i ∈ visible) && g x i) 0 l2.
Proof.
  intros H.
  assert (D : forall l1 l2 : list A,
    (forall i, i ∈ visible -> l1 !! i = l2 !! i) ->
    someFrom (fun x i => bool_decide (i ∈ visible) && g x i) 0 l1 = true ->
    someFrom (fun x i => bool_decide (i ∈ visible) && g x i) 0 l2 = true).
  { intros a b Hab Ha. apply someFrom_spec in Ha.
    destruct Ha as (j & x & Hj & Hx). apply someFrom_spec.
    exists j, x. split; [|exact Hx].
    apply andb_true_iff in Hx. destruct Hx as (Hv & _).
    apply bool_decide_eq_true in Hv. rewrite <- (Hab j Hv). exact Hj. }
  destruct (someFrom _ 0 l1) eqn:E1.
  - symmetry. exact (D l1 l2 H E1).
  - destruct (someFrom _ 0 l2) eqn:E2; [|reflexivity].
    rewrite (D l2 l1 (fun i Hi => eq_sym (H i Hi)) E2) in E1. discriminate E1.
Qed.

(** X19 (evaluateSearchAST, hidden columns): a query without column
    qualifiers looks at visible columns only.  Two rows with the same
    cells in the visible columns get the same verdict, whatever their
    hidden cells are. *)
Theorem hidden_cells_ignored host this (node : ast) (r1 r2 : Row) :
  unqualified node = true ->
  (forall i, i ∈ visibleColumns this -> cells r1 !! i = cells r2 !! i) ->
  evaluateNode host this node r1 = evaluateNode host this node r2.
Proof.
  intros U H. induction node as [l IHl r IHr|l IHl r IHr|column value|column op value];
    cbn [unqualified evaluateNode] in *.
  - apply andb_true_iff in U. destruct U as (Ul & Ur).
    rewrite (IHl Ul), (IHr Ur). reflexivity.
  - apply andb_true_iff in U. destruct U as (Ul & Ur).
    rewrite (IHl Ul), (IHr Ur). reflexivity.
  - apply negb_true_iff in U. unfold evaluateTerm, targetColIndex. rewrite U.
    destruct (RegExp.new (termPattern value) true); [|reflexivity].
    apply (someFrom_visible (visibleColumns this)
             (fun cell i => RegExp.test t (searchText host this i cell))).
    exact H.
  - apply negb_true_iff in U. unfold evaluateInequality, targetColIndex.
    rewrite U.
    apply (someFrom_visible (visibleColumns this)
             (fun cell i => evaluateCell host this op value cell i)).
    exact H.
Qed.

Lemma hidden_cells_ignored_witness :
  evaluateNode Sample.host (Sample.table "string" [] None true)
    (AstOr (AstTerm None "x") (AstInequality None OpGt "3"))
    {| cells := ["a"; "x"]; _originalIndex := None |}
  = evaluateNode Sample.host (Sample.table "string" [] None true)
      (AstOr (AstTerm None "x") (AstInequality None OpGt "3"))
      {| cells := ["a"; "7"]; _originalIndex := None |}.
Proof.
  apply (hidden_cells_ignored Sample.host (Sample.table "string" [] None true)
           (AstOr (AstTerm None "x") (AstInequality None OpGt "3"))
           {| cells := ["a"; "x"]; _originalIndex := None |}
           {| cells := ["a"; "7"]; _originalIndex := None |}).
  - reflexivity.
  - intros i Hi.
    change (i ∈ ({[ 0%nat ]} : gset nat)) in Hi.
    apply elem_of_singleton in Hi. subst i. reflexivity.
Defined.

Lemma someFrom_false {A} (f : A -> nat -> bool) (l : list A) : forall i,
  (forall x j, f x j = false) -> someFrom f i l = false.
Proof.
  induction l as [|x l IH]; intros i H; [reflexivity|].
  cbn [someFrom]. rewrite H, (IH (S i) H). reflexivity.
Qed.

Lemma evaluateCell_no_value host this op value cell i :
  JsNumber.parseFloat value = JsNumber.NaN ->
  searchValDate host value = None ->
  evaluateCell host this op value cell i = false.
Proof.
  intros N D. unfold evaluateCell. rewrite N, D.
  destruct (typeOf (columnAt this i) =? "date").
  - destruct (parseDateString host cell _); reflexivity.
  - rewrite andb_false_r. destruct (JsDate.parse host cell); reflexivity.
Qed.

(** X20 (evaluateSearchAST, INEQUALITY): a comparison whose value is
    neither a number nor a date is true of no row, with every operator and
    every column qualifier. *)
Theorem inequality_without_value host this (column : option string)
  (op : operator) (value : string) (row : Row) :
  JsNumber.parseFloat value = JsNumber.NaN ->
  searchValDate host value = None ->
  evaluateInequality host this column op value row = false.
Proof.
  intros N D. unfold evaluateInequality.
  destruct (targetColIndex this column) as [i|].
  - apply evaluateCell_no_value; assumption.
  - apply someFrom_false. intros cell i.
    rewrite (evaluateCell_no_value host this op value cell i N D).
    apply andb_false_r.
Qed.

Lemma inequality_without_value_witness :
  evaluateInequality Sample.host
    (Sample.people [Sample.person "Ann" "31"]) (Some "age") OpGe "old"
    (Sample.person "Ann" "31")
  = false.
Proof.
  apply (inequality_without_value Sample.host
           (Sample.people [Sample.person "Ann" "31"]) (Some "age") OpGe "old"
           (Sample.person "Ann" "31")).
  - vm_compute. reflexivity.
  - vm_compute. reflexivity.
Defined.

End LeafFacts.

(** ** The values the lexer emits *)

Section LexerValues.
Import JsString Csv2Table.

Lemma toLowerChar_idempotent (c : ascii) :
  toLowerChar (toLowerChar c) = toLowerChar c.
Proof. destruct c as [[] [] [] [] [] [] [] []]; reflexivity. Qed.

Lemma toLowerCase_idempotent (s : string) :
  toLowerCase (toLowerCase s) = toLowerCase s.
Proof.
  induction s as [|c s IH]; [reflexivity|].
  cbn [toLowerCase]. rewrite toLowerChar_idempotent, IH. reflexivity.
Qed.

Lemma scanFragment_normalized s t r :
  scanFragment s = (Some t, r) -> normalized t.
Proof.
  unfold scanFragment.
  destruct (matchColumn s) as [[col s0]|] eqn:C.
  - apply matchColumn_shorter in C. destruct C as (_ & Hc).
    destruct (match matchOperator s0 with
              | Some (op, r0) => (Some op, r0)
              | None => (None, s0)
              end) as [operator s2].
    destruct (scanValue s2) as [value s3].
    destruct (nonEmpty value || truthy (Some col)); [|discriminate].
    intros H. injection H as <- <-.
    destruct operator; (split; [apply toLowerCase_idempotent|]);
      intros E; injection E as E; exact (Hc E).
  - destruct (match matchOperator s with
              | Some (op, r0) => (Some op, r0)
              | None => (None, s)
              end) as [operator s2].
    destruct (scanValue s2) as [value s3].
    destruct (nonEmpty value || truthy None); [|discriminate].
    intros H. injection H as <- <-.
    destruct operator; (split; [apply toLowerCase_idempotent | discriminate]).
Qed.

Lemma lexLoop_normalized fuel : forall s tokens ts,
  Forall normalized tokens ->
  lexLoop fuel s tokens = Some ts -> Forall normalized ts.
Proof.
  induction fuel as [|fuel IH]; intros s tokens ts Hacc H.
  - destruct s; simpl in H; [injection H as <-; exact Hacc | discriminate].
  - destruct s as [|c r]; [simpl in H; injection H as <-; exact Hacc|].
    cbn [lexLoop] in H.
    assert (Push : forall t, normalized t ->
                     Forall normalized (push tokens (Some t))).
    { intros t Ht. cbn [push]. apply Forall_app. split; [exact Hacc|].
      constructor; [exact Ht | constructor]. }
    destruct (isWhiteSpace c); [exact (IH _ _ _ Hacc H)|].
    destruct (Ascii.eqb c "("); [exact (IH _ _ _ (Push LPAREN I) H)|].
    destruct (Ascii.eqb c ")"); [exact (IH _ _ _ (Push RPAREN I) H)|].
    destruct (matchKeyword (String c r)) as [[kw r']|] eqn:K.
    + assert (Hk : normalized kw).
      { unfold matchKeyword in K.
        destruct (matchIgnoreCase "and" (String c r)) as [r1|].
        - destruct (atWordBoundary r1); inversion K; subst; exact I.
        - destruct (matchIgnoreCase "or" (String c r)) as [r2|]; [|discriminate].
          destruct (atWordBoundary r2); inversion K; subst; exact I. }
      exact (IH _ _ _ (Push kw Hk) H).
    + destruct (scanFragment (String c r)) as [tok r'] eqn:F.
      destruct tok as [t|].
      * exact (IH _ _ _ (Push t (scanFragment_normalized _ _ _ F)) H).
      * exact (IH _ _ _ Hacc H).
Qed.

(** X21 (parseSearchQuery, the lexer): on every query the lexer returns
    tokens in which the value of every term and comparison is in lower
    case (lower-casing it again changes nothing), while a column qualifier
    keeps its case and is never the empty string. *)
Theorem tokens_are_normalized (query : string) :
  exists tokens, tokenize query = Some tokens /\ Forall normalized tokens.
Proof.
  destruct (lexLoop_total (String.length query) query [] (Nat.le_refl _))
    as [ts Hts].
  exists ts. split; [exact Hts|].
  eapply lexLoop_normalized; [|exact Hts]. constructor.
Qed.

Lemma span_phrase (p rest : string) :
  allChars isNotQuote p = true ->
  span isNotQuote (p +:+ String quote rest) = (p, String quote rest)
  /\ span isNotQuote p = (p, "").
Proof.
  intros H. induction p as [|c p IH]; [split; reflexivity|].
  cbn [allChars] in H. apply andb_true_iff in H. destruct H as (Hc & Hp).
  destruct (IH Hp) as (E1 & E2).
  change (String c p +:+ String quote rest)
    with (String c (p +:+ String quote rest)).
  cbn [span]. rewrite Hc, E1, E2. split; reflexivity.
Qed.

Lemma span_no_colon (s : string) :
  allChars (fun c => negb (Ascii.eqb c ":")) s = true ->
  match snd (span isColumnChar s) with
  | "" => True
  | String d _ => Ascii.eqb d ":" = false
  end.
Proof.
  induction s as [|c s IH]; intros H; [exact I|].
  cbn [allChars] in H. apply andb_true_iff in H. destruct H as (Hc & Hs).
  cbn [span]. destruct (isColumnChar c).
  - specialize (IH Hs). destruct (span isColumnChar s) as [a b]. exact IH.
  - apply negb_true_iff in Hc. exact Hc.
Qed.

Lemma matchColumn_no_colon (s : string) :
  allChars (fun c => negb (Ascii.eqb c ":")) s = true -> matchColumn s = None.
Proof.
  intros H. pose proof (span_no_colon s H) as G. unfold matchColumn.
  destruct (span isColumnChar s) as [a b]. cbn [snd] in G.
  destruct a as [|x a]; [reflexivity|].
  destruct b as [|d b]; [reflexivity|].
  destruct d as [[] [] [] [] [] [] [] []]; try reflexivity; discriminate G.
Qed.

Lemma allChars_append (f : ascii -> bool) (a b : string) :
  allChars f a = true -> allChars f b = true -> allChars f (a +:+ b) = true.
Proof.
  intros Ha Hb. induction a as [|c a IH]; [exact Hb|].
  change (String c a +:+ b) with (String c (a +:+ b)).
  cbn [allChars] in *. apply andb_true_iff in Ha. destruct Ha as (Hc & Ha).
  rewrite Hc, (IH Ha). reflexivity.
Qed.

Lemma allChars_weaken (f g : ascii -> bool) (s : string) :
  (forall c, f c = true -> g c = true) ->
  allChars f s = true -> allChars g s = true.
Proof.
  intros W H. induction s as [|c s IH]; [reflexivity|].
  cbn [allChars] in *. apply andb_true_iff in H. destruct H as (Hc & Hs).
  rewrite (W c Hc), (IH Hs). reflexivity.
Qed.

(** X22 (parseSearchQuery, the lexer): a phrase between double quotes is
    one term.  For a phrase that is not empty and holds no double quote
    and no colon, the query that is the phrase between double quotes
    parses to the single column-less term whose value is the phrase in
    lower case: spaces, parentheses, comparison signs and the words [AND]
    and [OR] in it are taken as they are.  Without the closing quote the
    result is the same. *)
Theorem quoted_phrase (p : string) :
  p <> "" ->
  allChars (fun c => isNotQuote c && negb (Ascii.eqb c ":")) p = true ->
  parseSearchQuery (String quote (p +:+ String quote ""))
  = Some (AstTerm None (toLowerCase p))
  /\ parseSearchQuery (String quote p) = Some (AstTerm None (toLowerCase p)).
Proof.
  intros N H.
  assert (Hq : allChars isNotQuote p = true).
  { refine (allChars_weaken _ _ p _ H).
    intros c Hc. apply andb_true_iff in Hc. exact (proj1 Hc). }
  assert (Hc : allChars (fun c => negb (Ascii.eqb c ":")) p = true).
  { refine (allChars_weaken _ _ p _ H).
    intros c Hc. apply andb_true_iff in Hc. exact (proj2 Hc). }
  destruct (span_phrase p "" Hq) as (S1 & S2).
  assert (Np : nonEmpty p = true) by (destruct p; [contradiction | reflexivity]).
  assert (T : forall tail,
            tail = String quote "" \/ tail = "" ->
            tokenize (String quote (p +:+ tail))
            = Some [TERM None (toLowerCase p)]).
  { intros tail Ht. unfold tokenize. cbn [String.length lexLoop].
    change (isWhiteSpace quote) with false.
    change (Ascii.eqb quote "(") with false.
    change (Ascii.eqb quote ")") with false. cbv iota.
    change (matchKeyword (String quote (p +:+ tail))) with (@None (token * string)).
    cbv iota. unfold scanFragment.
    rewrite matchColumn_no_colon.
    2:{ change (String quote (p +:+ tail)) with (String quote p +:+ tail).
        apply allChars_append.
        - cbn [allChars]. rewrite Hc. reflexivity.
        - destruct Ht as [->| ->]; reflexivity. }
    change (matchOperator (String quote (p +:+ tail)))
      with (@None (operator * string)).
    cbv iota. unfold scanValue. rewrite Ascii.eqb_refl.
    destruct Ht as [->| ->].
    - rewrite S1, Np. cbn [orb push app]. apply lexLoop_end.
    - rewrite append_empty, S2, Np. cbn [orb push app]. apply lexLoop_end. }
  assert (B : forall tail,
            nonEmpty (trim (String quote (p +:+ tail))) = true).
  { intros tail. change (String quote (p +:+ tail))
      with (String quote p +:+ tail). apply trim_word. reflexivity. }
  split.
  - unfold parseSearchQuery. rewrite (B (String quote "")), T by auto.
    reflexivity.
  - rewrite <- (append_empty p) at 1.
    unfold parseSearchQuery. rewrite (B ""), T by auto. reflexivity.
Qed.

Lemma quoted_phrase_witness :
  parseSearchQuery (String quote ("New York (NY) or <b>" +:+ String quote ""))
  = Some (AstTerm None (toLowerCase "New York (NY) or <b>"))
  /\ parseSearchQuery (String quote "New York (NY) or <b>")
     = Some (AstTerm None (toLowerCase "New York (NY) or <b>")).
Proof.
  apply (quoted_phrase "New York (NY) or <b>").
  - discriminate.
  - reflexivity.
Defined.

End LexerValues.

(** ** Dates: placeholders and two-digit years *)

Section DateShapes.
Import JsString Csv2Table.

Lemma parseDateString_placeholder host (cell : string) (format : option string) :
  cell = "" \/ trim cell = "-" \/ trim cell = "" ->
  parseDateString host cell format = None.
Proof.
  intros H. unfold parseDateString.
  assert (G : negb (nonEmpty cell) || (trim cell =? "-") || (trim cell =? "")
              = true).
  { destruct H as [->|[E|E]]; [reflexivity| |]; rewrite E.
    - rewrite orb_true_r. reflexivity.
    - apply orb_true_r. }
  rewrite G. reflexivity.
Qed.

(** X23 (parseDateString, formatDate, evaluateSearchAST): a cell that is
    empty, blank or a lone dash is no date under any format: it parses to
    [NaN], [formatDate] shows it as it is, and on a column typed [date] no
    comparison is true of it. *)
Theorem date_placeholder host this (column : nat) (cell : string) :
  cell = "" \/ trim cell = "-" \/ trim cell = "" ->
  typeOf (columnAt this column) = "date" ->
  (forall format, parseDateString host cell format = None)
  /\ (forall inputFormatStr outputFormatStr locale,
        formatDate host cell inputFormatStr outputFormatStr locale = cell)
  /\ (forall op value, evaluateCell host this op value cell column = false).
Proof.
  intros H T. split; [|split].
  - intros format. apply parseDateString_placeholder, H.
  - intros i o l. unfold formatDate.
    rewrite (parseDateString_placeholder host cell i H).
    destruct cell; reflexivity.
  - intros op value. unfold evaluateCell. rewrite T.
    rewrite (parseDateString_placeholder host cell _ H). reflexivity.
Qed.

Lemma date_placeholder_witness :
  (forall format, parseDateString Sample.host " - " format = None)
  /\ (forall inputFormatStr outputFormatStr locale,
        formatDate Sample.host " - " inputFormatStr outputFormatStr locale
        = " - ")
  /\ (forall op value,
        evaluateCell Sample.host (Sample.table "date" [] None true) op value
          " - " 0 = false).
Proof.
  apply (date_placeholder Sample.host (Sample.table "date" [] None true) 0 " - ").
  - right. left. reflexivity.
  - reflexivity.
Defined.

Lemma isDigit_cases (c : ascii) :
  isDigit c = true ->
  In c ["0"; "1"; "2"; "3"; "4"; "5"; "6"; "7"; "8"; "9"]%char.
Proof.
  destruct c as [[] [] [] [] [] [] [] []]; intros H; try discriminate H;
    simpl; tauto.
Qed.

(** X24 (parseDateString, the format [YY]): a cell of two digits read
    with the format [YY] is the first of January, local midnight, of a
    year between 1970 and 2069: 70 to 99 are 1970 to 1999, 00 to 69 are
    2000 to 2069. *)
Theorem parseDateString_two_digit_year host (d1 d2 : ascii) :
  isDigit d1 = true -> isDigit d2 = true ->
  parseDateString host (String d1 (String d2 "")) (Some "YY")
  = JsDate.fromFields host
      (Some (let n := (10 * digitValue d1 + digitValue d2)%Z in
             if (70 <=? n)%Z then (1900 + n)%Z else (2000 + n)%Z))
      (Some 0%Z) (Some 1%Z) (Some 0%Z) (Some 0%Z) (Some 0%Z).
Proof.
  intros H1 H2. apply isDigit_cases in H1, H2.
  unfold parseDateString.
  change (truthy (Some "YY")) with true. cbv [negb].
  change (default "" (Some "YY")) with "YY".
  destruct (RegExp.new ("^" +:+ datePattern "YY" +:+ "$") false) as [re|] eqn:E;
    vm_compute in E; [|discriminate E].
  injection E as <-.
  simpl in H1, H2.
  repeat (destruct H1 as [<-|H1]); try contradiction;
    repeat (destruct H2 as [<-|H2]); try contradiction;
    match goal with
    | |- context [RegExp.exec ?re (trim ?s)] =>
        let X := fresh "X" in
        assert (X : RegExp.exec re (trim s) = Some [("YY", s)])
          by (vm_compute; reflexivity);
        rewrite X; clear X
    end;
    cbv -[JsDate.fromFields]; reflexivity.
Qed.

Lemma parseDateString_two_digit_year_witness :
  parseDateString Sample.host "42" (Some "YY")
  = JsDate.fromFields Sample.host
      (Some (let n := (10 * digitValue "4" + digitValue "2")%Z in
             if (70 <=? n)%Z then (1900 + n)%Z else (2000 + n)%Z))
      (Some 0%Z) (Some 1%Z) (Some 0%Z) (Some 0%Z) (Some 0%Z).
Proof.
  apply (parseDateString_two_digit_year Sample.host "4" "2"); reflexivity.
Defined.

End DateShapes.
